(** * The tagged document store of the search package

    A shallow embedding of the two storage adapters of the search package,
    [packages/search/src/storage/sqlite.ts] and
    [packages/search/src/storage/d1-storage-adapter.ts], and of the part of
    the SQL engine their query-builder calls rely on.

    Both adapters run against the schema their [MIGRATIONS] create: a
    documents table with a unique index on [id], and a tags table with a
    unique index on [(tag, search_document_id)]. *)

From Stdlib Require Import Ascii String.
From stdpp Require Import base decidable option numbers list strings gmap sorting.

Local Open Scope string_scope.
Local Open Scope list_scope.

(** ** Data model *)

(** A row of [wt_search_documents] ([SearchDocumentTable]). Timestamps are
    the integer column values, milliseconds as [Date.getTime] gives them. *)
Record SearchDocumentRow : Type := {
  doc_id : string;
  doc_tenant : string;
  doc_index : string;
  doc_data : string;
  doc_created_at : Z;
  doc_updated_at : Z
}.

(** A row of [wt_search_tags] ([SearchTagTable]). *)
Record SearchTagRow : Type := {
  tag : string;
  search_document_id : string
}.

(** [DatabaseSchema]: the two tables, each in the order the engine scans it
    (rows are appended on insert). The D1 adapter names the same two tables
    [search_documents] and [search_tags]. *)
Record DatabaseSchema : Type := {
  wt_search_documents : list SearchDocumentRow;
  wt_search_tags : list SearchTagRow
}.

#[global] Instance SearchDocumentRow_eq_dec : EqDecision SearchDocumentRow.
Proof. solve_decision. Defined.
#[global] Instance SearchTagRow_eq_dec : EqDecision SearchTagRow.
Proof. solve_decision. Defined.
#[global] Instance DatabaseSchema_eq_dec : EqDecision DatabaseSchema.
Proof. solve_decision. Defined.

(** The payload is opaque to the store: it is kept as the text
    [JSON.stringify] produces, and [JSON.parse] gives the value back. *)
Definition JSONValue : Type := string.
Definition JSON_stringify (v : JSONValue) : string := v.
Definition JSON_parse (s : string) : JSONValue := s.

(** [UpsertSearchDocumentBody], the argument of an upsert. *)
Record UpsertSearchDocumentBody : Type := {
  body_id : string;
  body_tenant : string;
  body_index : string;
  body_data : JSONValue
}.

(** [SearchDocument], what the adapters hand back. The D1 adapter's
    [_formatDocument] builds the object without a [tags] property. *)
Record SearchDocument : Type := {
  sd_id : string;
  sd_tenant : string;
  sd_index : string;
  sd_data : JSONValue;
  sd_tags : option (list string);
  sd_createdAt : Z;
  sd_updatedAt : Z
}.

#[global] Instance SearchDocument_eq_dec : EqDecision SearchDocument.
Proof. solve_decision. Defined.

(** Modelled from the spec: [GetDocumentsOptions] is declared in
    [storage-adapter.ts], which is not among the sources. The spec gives
    listing a tenant, an optional index and an optional limit. *)
Record GetDocumentsOptions : Type := {
  opt_tenant : string;
  opt_index : option string;
  opt_limit : option nat
}.

(** ** Failures and statements *)

(** A constraint violation of the backend, by the name of the index. *)
Inductive StorageError : Type :=
  | UniqueConstraintFailed (index_name : string).

(** How an awaited statement (or a whole async method) ends. *)
Inductive Outcome (A : Type) : Type :=
  | Resolved (a : A)
  | Rejected (e : StorageError).
Arguments Resolved {A} a.
Arguments Rejected {A} e.

#[global] Instance StorageError_eq_dec : EqDecision StorageError.
Proof. solve_decision. Defined.
#[global] Instance Outcome_eq_dec {A} `{EqDecision A} : EqDecision (Outcome A).
Proof. solve_decision. Defined.

(** A writing method threads the database through its awaited statements;
    a rejected statement ends the method with the database as it then is. *)
Definition Stmt (A : Type) : Type := DatabaseSchema → Outcome A * DatabaseSchema.

Definition stmt_ret {A} (a : A) : Stmt A := λ db, (Resolved a, db).

Definition stmt_bind {A B} (m : Stmt A) (k : A → Stmt B) : Stmt B :=
  λ db, match m db with
        | (Resolved a, db') => k a db'
        | (Rejected e, db') => (Rejected e, db')
        end.

Declare Scope stmt_scope.
Delimit Scope stmt_scope with stmt.
Notation "'await' x ':=' m 'in' k" := (stmt_bind m (λ x, k))
  (at level 10, x name, m at level 100, k at level 200) : stmt_scope.
Notation "'await_' m 'in' k" := (stmt_bind m (λ _, k))
  (at level 10, m at level 100, k at level 200) : stmt_scope.

(** JavaScript truthiness of the values the adapters test. *)
Definition truthy_string (s : option string) : bool :=
  match s with
  | Some s => bool_decide (s ≠ EmptyString)
  | None => false
  end.

Definition truthy_number (n : option Z) : bool :=
  match n with
  | Some n => bool_decide (n ≠ 0%Z)
  | None => false
  end.

(** ** The SQL the query builder produces *)

Section Relational.
Context {A B K : Type} `{EqDecision K}.

(** [l LEFT JOIN r ON r.kr = l.kl]: every left row, paired with each
    matching right row, or with NULL when there is none. *)
Definition leftJoin (kr : B → K) (kl : A → K)
    (l : list A) (r : list B) : list (A * option B) :=
  l ≫= λ a, match filter (λ b, kr b = kl a) r with
            | [] => [(a, None)]
            | bs => (λ b, (a, Some b)) <$> bs
            end.

(** [l INNER JOIN r ON l.kl = r.kr]. *)
Definition innerJoin (kl : A → K) (kr : B → K)
    (l : list A) (r : list B) : list (A * B) :=
  l ≫= λ a, (λ b, (a, b)) <$> filter (λ b, kl a = kr b) r.
End Relational.

Section Grouping.
Context {A K : Type} `{EqDecision K}.
Variable key : A → K.

(** The first row of every key, in the order the keys first occur. *)
Fixpoint first_by_key (l : list A) : list A :=
  match l with
  | [] => []
  | a :: l' => a :: filter (λ b, key b ≠ key a) (first_by_key l')
  end.

(** [GROUP BY key]: one group per key, as its first row (the row bare
    columns are read from) and all its rows. *)
Definition groupBy (l : list A) : list (A * list A) :=
  (λ a, (a, filter (λ b, key b = key a) l)) <$> first_by_key l.
End Grouping.

Section Ordering.
Context {A : Type}.
Variable key : A → Z.

Fixpoint insert_desc (x : A) (l : list A) : list A :=
  match l with
  | [] => [x]
  | y :: l' => if decide (key x < key y)%Z then y :: insert_desc x l'
               else x :: y :: l'
  end.

(** [ORDER BY key DESC] with no further sort term: rows with equal keys
    stay in the order the scan produced them. SQL leaves that order to the
    engine; the scan is taken here in storage order. *)
Definition orderBy_desc (l : list A) : list A := foldr insert_desc [] l.

(** [LIMIT n]. Every listing hands [options.limit] to the query as it is;
    [None] stands for a call that gives no limit, which is given the uncapped
    rows here: what a listing returns is stated for [Some n]. *)
Definition limit (n : option nat) (l : list A) : list A :=
  match n with
  | Some n => take n l
  | None => l
  end.
End Ordering.

(** [SELECT DISTINCT]: every value once, here in the order of the first
    occurrences (SQL leaves the order to the engine). *)
Definition distinct {A} `{EqDecision A} (l : list A) : list A :=
  first_by_key (λ a, a) l.

(** [group_concat(x, ',')] over the non-NULL values of a group, in the order
    of the group's rows (which SQL leaves to the engine); NULL when there is
    none. *)
Definition group_concat (vals : list (option string)) : option string :=
  match omap (λ v, v) vals with
  | [] => None
  | vs => Some (String.concat "," vs)
  end.

(** [count(x)]: the number of non-NULL values of a group. *)
Definition count {A} (vals : list (option A)) : nat :=
  length (omap (λ v, v) vals).

(** [s.split(",")]. *)
Fixpoint split_comma (s : string) : list string :=
  match s with
  | EmptyString => [EmptyString]
  | String c s' =>
      if decide (c = ","%char) then EmptyString :: split_comma s'
      else match split_comma s' with
           | [] => [String c EmptyString]
           | w :: ws => String c w :: ws
           end
  end.

(** [INSERT INTO wt_search_documents VALUES row], under the unique index on
    [id]. *)
Definition insertInto_documents (index_name : string) (row : SearchDocumentRow)
    : Stmt unit :=
  λ db, if decide (doc_id row ∈ doc_id <$> wt_search_documents db)
        then (Rejected (UniqueConstraintFailed index_name), db)
        else (Resolved (),
              {| wt_search_documents := wt_search_documents db ++ [row];
                 wt_search_tags := wt_search_tags db |}).

(** [UPDATE wt_search_documents SET data, updated_at WHERE cond]. *)
Definition updateTable_documents (cond : SearchDocumentRow → Prop)
    `{∀ r, Decision (cond r)} (new_data : string) (new_updated_at : Z)
    : Stmt unit :=
  λ db, (Resolved (),
         {| wt_search_documents :=
              (λ r, if decide (cond r)
                    then {| doc_id := doc_id r; doc_tenant := doc_tenant r;
                            doc_index := doc_index r; doc_data := new_data;
                            doc_created_at := doc_created_at r;
                            doc_updated_at := new_updated_at |}
                    else r) <$> wt_search_documents db;
            wt_search_tags := wt_search_tags db |}).

(** [DELETE FROM wt_search_documents WHERE cond]. *)
Definition deleteFrom_documents (cond : SearchDocumentRow → Prop)
    `{∀ r, Decision (cond r)} : Stmt unit :=
  λ db, (Resolved (),
         {| wt_search_documents := filter (λ r, ¬ cond r) (wt_search_documents db);
            wt_search_tags := wt_search_tags db |}).

(** The rows of one multi-row insert go in one after the other, each under
    the unique index on [(tag, search_document_id)]. *)
Fixpoint insert_tag_rows (rows : list SearchTagRow) (table : list SearchTagRow)
    : option (list SearchTagRow) :=
  match rows with
  | [] => Some table
  | r :: rows' => if decide (r ∈ table) then None
                  else insert_tag_rows rows' (table ++ [r])
  end.

(** [INSERT INTO wt_search_tags VALUES rows]: a statement that fails leaves
    none of its rows behind. *)
Definition insertInto_tags (index_name : string) (rows : list SearchTagRow)
    : Stmt unit :=
  λ db, match insert_tag_rows rows (wt_search_tags db) with
        | Some table => (Resolved (),
                         {| wt_search_documents := wt_search_documents db;
                            wt_search_tags := table |})
        | None => (Rejected (UniqueConstraintFailed index_name), db)
        end.

(** [INSERT INTO search_tags VALUES row ON CONFLICT DO NOTHING]. *)
Definition insertInto_tags_doNothing (row : SearchTagRow) : Stmt unit :=
  λ db, (Resolved (),
         if decide (row ∈ wt_search_tags db) then db
         else {| wt_search_documents := wt_search_documents db;
                 wt_search_tags := wt_search_tags db ++ [row] |}).

(** [DELETE FROM wt_search_tags WHERE cond]. *)
Definition deleteFrom_tags (cond : SearchTagRow → Prop)
    `{∀ r, Decision (cond r)} : Stmt unit :=
  λ db, (Resolved (),
         {| wt_search_documents := wt_search_documents db;
            wt_search_tags := filter (λ r, ¬ cond r) (wt_search_tags db) |}).

(** A read inside a writing method. *)
Definition execute {A} (q : DatabaseSchema → A) : Stmt A :=
  λ db, (Resolved (q db), db).

(** A column of the right side of a left join, NULL when the row is. *)
Definition column {R C} (f : R → C) (r : option R) : option C := f <$> r.

(** ** The sqlite adapter ([SqliteStorageAdapter], sqlite.ts) *)

Module Sqlite.

Definition documents_id_idx : string := "wt_search_documents_id_idx".
Definition tags_unique_idx : string := "wt_search_tags_unique_idx".

(** [_formatDocument], on a [SearchDocumentRow & { tags?: string }]. *)
Definition _formatDocument (document : SearchDocumentRow * option string)
    : SearchDocument :=
  {| sd_id := doc_id document.1;
     sd_tenant := doc_tenant document.1;
     sd_index := doc_index document.1;
     sd_data := JSON_parse (doc_data document.1);
     sd_tags := Some (if truthy_string document.2
                      then split_comma (default EmptyString document.2) else []);
     sd_createdAt := doc_created_at document.1;
     sd_updatedAt := doc_updated_at document.1 |}.

(** The select list of the three reading methods, on one group of
    documents left-joined with their tags. *)
Definition select_document_with_tags
    (g : (SearchDocumentRow * option SearchTagRow) *
         list (SearchDocumentRow * option SearchTagRow))
    : SearchDocumentRow * option string :=
  (g.1.1, group_concat (column tag <$> (snd <$> g.2))).

Definition getDocuments (options : GetDocumentsOptions) (db : DatabaseSchema)
    : list SearchDocument :=
  let query :=
    filter (λ j, doc_tenant j.1 = opt_tenant options)
      (leftJoin search_document_id doc_id
         (wt_search_documents db) (wt_search_tags db)) in
  let query :=
    if truthy_string (opt_index options)
    then filter (λ j, Some (doc_index j.1) = opt_index options) query
    else query in
  let records :=
    limit (opt_limit options)
      (orderBy_desc (λ r, doc_updated_at r.1)
         (select_document_with_tags <$> groupBy (λ j, doc_id j.1) query)) in
  _formatDocument <$> records.

(** The select list of [getDocumentsByTags], on one group of tags
    left-joined with their document. A group whose document side is NULL
    has no row to show; the WHERE on the tenant leaves no such group. *)
Definition select_tagged_document
    (g : (SearchTagRow * option SearchDocumentRow) *
         list (SearchTagRow * option SearchDocumentRow))
    : option (SearchDocumentRow * option string) :=
  (λ d, (d, group_concat ((λ j, Some (tag j.1)) <$> g.2))) <$> g.1.2.

Definition getDocumentsByTags (tags : list string)
    (options : GetDocumentsOptions) (db : DatabaseSchema)
    : list SearchDocument :=
  let query :=
    filter (λ j, column doc_tenant j.2 = Some (opt_tenant options))
      (filter (λ j, tag j.1 ∈ tags)
         (leftJoin doc_id search_document_id
            (wt_search_tags db) (wt_search_documents db))) in
  let query :=
    if truthy_string (opt_index options)
    then filter (λ j, column doc_index j.2 = opt_index options) query
    else query in
  let records :=
    limit (opt_limit options)
      (orderBy_desc (λ r, doc_updated_at r.1)
         (omap select_tagged_document
            (filter (λ g, count (column doc_id <$> (snd <$> g.2)) = length tags)
               (groupBy (λ j, column doc_id j.2) query)))) in
  _formatDocument <$> records.

Definition getDocument (id : string) (db : DatabaseSchema)
    : option SearchDocument :=
  let result :=
    head (select_document_with_tags <$>
          groupBy (λ j, doc_id j.1)
            (filter (λ j, doc_id j.1 = id)
               (leftJoin search_document_id doc_id
                  (wt_search_documents db) (wt_search_tags db)))) in
  match result with
  | None => None
  | Some result => Some (_formatDocument result)
  end.

(** The first select of [upsertDocument]: [id] and [created_at] of the row
    with this id, tenant and index. *)
Definition selectExisting (document : UpsertSearchDocumentBody)
    (db : DatabaseSchema) : option (string * Z) :=
  head ((λ r, (doc_id r, doc_created_at r)) <$>
        filter (λ r, doc_id r = body_id document
                     ∧ doc_tenant r = body_tenant document
                     ∧ doc_index r = body_index document)
          (wt_search_documents db)).

Definition selectExistingTags (id : string) (db : DatabaseSchema)
    : list string :=
  tag <$> filter (λ t, search_document_id t = id) (wt_search_tags db).

Definition tagSet (existingTags : list string) : gset string :=
  list_to_set existingTags.

Definition tagsToAdd (tags existingTags : list string) : list string :=
  filter (λ tag, tag ∉ tagSet existingTags) tags.

Definition tagsToRemove (existingTags : list string) : list string :=
  filter (λ existingTag, existingTag ∉ tagSet existingTags) existingTags.

Definition upsertDocument (now : Z) (document : UpsertSearchDocumentBody)
    (tags : list string) : Stmt SearchDocument :=
  (await existing := execute (selectExisting document) in
   await_ (match existing with
           | None =>
               insertInto_documents documents_id_idx
                 {| doc_id := body_id document;
                    doc_tenant := body_tenant document;
                    doc_index := body_index document;
                    doc_data := JSON_stringify (body_data document);
                    doc_created_at := now;
                    doc_updated_at := now |}
           | Some _ =>
               updateTable_documents (λ r, doc_id r = body_id document)
                 (JSON_stringify (body_data document)) now
           end) in
   await_ (if decide (0 < length tags)%nat then
             await existingTags :=
               execute (selectExistingTags (body_id document)) in
             await_ (if decide (0 < length (tagsToAdd tags existingTags))%nat
                     then insertInto_tags tags_unique_idx
                            ((λ tag, {| tag := tag;
                                        search_document_id := body_id document |})
                             <$> tagsToAdd tags existingTags)
                     else stmt_ret ()) in
             if decide (0 < length (tagsToRemove existingTags))%nat
             then deleteFrom_tags
                    (λ r, search_document_id r = body_id document
                          ∧ tag r ∈ tagsToRemove existingTags)
             else stmt_ret ()
           else stmt_ret ()) in
   stmt_ret
     {| sd_id := body_id document;
        sd_tenant := body_tenant document;
        sd_index := body_index document;
        sd_data := body_data document;
        sd_tags := Some tags;
        sd_createdAt := if truthy_number (snd <$> existing)
                        then default now (snd <$> existing) else now;
        sd_updatedAt := now |})%stmt.

Definition deleteDocument (id : string) : Stmt unit :=
  (await_ deleteFrom_documents (λ r, doc_id r = id) in
   deleteFrom_tags (λ r, search_document_id r = id))%stmt.

Definition getTags (db : DatabaseSchema) : list string :=
  distinct (tag <$> wt_search_tags db).

End Sqlite.

(** ** The D1 adapter ([D1StorageAdapter], d1-storage-adapter.ts) *)

Module D1.

Definition documents_id_idx : string := "search_documents_id_idx".
Definition tags_unique_idx : string := "search_tags_unique_idx".

Definition _formatDocument (document : SearchDocumentRow) : SearchDocument :=
  {| sd_id := doc_id document;
     sd_tenant := doc_tenant document;
     sd_index := doc_index document;
     sd_data := JSON_parse (doc_data document);
     sd_tags := None;
     sd_createdAt := doc_created_at document;
     sd_updatedAt := doc_updated_at document |}.

Definition getDocuments (options : GetDocumentsOptions) (db : DatabaseSchema)
    : list SearchDocument :=
  let query :=
    filter (λ r, doc_tenant r = opt_tenant options) (wt_search_documents db) in
  let query :=
    if truthy_string (opt_index options)
    then filter (λ r, Some (doc_index r) = opt_index options) query
    else query in
  let records := limit (opt_limit options) (orderBy_desc doc_updated_at query) in
  _formatDocument <$> records.

Definition getDocumentsByTags (tags : list string)
    (options : GetDocumentsOptions) (db : DatabaseSchema)
    : list SearchDocument :=
  let query :=
    filter (λ j, doc_tenant j.2 = opt_tenant options)
      (filter (λ j, tag j.1 ∈ tags)
         (innerJoin search_document_id doc_id
            (wt_search_tags db) (wt_search_documents db))) in
  let query :=
    if truthy_string (opt_index options)
    then filter (λ j, Some (doc_index j.2) = opt_index options) query
    else query in
  let records :=
    limit (opt_limit options)
      (orderBy_desc doc_updated_at
         ((λ g, g.1.2) <$>
          filter (λ g, length g.2 = length tags)
            (groupBy (λ j, doc_id j.2) query))) in
  _formatDocument <$> records.

Definition getDocument (id : string) (db : DatabaseSchema)
    : option SearchDocument :=
  let result := head (filter (λ r, doc_id r = id) (wt_search_documents db)) in
  match result with
  | None => None
  | Some result => Some (_formatDocument result)
  end.

Definition selectExisting (document : UpsertSearchDocumentBody)
    (db : DatabaseSchema) : option (string * Z) :=
  head ((λ r, (doc_id r, doc_created_at r)) <$>
        filter (λ r, doc_id r = body_id document
                     ∧ doc_tenant r = body_tenant document
                     ∧ doc_index r = body_index document)
          (wt_search_documents db)).

Definition selectExistingTags (id : string) (db : DatabaseSchema)
    : list SearchTagRow :=
  filter (λ t, search_document_id t = id) (wt_search_tags db).

(** [Array.prototype.find]. *)
Definition find {A} (P : A → Prop) `{∀ a, Decision (P a)} (l : list A)
    : option A :=
  head (filter P l).

Definition tagsToAdd (tags : list string) (existingTags : list SearchTagRow)
    : list string :=
  filter (λ t, find (λ existingTag, tag existingTag = t) existingTags = None)
    tags.

Definition tagsToRemove (tags : list string) (existingTags : list SearchTagRow)
    : list SearchTagRow :=
  filter (λ existingTag, find (λ t, t = tag existingTag) tags = None)
    existingTags.

Definition indexDocument (now : Z) (document : UpsertSearchDocumentBody)
    (tags : list string) : Stmt SearchDocument :=
  (await existing := execute (selectExisting document) in
   await_ (match existing with
           | None =>
               insertInto_documents documents_id_idx
                 {| doc_id := body_id document;
                    doc_tenant := body_tenant document;
                    doc_index := body_index document;
                    doc_data := JSON_stringify (body_data document);
                    doc_created_at := now;
                    doc_updated_at := now |}
           | Some _ =>
               updateTable_documents
                 (λ r, doc_id r = body_id document
                       ∧ doc_tenant r = body_tenant document
                       ∧ doc_index r = body_index document)
                 (JSON_stringify (body_data document)) now
           end) in
   await_ (if decide (0 < length tags)%nat then
             await existingTags :=
               execute (selectExistingTags (body_id document)) in
             await_ (if decide (0 < length (tagsToAdd tags existingTags))%nat
                     then insertInto_tags tags_unique_idx
                            ((λ tag, {| tag := tag;
                                        search_document_id := body_id document |})
                             <$> tagsToAdd tags existingTags)
                     else stmt_ret ()) in
             if decide (0 < length (tagsToRemove tags existingTags))%nat
             then deleteFrom_tags
                    (λ r, search_document_id r = body_id document
                          ∧ tag r ∈ tag <$> tagsToRemove tags existingTags)
             else stmt_ret ()
           else stmt_ret ()) in
   stmt_ret
     {| sd_id := body_id document;
        sd_tenant := body_tenant document;
        sd_index := body_index document;
        sd_data := body_data document;
        sd_tags := None;
        sd_createdAt := if truthy_number (snd <$> existing)
                        then default now (snd <$> existing) else now;
        sd_updatedAt := now |})%stmt.

Definition deleteDocument (id : string) : Stmt unit :=
  (await_ deleteFrom_documents (λ r, doc_id r = id) in
   deleteFrom_tags (λ r, search_document_id r = id))%stmt.

Definition getTags (db : DatabaseSchema) : list string :=
  distinct (tag <$> wt_search_tags db).

Definition tagDocument (id tag : string) : Stmt unit :=
  insertInto_tags_doNothing {| tag := tag; search_document_id := id |}.

Definition untagDocument (id tag' : string) : Stmt unit :=
  deleteFrom_tags (λ r, search_document_id r = id ∧ tag r = tag').

End D1.

(** ** What the properties are stated with *)

(** The two unique indexes of the schema, as properties of a database. *)
Definition unique_document_ids (db : DatabaseSchema) : Prop :=
  NoDup (doc_id <$> wt_search_documents db).

Definition unique_tag_rows (db : DatabaseSchema) : Prop :=
  NoDup (wt_search_tags db).

Definition schema_ok (db : DatabaseSchema) : Prop :=
  unique_document_ids db ∧ unique_tag_rows db.

(** Every tag row belongs to a stored document. *)
Definition tags_reference_documents (db : DatabaseSchema) : Prop :=
  ∀ r, r ∈ wt_search_tags db →
    search_document_id r ∈ doc_id <$> wt_search_documents db.

(** The set of tags stored for a document id. *)
Definition storedTags (id : string) (db : DatabaseSchema) : gset string :=
  list_to_set (tag <$> filter (λ t, search_document_id t = id) (wt_search_tags db)).

(** A method call that ended without throwing. *)
Definition resolves {A} (r : Outcome A * DatabaseSchema) : Prop :=
  match r.1 with
  | Resolved _ => True
  | Rejected _ => False
  end.

(** A returned document shows a stored row: all the row's columns, whatever
    its [tags] property. *)
Definition shows (sd : SearchDocument) (d : SearchDocumentRow) : Prop :=
  sd_id sd = doc_id d ∧ sd_tenant sd = doc_tenant d ∧ sd_index sd = doc_index d
  ∧ sd_data sd = JSON_parse (doc_data d)
  ∧ sd_createdAt sd = doc_created_at d ∧ sd_updatedAt sd = doc_updated_at d.

(** A returned document without its [tags] property. *)
Definition without_tags (sd : SearchDocument) : SearchDocument :=
  {| sd_id := sd_id sd; sd_tenant := sd_tenant sd; sd_index := sd_index sd;
     sd_data := sd_data sd; sd_tags := None;
     sd_createdAt := sd_createdAt sd; sd_updatedAt := sd_updatedAt sd |}.

(** The tenant and index filter of the listing methods: the index filter is
    there only for a truthy [options.index]. *)
Definition in_scope (options : GetDocumentsOptions) (d : SearchDocumentRow)
    : Prop :=
  doc_tenant d = opt_tenant options
  ∧ (truthy_string (opt_index options) = true →
     Some (doc_index d) = opt_index options).

#[global] Instance in_scope_dec options d : Decision (in_scope options d).
Proof. unfold in_scope. apply _. Defined.

(** The row an upsert inserts, and the row it turns an existing one into. *)
Definition inserted_row (now : Z) (document : UpsertSearchDocumentBody)
    : SearchDocumentRow :=
  {| doc_id := body_id document; doc_tenant := body_tenant document;
     doc_index := body_index document;
     doc_data := JSON_stringify (body_data document);
     doc_created_at := now; doc_updated_at := now |}.

Definition updated_row (now : Z) (document : UpsertSearchDocumentBody)
    (d : SearchDocumentRow) : SearchDocumentRow :=
  {| doc_id := doc_id d; doc_tenant := doc_tenant d; doc_index := doc_index d;
     doc_data := JSON_stringify (body_data document);
     doc_created_at := doc_created_at d; doc_updated_at := now |}.

(** A sequence of [upsertDocument] calls on the sqlite adapter, each with its
    clock reading; a call that throws leaves the database as it then is. *)
Definition UpsertCall : Type := Z * UpsertSearchDocumentBody * list string.

Definition run_upserts (calls : list UpsertCall) (db : DatabaseSchema)
    : DatabaseSchema :=
  foldl (λ db c, (Sqlite.upsertDocument c.1.1 c.1.2 c.2 db).2) db calls.

(** Ids in ascending order among equal [updatedAt]. *)
Definition tie_break_by_id (l : list SearchDocument) : Prop :=
  ∀ i j a b, l !! i = Some a → l !! j = Some b → (i < j)%nat →
    sd_updatedAt a = sd_updatedAt b → String.ltb (sd_id b) (sd_id a) = false.

(** Descending [updatedAt]. *)
Definition recency_ordered (l : list SearchDocument) : Prop :=
  StronglySorted (λ a b, (sd_updatedAt b ≤ sd_updatedAt a)%Z) l.

(** A stored document a search for [tags] is to return: it lies within the
    tenant and index of the options and every tag of the list is stored for
    it, the list being non-empty and repeating no tag (the search compares
    the number of matching tag rows with the length of the list). *)
Definition carries (tags : list string) (options : GetDocumentsOptions)
    (db : DatabaseSchema) (d : SearchDocumentRow) : Prop :=
  in_scope options d ∧ tags ≠ [] ∧ NoDup tags
  ∧ list_to_set tags ⊆ storedTags (doc_id d) db.

#[global] Instance carries_dec tags options db d :
  Decision (carries tags options db d).
Proof. unfold carries. apply _. Defined.

(** What [ORDER BY updated_at DESC LIMIT n] keeps of [rows], whichever way
    the engine takes rows of equal [updated_at]: [n] of the rows, or all of
    them when there are fewer, each once, in descending [updated_at], and no
    row left out is more recent than a row kept. *)
Definition most_recent (n : nat) (rows picked : list SearchDocumentRow) : Prop :=
  NoDup picked
  ∧ picked ⊆ rows
  ∧ length picked = (n `min` length rows)%nat
  ∧ StronglySorted (λ a b, (doc_updated_at b ≤ doc_updated_at a)%Z) picked
  ∧ ∀ d r, d ∈ rows → d ∉ picked → r ∈ picked →
           (doc_updated_at d ≤ doc_updated_at r)%Z.

(** The rows a multi-row tag insert sends for a document. *)
Definition tag_rows_for (id : string) (tags : list string) : list SearchTagRow :=
  (λ t, {| tag := t; search_document_id := id |}) <$> tags.

(** The documents table an upsert leaves behind, [None] when its insert is
    refused; [cond] is the WHERE of its update. *)
Definition documents_after (cond : SearchDocumentRow → Prop)
    `{∀ r, Decision (cond r)} (now : Z) (document : UpsertSearchDocumentBody)
    (docs : list SearchDocumentRow) : option (list SearchDocumentRow) :=
  match head (filter (λ r, doc_id r = body_id document
                           ∧ doc_tenant r = body_tenant document
                           ∧ doc_index r = body_index document) docs) with
  | None => if decide (body_id document ∈ doc_id <$> docs) then None
            else Some (docs ++ [inserted_row now document])
  | Some _ => Some ((λ r, if decide (cond r) then updated_row now document r
                          else r) <$> docs)
  end.

(** The tags table the tag block of [upsertDocument] (sqlite) leaves behind,
    [None] when its insert is refused. *)
Definition sqlite_tags_after (id : string) (tags : list string)
    (table : list SearchTagRow) : option (list SearchTagRow) :=
  if decide (0 < length tags)%nat then
    let existingTags := tag <$> filter (λ t, search_document_id t = id) table in
    if decide (0 < length (Sqlite.tagsToAdd tags existingTags))%nat
    then insert_tag_rows (tag_rows_for id (Sqlite.tagsToAdd tags existingTags)) table
    else Some table
  else Some table.

(** The same for the tag block of [indexDocument] (D1). *)
Definition d1_tags_after (id : string) (tags : list string)
    (table : list SearchTagRow) : option (list SearchTagRow) :=
  if decide (0 < length tags)%nat then
    let existingTags := filter (λ t, search_document_id t = id) table in
    let removed (table : list SearchTagRow) :=
      if decide (0 < length (D1.tagsToRemove tags existingTags))%nat
      then filter (λ r, ¬ (search_document_id r = id
                           ∧ tag r ∈ tag <$> D1.tagsToRemove tags existingTags))
             table
      else table in
    if decide (0 < length (D1.tagsToAdd tags existingTags))%nat
    then removed <$> insert_tag_rows (tag_rows_for id (D1.tagsToAdd tags existingTags)) table
    else Some (removed table)
  else Some table.

(** The document an upsert returns, but for its [tags] property. *)
Definition returned_document (now : Z) (document : UpsertSearchDocumentBody)
    (existing : option (string * Z)) (tags : option (list string))
    : SearchDocument :=
  {| sd_id := body_id document; sd_tenant := body_tenant document;
     sd_index := body_index document; sd_data := body_data document;
     sd_tags := tags;
     sd_createdAt := if truthy_number (snd <$> existing)
                     then default now (snd <$> existing) else now;
     sd_updatedAt := now |}.

(** A row of an inner join, as the left join gives it. *)
Definition with_right {A B} (j : A * B) : A * option B := (j.1, Some j.2).

(** Two outcomes of an upsert that agree but for the [tags] property of
    the returned document and the name of the index that refused a row. *)
Definition outcome_agrees (s i : Outcome SearchDocument) : Prop :=
  match s, i with
  | Resolved a, Resolved b => without_tags a = b
  | Rejected _, Rejected _ => True
  | _, _ => False
  end.

(** ** Sample data *)

(** One tenant-[t1] document with two tags. *)
Definition sample_row : SearchDocumentRow :=
  {| doc_id := "d1"; doc_tenant := "t1"; doc_index := "docs";
     doc_data := "{}"; doc_created_at := 1; doc_updated_at := 1 |}.

Definition sample_db : DatabaseSchema :=
  {| wt_search_documents := [sample_row];
     wt_search_tags := [ {| tag := "x"; search_document_id := "d1" |};
                         {| tag := "y"; search_document_id := "d1" |} ] |}.

(** An upsert of that document, and one that reuses its id under another
    tenant. *)
Definition sample_body : UpsertSearchDocumentBody :=
  {| body_id := "d1"; body_tenant := "t1"; body_index := "docs";
     body_data := "{1}" |}.

Definition other_tenant_body : UpsertSearchDocumentBody :=
  {| body_id := "d1"; body_tenant := "t2"; body_index := "docs";
     body_data := "{1}" |}.

Definition fresh_body : UpsertSearchDocumentBody :=
  {| body_id := "d2"; body_tenant := "t1"; body_index := "docs";
     body_data := "{2}" |}.

Definition list_t1 : GetDocumentsOptions :=
  {| opt_tenant := "t1"; opt_index := None; opt_limit := None |}.

(** The same listing with [limit: 10]. *)
Definition first_ten_t1 : GetDocumentsOptions :=
  {| opt_tenant := "t1"; opt_index := None; opt_limit := Some 10%nat |}.

(** Two documents written at the same millisecond, [b] stored before [a]. *)
Definition tie_db : DatabaseSchema :=
  {| wt_search_documents :=
       [ {| doc_id := "b"; doc_tenant := "t1"; doc_index := "docs";
            doc_data := "{}"; doc_created_at := 1; doc_updated_at := 1 |};
         {| doc_id := "a"; doc_tenant := "t1"; doc_index := "docs";
            doc_data := "{}"; doc_created_at := 1; doc_updated_at := 1 |} ];
     wt_search_tags := [] |}.

Definition empty_db : DatabaseSchema :=
  {| wt_search_documents := []; wt_search_tags := [] |}.

(** What [tagDocument("ghost", "x")] leaves on an empty D1 database. *)
Definition orphan_db : DatabaseSchema := (D1.tagDocument "ghost" "x" empty_db).2.

(** ** Tags as text *)

(** A string without a comma. *)
Fixpoint comma_free (s : string) : Prop :=
  match s with
  | EmptyString => True
  | String c s' => c ≠ ","%char ∧ comma_free s'
  end.

(** A tag that survives [group_concat] and [split]: not empty and without a
    comma. *)
Definition plain_tag (t : string) : Prop := t ≠ EmptyString ∧ comma_free t.

(** The tags stored for a document id, in stored order. *)
Definition storedTagList (id : string) (db : DatabaseSchema) : list string :=
  tag <$> filter (λ t, search_document_id t = id) (wt_search_tags db).

(** What [group_concat(wt_search_tags.tag, ',')] gives for the group of a
    document left-joined with its tags. *)
Definition joined_tags (id : string) (db : DatabaseSchema) : option string :=
  match storedTagList id db with
  | [] => None
  | ts => Some (String.concat "," ts)
  end.

(** * Proofs *)

(** ** Statements and tables *)

Ltac stmt_unfold :=
  unfold stmt_bind, stmt_ret, execute, insertInto_documents, insertInto_tags,
    updateTable_documents, deleteFrom_documents, deleteFrom_tags,
    insertInto_tags_doNothing in *.

Ltac stmt_step :=
  first
    [ case_decide
    | match goal with
      | |- context [match insert_tag_rows ?r ?t with _ => _ end] =>
          let E := fresh "Hins" in destruct (insert_tag_rows r t) eqn:E
      end ];
  simpl.

Lemma insert_tag_rows_Some rows table table' :
  insert_tag_rows rows table = Some table' → table' = table ++ rows.
Proof.
  revert table. induction rows as [|r rows IH]; intros table; simpl.
  - intros [= <-]. by rewrite app_nil_r.
  - case_decide; [done|]. intros Hr. apply IH in Hr. by rewrite <- app_assoc in Hr.
Qed.

Lemma insert_tag_rows_NoDup rows table table' :
  NoDup table → insert_tag_rows rows table = Some table' → NoDup table'.
Proof.
  revert table. induction rows as [|r rows IH]; intros table Hnd; simpl.
  - by intros [= <-].
  - case_decide; [done|]. apply IH. apply NoDup_app. split_and!; [done| |apply NoDup_singleton].
    intros x Hx ->%list_elem_of_singleton. done.
Qed.

Lemma filter_none {A} (P : A → Prop) `{∀ x, Decision (P x)} (l : list A) :
  (∀ x, x ∈ l → ¬ P x) → filter P l = [].
Proof.
  induction l as [|x l IH]; intros Hl; [done|].
  rewrite filter_cons. rewrite decide_False by (apply Hl; left).
  apply IH. intros y Hy. apply Hl. by right.
Qed.

Lemma filter_all {A} (P : A → Prop) `{∀ x, Decision (P x)} (l : list A) :
  (∀ x, x ∈ l → P x) → filter P l = l.
Proof.
  induction l as [|x l IH]; intros Hl; [done|].
  rewrite filter_cons. rewrite decide_True by (apply Hl; left).
  f_equal. apply IH. intros y Hy. apply Hl. by right.
Qed.

Lemma filter_nil_elim {A} (P : A → Prop) `{∀ x, Decision (P x)} (l : list A) x :
  filter P l = [] → x ∈ l → P x → False.
Proof. intros Hnil Hx HP. by eapply (filter_nil_not_elem_of P l x). Qed.

Lemma sqlite_tagsToRemove_nil existingTags :
  Sqlite.tagsToRemove existingTags = [].
Proof.
  unfold Sqlite.tagsToRemove, Sqlite.tagSet. apply filter_none.
  intros t Ht Hnot. apply Hnot. by apply elem_of_list_to_set.
Qed.

(** The sqlite upsert, statement by statement, as one case analysis. *)
Lemma sqlite_upsert_normal_form now document tags db :
  Sqlite.upsertDocument now document tags db =
  match documents_after (λ r, doc_id r = body_id document) now document
          (wt_search_documents db) with
  | None => (Rejected (UniqueConstraintFailed Sqlite.documents_id_idx), db)
  | Some docs' =>
      match sqlite_tags_after (body_id document) tags (wt_search_tags db) with
      | None => (Rejected (UniqueConstraintFailed Sqlite.tags_unique_idx),
                 {| wt_search_documents := docs';
                    wt_search_tags := wt_search_tags db |})
      | Some table =>
          (Resolved (returned_document now document
                       (Sqlite.selectExisting document db) (Some tags)),
           {| wt_search_documents := docs'; wt_search_tags := table |})
      end
  end.
Proof.
  unfold Sqlite.upsertDocument, documents_after, sqlite_tags_after,
    returned_document, Sqlite.selectExisting, Sqlite.selectExistingTags,
    tag_rows_for.
  stmt_unfold. simpl.
  destruct (filter _ (wt_search_documents db)) as [|e es]; simpl.
  all: repeat stmt_step; try reflexivity.
  all: try (exfalso; rewrite sqlite_tagsToRemove_nil in *; simpl in *; lia).
Qed.

Lemma d1_index_normal_form now document tags db :
  D1.indexDocument now document tags db =
  match documents_after (λ r, doc_id r = body_id document
                              ∧ doc_tenant r = body_tenant document
                              ∧ doc_index r = body_index document)
          now document (wt_search_documents db) with
  | None => (Rejected (UniqueConstraintFailed D1.documents_id_idx), db)
  | Some docs' =>
      match d1_tags_after (body_id document) tags (wt_search_tags db) with
      | None => (Rejected (UniqueConstraintFailed D1.tags_unique_idx),
                 {| wt_search_documents := docs';
                    wt_search_tags := wt_search_tags db |})
      | Some table =>
          (Resolved (returned_document now document
                       (D1.selectExisting document db) None),
           {| wt_search_documents := docs'; wt_search_tags := table |})
      end
  end.
Proof.
  unfold D1.indexDocument, documents_after, d1_tags_after,
    returned_document, D1.selectExisting, D1.selectExistingTags,
    tag_rows_for.
  stmt_unfold. simpl.
  destruct (filter _ (wt_search_documents db)) as [|e es]; simpl.
  all: repeat stmt_step; try reflexivity.
Qed.

(** *** The tag block *)

Lemma sqlite_tags_after_eq id tags table :
  sqlite_tags_after id tags table =
  if decide (0 < length tags)%nat
  then insert_tag_rows
         (tag_rows_for id
            (Sqlite.tagsToAdd tags
               (tag <$> filter (λ t, search_document_id t = id) table))) table
  else Some table.
Proof.
  unfold sqlite_tags_after. repeat case_decide; try done.
  destruct (Sqlite.tagsToAdd _ _); simpl in *; [done|lia].
Qed.

Lemma remove_if_any id (rem t : list SearchTagRow) :
  (if decide (0 < length rem)%nat
   then filter (λ r, ¬ (search_document_id r = id ∧ tag r ∈ tag <$> rem)) t
   else t)
  = filter (λ r, ¬ (search_document_id r = id ∧ tag r ∈ tag <$> rem)) t.
Proof.
  case_decide as Hr; [done|].
  destruct rem; simpl in *; [|lia].
  symmetry. apply filter_all. intros x _ [_ Hx]. by apply elem_of_nil in Hx.
Qed.

Lemma d1_tags_after_eq id tags table :
  d1_tags_after id tags table =
  if decide (0 < length tags)%nat
  then let existingTags := filter (λ t, search_document_id t = id) table in
       filter (λ r, ¬ (search_document_id r = id
                       ∧ tag r ∈ tag <$> D1.tagsToRemove tags existingTags))
       <$> insert_tag_rows (tag_rows_for id (D1.tagsToAdd tags existingTags)) table
  else Some table.
Proof.
  unfold d1_tags_after. simpl.
  destruct (decide (0 < length tags)%nat) as [Hlen|Hlen]; [|done].
  destruct (decide (0 < length (D1.tagsToAdd tags
              (filter (λ t, search_document_id t = id) table)))%nat)
    as [Hadd|Hadd].
  - destruct (insert_tag_rows _ _); simpl; [|done]. by rewrite remove_if_any.
  - destruct (D1.tagsToAdd _ _); simpl in *; [|lia]. by rewrite remove_if_any.
Qed.

Lemma find_None {A} (P : A → Prop) `{∀ a, Decision (P a)} (l : list A) :
  D1.find P l = None ↔ ∀ x, x ∈ l → ¬ P x.
Proof.
  unfold D1.find. rewrite head_None. split.
  - intros Hnil x Hx HP. by eapply (filter_nil_elim P l x).
  - apply filter_none.
Qed.

Lemma elem_of_d1_tagsToAdd t tags existingTags :
  t ∈ D1.tagsToAdd tags existingTags ↔ t ∈ tags ∧ t ∉ tag <$> existingTags.
Proof.
  unfold D1.tagsToAdd. rewrite list_elem_of_filter, find_None.
  rewrite list_elem_of_fmap. split.
  - intros [Hnone Ht]. split; [done|].
    intros (r & -> & Hr). by apply (Hnone r).
  - intros [Ht Hnot]. split; [|done].
    intros r Hr Heq. apply Hnot. by exists r.
Qed.

Lemma elem_of_d1_tagsToRemove r tags existingTags :
  r ∈ D1.tagsToRemove tags existingTags ↔ r ∈ existingTags ∧ tag r ∉ tags.
Proof.
  unfold D1.tagsToRemove. rewrite list_elem_of_filter, find_None. split.
  - intros [Hnone Hr]. split; [done|]. intros Ht. by apply (Hnone (tag r)).
  - intros [Hr Hnot]. split; [|done]. by intros t Ht ->.
Qed.

Lemma elem_of_sqlite_tagsToAdd t tags existingTags :
  t ∈ Sqlite.tagsToAdd tags existingTags ↔ t ∈ tags ∧ t ∉ existingTags.
Proof.
  unfold Sqlite.tagsToAdd, Sqlite.tagSet.
  rewrite list_elem_of_filter, elem_of_list_to_set. tauto.
Qed.

(** Both adapters compute the same tags to add. *)
Lemma tagsToAdd_agree tags (existingTags : list SearchTagRow) :
  Sqlite.tagsToAdd tags (tag <$> existingTags) = D1.tagsToAdd tags existingTags.
Proof.
  unfold Sqlite.tagsToAdd, D1.tagsToAdd, Sqlite.tagSet.
  apply list_filter_iff. intros t.
  rewrite elem_of_list_to_set, find_None, list_elem_of_fmap. split.
  - intros Hnot r Hr Heq. apply Hnot. by exists r.
  - intros Hnone (r & -> & Hr). by apply (Hnone r).
Qed.

Lemma elem_of_storedTags t id db :
  t ∈ storedTags id db ↔
  {| tag := t; search_document_id := id |} ∈ wt_search_tags db.
Proof.
  unfold storedTags. rewrite elem_of_list_to_set, list_elem_of_fmap. split.
  - intros ([t' i'] & -> & [Hi Hr]%list_elem_of_filter). simpl in *. by subst.
  - intros Hr. exists {| tag := t; search_document_id := id |}.
    split; [done|]. by apply list_elem_of_filter.
Qed.

Lemma elem_of_tag_rows_for r id tags :
  r ∈ tag_rows_for id tags ↔ search_document_id r = id ∧ tag r ∈ tags.
Proof.
  unfold tag_rows_for. rewrite list_elem_of_fmap. split.
  - by intros (t & -> & Ht).
  - intros [<- Ht]. exists (tag r). by destruct r.
Qed.

Lemma sqlite_tags_after_grows id tags table table' :
  sqlite_tags_after id tags table = Some table' → table ⊆ table'.
Proof.
  rewrite sqlite_tags_after_eq. case_decide.
  - intros ->%insert_tag_rows_Some. by apply list_subseteq_app_l.
  - by intros [= <-].
Qed.

Lemma sqlite_upsert_keeps_tags now document tags db :
  wt_search_tags db ⊆ wt_search_tags (Sqlite.upsertDocument now document tags db).2.
Proof.
  rewrite sqlite_upsert_normal_form.
  destruct (documents_after _ _ _ _); [|done].
  destruct (sqlite_tags_after _ _ _) eqn:E; [|done].
  simpl. by eapply sqlite_tags_after_grows.
Qed.

Lemma run_upserts_keeps_tags calls db :
  wt_search_tags db ⊆ wt_search_tags (run_upserts calls db).
Proof.
  unfold run_upserts. revert db.
  induction calls as [|c calls IH]; intros db; simpl; [done|].
  etrans; [|apply IH]. apply sqlite_upsert_keeps_tags.
Qed.

Lemma elem_of_existing_tags t id (table : list SearchTagRow) :
  t ∈ tag <$> filter (λ r, search_document_id r = id) table ↔
  {| tag := t; search_document_id := id |} ∈ table.
Proof.
  rewrite list_elem_of_fmap. split.
  - intros ([t' i'] & -> & [Hi Hr]%list_elem_of_filter). simpl in *. by subst.
  - intros Hr. exists {| tag := t; search_document_id := id |}.
    split; [done|]. by apply list_elem_of_filter.
Qed.

Lemma d1_tags_after_exact id tags table table' t :
  tags ≠ [] → d1_tags_after id tags table = Some table' →
  {| tag := t; search_document_id := id |} ∈ table' ↔ t ∈ tags.
Proof.
  intros Hne. rewrite d1_tags_after_eq.
  rewrite decide_True by (destruct tags; simpl; [done|lia]). simpl.
  destruct (insert_tag_rows _ _) as [table1|] eqn:Hins; [|done].
  apply insert_tag_rows_Some in Hins as ->. intros [= <-].
  rewrite list_elem_of_filter, elem_of_app, elem_of_tag_rows_for. simpl.
  rewrite elem_of_d1_tagsToAdd, elem_of_existing_tags.
  split.
  - intros [Hkeep [Hin|[_ [Ht _]]]]; [|done].
    destruct (decide (t ∈ tags)) as [|Hnot]; [done|].
    exfalso. apply Hkeep. split; [done|].
    apply list_elem_of_fmap. exists {| tag := t; search_document_id := id |}.
    split; [done|]. apply elem_of_d1_tagsToRemove. split; [|done].
    by apply list_elem_of_filter.
  - intros Ht. split.
    + intros [_ (r & Hr & [_ Hrem]%elem_of_d1_tagsToRemove)%list_elem_of_fmap].
      by rewrite <- Hr in Hrem.
    + destruct (decide ({| tag := t; search_document_id := id |} ∈ table));
        [by left|by right].
Qed.

Lemma sqlite_tags_after_covers id tags table table' t :
  sqlite_tags_after id tags table = Some table' → t ∈ tags →
  {| tag := t; search_document_id := id |} ∈ table'.
Proof.
  rewrite sqlite_tags_after_eq. intros Hafter Ht.
  rewrite decide_True in Hafter
    by (destruct tags; simpl; [by apply elem_of_nil in Ht|lia]).
  apply insert_tag_rows_Some in Hafter as ->.
  rewrite elem_of_app, elem_of_tag_rows_for. simpl.
  rewrite elem_of_sqlite_tagsToAdd, elem_of_existing_tags.
  destruct (decide ({| tag := t; search_document_id := id |} ∈ table));
    [by left|by right].
Qed.

Lemma sqlite_tags_after_within id tags table table' r :
  sqlite_tags_after id tags table = Some table' → r ∈ table' →
  r ∈ table ∨ (search_document_id r = id ∧ tag r ∈ tags).
Proof.
  rewrite sqlite_tags_after_eq. case_decide.
  - intros ->%insert_tag_rows_Some.
    rewrite elem_of_app, elem_of_tag_rows_for, elem_of_sqlite_tagsToAdd.
    tauto.
  - intros [= <-]. by left.
Qed.

Lemma tags_after_nil_sqlite id table : sqlite_tags_after id [] table = Some table.
Proof. done. Qed.

Lemma tags_after_nil_d1 id table : d1_tags_after id [] table = Some table.
Proof. done. Qed.

(** C10: in the sqlite adapter the removal set of [upsertDocument] is empty
    whatever the existing tags are, so no call deletes a tag row: over any
    sequence of [upsertDocument] calls every tag row stays, and the stored tag
    set of every document only grows. *)
Theorem sqlite_upsert_never_removes_tags :
  (∀ existingTags, Sqlite.tagsToRemove existingTags = [])
  ∧ (∀ calls db, wt_search_tags db ⊆ wt_search_tags (run_upserts calls db))
  ∧ (∀ calls db id, storedTags id db ⊆ storedTags id (run_upserts calls db)).
Proof.
  split_and!.
  - apply sqlite_tagsToRemove_nil.
  - apply run_upserts_keeps_tags.
  - intros calls db id t. rewrite !elem_of_storedTags.
    apply run_upserts_keeps_tags.
Qed.

(** C1, as amended: with an empty tag list both adapters leave the tag rows
    as they are; with a non-empty list, a completed [indexDocument] (D1)
    leaves exactly the supplied tags stored for the document, and a completed
    [upsertDocument] (sqlite) leaves every supplied tag stored, and exactly
    the supplied tags when no other tag was stored before. *)
Theorem upsert_stores_supplied_tags now document tags db :
  let s := Sqlite.upsertDocument now document tags db in
  let d := D1.indexDocument now document tags db in
  (tags = [] → wt_search_tags s.2 = wt_search_tags db
               ∧ wt_search_tags d.2 = wt_search_tags db)
  ∧ (tags ≠ [] → resolves d →
     storedTags (body_id document) d.2 = list_to_set tags)
  ∧ (resolves s → list_to_set tags ⊆ storedTags (body_id document) s.2)
  ∧ (tags ≠ [] → resolves s →
     storedTags (body_id document) db ⊆ list_to_set tags →
     storedTags (body_id document) s.2 = list_to_set tags).
Proof.
  simpl. rewrite sqlite_upsert_normal_form, d1_index_normal_form.
  split_and!.
  - intros ->. rewrite tags_after_nil_sqlite, tags_after_nil_d1.
    by repeat destruct (documents_after _ _ _ _).
  - intros Hne. unfold resolves.
    destruct (documents_after _ _ _ _); [|done].
    destruct (d1_tags_after _ _ _) as [table'|] eqn:Hafter; [|done].
    intros _. apply set_eq. intros t.
    rewrite elem_of_storedTags, elem_of_list_to_set. simpl.
    by eapply d1_tags_after_exact.
  - unfold resolves.
    destruct (documents_after _ _ _ _); [|done].
    destruct (sqlite_tags_after _ _ _) as [table'|] eqn:Hafter; [|done].
    intros _ t. rewrite elem_of_storedTags, elem_of_list_to_set. simpl.
    by eapply sqlite_tags_after_covers.
  - intros Hne. unfold resolves.
    destruct (documents_after _ _ _ _); [|done].
    destruct (sqlite_tags_after _ _ _) as [table'|] eqn:Hafter; [|done].
    intros _ Hsub. apply set_eq. intros t.
    rewrite elem_of_storedTags, elem_of_list_to_set. simpl. split.
    + intros [Hold|[_ Hnew]]%(sqlite_tags_after_within _ _ _ _ _ Hafter);
        [|done].
      apply (proj1 (elem_of_list_to_set (C:=gset string) t tags)).
      apply Hsub. by apply elem_of_storedTags.
    + by eapply sqlite_tags_after_covers.
Qed.

(** *** The document row *)

Lemma unique_id_inj (docs : list SearchDocumentRow) r d :
  NoDup (doc_id <$> docs) → r ∈ docs → d ∈ docs → doc_id r = doc_id d → r = d.
Proof.
  induction docs as [|x docs IH]; [by intros _ ?%elem_of_nil|].
  rewrite fmap_cons, NoDup_cons.
  intros [Hx Hnd] [->|Hr]%elem_of_cons [->|Hd]%elem_of_cons Heq; try done.
  - exfalso. apply Hx. rewrite Heq. by apply list_elem_of_fmap_2.
  - exfalso. apply Hx. rewrite <- Heq. by apply list_elem_of_fmap_2.
  - by apply IH.
Qed.

Lemma fmap_ext_elem_of {A B} (f g : A → B) (l : list A) :
  (∀ x, x ∈ l → f x = g x) → f <$> l = g <$> l.
Proof.
  induction l as [|x l IH]; intros Hl; [done|].
  rewrite !fmap_cons. f_equal; [apply Hl; by left|].
  apply IH. intros y Hy. apply Hl. by right.
Qed.

Lemma documents_after_clash cond `{∀ r, Decision (cond r)} now document docs d :
  NoDup (doc_id <$> docs) → d ∈ docs → doc_id d = body_id document →
  doc_tenant d ≠ body_tenant document ∨ doc_index d ≠ body_index document →
  filter (λ r, doc_id r = body_id document ∧ doc_tenant r = body_tenant document
               ∧ doc_index r = body_index document) docs = []
  ∧ documents_after cond now document docs = None.
Proof.
  intros Hnd Hd Hid Hother.
  assert (Hnone : filter (λ r, doc_id r = body_id document
                    ∧ doc_tenant r = body_tenant document
                    ∧ doc_index r = body_index document) docs = []).
  { apply filter_none. intros r Hr (Hrid & Hten & Hidx).
    assert (r = d) as -> by (eapply unique_id_inj; eauto; congruence).
    by destruct Hother. }
  split; [done|]. unfold documents_after. rewrite Hnone. simpl.
  rewrite decide_True; [done|]. rewrite <- Hid. by apply list_elem_of_fmap_2.
Qed.

Lemma documents_after_fresh cond `{∀ r, Decision (cond r)} now document docs :
  body_id document ∉ doc_id <$> docs →
  documents_after cond now document docs = Some (docs ++ [inserted_row now document]).
Proof.
  intros Hfresh. unfold documents_after.
  rewrite filter_none.
  - simpl. by rewrite decide_False.
  - intros r Hr (Hid & _). apply Hfresh. rewrite <- Hid.
    by apply list_elem_of_fmap_2.
Qed.

Lemma documents_after_existing cond `{∀ r, Decision (cond r)} now document docs d :
  d ∈ docs → doc_id d = body_id document → doc_tenant d = body_tenant document →
  doc_index d = body_index document →
  (∀ r, r ∈ docs → cond r ↔ r = d) →
  documents_after cond now document docs =
  Some ((λ r, if decide (r = d) then updated_row now document d else r) <$> docs).
Proof.
  intros Hd Hid Hten Hidx Hcond. unfold documents_after.
  destruct (filter _ docs) as [|e es] eqn:Hfilter.
  - exfalso. by eapply (filter_nil_elim _ docs d Hfilter).
  - simpl. f_equal. apply fmap_ext_elem_of. intros r Hr.
    destruct (decide (r = d)) as [->|Hne].
    + by rewrite decide_True by (by apply Hcond).
    + by rewrite decide_False by (by rewrite Hcond).
Qed.

Lemma sqlite_upsert_documents now document tags db :
  wt_search_documents (Sqlite.upsertDocument now document tags db).2 =
  default (wt_search_documents db)
    (documents_after (λ r, doc_id r = body_id document) now document
       (wt_search_documents db)).
Proof.
  rewrite sqlite_upsert_normal_form.
  destruct (documents_after _ _ _ _); [|done].
  by destruct (sqlite_tags_after _ _ _).
Qed.

Lemma d1_index_documents now document tags db :
  wt_search_documents (D1.indexDocument now document tags db).2 =
  default (wt_search_documents db)
    (documents_after (λ r, doc_id r = body_id document
                           ∧ doc_tenant r = body_tenant document
                           ∧ doc_index r = body_index document) now document
       (wt_search_documents db)).
Proof.
  rewrite d1_index_normal_form.
  destruct (documents_after _ _ _ _); [|done].
  by destruct (d1_tags_after _ _ _).
Qed.

Lemma selectExisting_None document db :
  Sqlite.selectExisting document db = None ↔
  filter (λ r, doc_id r = body_id document ∧ doc_tenant r = body_tenant document
               ∧ doc_index r = body_index document) (wt_search_documents db) = [].
Proof.
  unfold Sqlite.selectExisting. rewrite head_None. split.
  - by intros ?%fmap_nil_inv.
  - by intros ->.
Qed.

(** C5: where a document with the id is stored under another tenant or
    another index, the existence check of an upsert (on id, tenant and index
    together) finds no row, and the insert it then attempts is refused by the
    unique index on [id]: the call throws and the database is as before. *)
Theorem upsert_reused_id_is_refused now document tags db d :
  unique_document_ids db →
  d ∈ wt_search_documents db →
  doc_id d = body_id document →
  doc_tenant d ≠ body_tenant document ∨ doc_index d ≠ body_index document →
  Sqlite.selectExisting document db = None
  ∧ Sqlite.upsertDocument now document tags db =
      (Rejected (UniqueConstraintFailed "wt_search_documents_id_idx"), db)
  ∧ D1.selectExisting document db = None
  ∧ D1.indexDocument now document tags db =
      (Rejected (UniqueConstraintFailed "search_documents_id_idx"), db).
Proof.
  intros Hnd Hd Hid Hother.
  rewrite sqlite_upsert_normal_form, d1_index_normal_form.
  destruct (documents_after_clash (λ r, doc_id r = body_id document)
              now document _ d Hnd Hd Hid Hother) as [Hnone ->].
  destruct (documents_after_clash
              (λ r, doc_id r = body_id document
                    ∧ doc_tenant r = body_tenant document
                    ∧ doc_index r = body_index document)
              now document _ d Hnd Hd Hid Hother) as [_ ->].
  split_and!; try done; by apply selectExisting_None.
Qed.

(** C4, as amended: an upsert whose id is stored nowhere appends one row with
    [created_at = updated_at = now]; an upsert whose (id, tenant, index) is
    stored rewrites that one row, setting [data] and [updated_at = now] and
    keeping [id], [tenant], [index] and [created_at], and leaves every other
    row as it was. Both hold whether or not the tag block then throws. *)
Theorem upsert_writes_document_row now document tags db :
  unique_document_ids db →
  let s := Sqlite.upsertDocument now document tags db in
  let i := D1.indexDocument now document tags db in
  (body_id document ∉ doc_id <$> wt_search_documents db →
   wt_search_documents s.2 = wt_search_documents db ++ [inserted_row now document]
   ∧ wt_search_documents i.2 = wt_search_documents db ++ [inserted_row now document])
  ∧ (∀ d, d ∈ wt_search_documents db → doc_id d = body_id document →
       doc_tenant d = body_tenant document → doc_index d = body_index document →
     let rewrite_d r := if decide (r = d) then updated_row now document d else r in
     wt_search_documents s.2 = rewrite_d <$> wt_search_documents db
     ∧ wt_search_documents i.2 = rewrite_d <$> wt_search_documents db).
Proof.
  intros Hnd. simpl. rewrite sqlite_upsert_documents, d1_index_documents.
  split.
  - intros Hfresh. by rewrite !documents_after_fresh.
  - intros d Hd Hid Hten Hidx.
    rewrite !(documents_after_existing _ now document _ d); try done.
    + intros r Hr. split; [|by intros ->].
      intros (Hrid & _). eapply unique_id_inj; eauto. congruence.
    + intros r Hr. split; [|by intros ->].
      intros Hrid. eapply unique_id_inj; eauto. congruence.
Qed.

(** *** Joins, groups, order and limit *)

Section RelationalFacts.
Context {A B K : Type} `{EqDecision K}.
Implicit Types (kl : A → K) (kr : B → K).

Lemma elem_of_leftJoin kr kl (l : list A) (r : list B) a ob :
  (a, ob) ∈ leftJoin kr kl l r ↔
  a ∈ l ∧ match ob with
          | Some b => b ∈ r ∧ kr b = kl a
          | None => ∀ b, b ∈ r → kr b ≠ kl a
          end.
Proof.
  unfold leftJoin. rewrite list_elem_of_bind. split.
  - intros (a' & Hrow & Ha').
    destruct (filter (λ b, kr b = kl a') r) as [|b0 bs] eqn:Hf.
    + apply list_elem_of_singleton in Hrow as [= -> ->]. split; [done|].
      intros b Hb Hk. by eapply (filter_nil_elim _ r b Hf).
    + apply list_elem_of_fmap in Hrow as (b & [= -> ->] & Hb).
      split; [done|]. rewrite <- Hf in Hb.
      by apply list_elem_of_filter in Hb as [? ?].
  - intros [Ha Hob]. exists a. split; [|done].
    destruct ob as [b|].
    + destruct Hob as [Hb Hk].
      assert (Hin : b ∈ filter (λ b, kr b = kl a) r)
        by by apply list_elem_of_filter.
      destruct (filter (λ b, kr b = kl a) r) as [|b0 bs] eqn:Hf;
        [by apply elem_of_nil in Hin|].
      apply list_elem_of_fmap. by exists b.
    + rewrite filter_none; [by apply list_elem_of_singleton|].
      intros b Hb Hk. by eapply Hob.
Qed.

Lemma leftJoin_left kr kl (l : list A) (r : list B) a :
  a ∈ l → ∃ ob, (a, ob) ∈ leftJoin kr kl l r.
Proof.
  intros Ha. destruct (filter (λ b, kr b = kl a) r) as [|b bs] eqn:Hf.
  - exists None. apply elem_of_leftJoin. split; [done|].
    intros b Hb Hk. by eapply (filter_nil_elim _ r b Hf).
  - exists (Some b). apply elem_of_leftJoin. split; [done|].
    assert (Hb : b ∈ filter (λ b, kr b = kl a) r) by (rewrite Hf; by left).
    by apply list_elem_of_filter in Hb as [? ?].
Qed.

Lemma elem_of_innerJoin kl kr (l : list A) (r : list B) a b :
  (a, b) ∈ innerJoin kl kr l r ↔ a ∈ l ∧ b ∈ r ∧ kl a = kr b.
Proof.
  unfold innerJoin. rewrite list_elem_of_bind. split.
  - intros (a' & (b' & [= -> ->] & [? ?]%list_elem_of_filter)%list_elem_of_fmap & ?).
    done.
  - intros (Ha & Hb & Hk). exists a. split; [|done].
    apply list_elem_of_fmap. exists b. split; [done|].
    by apply list_elem_of_filter.
Qed.
End RelationalFacts.

Section GroupingFacts.
Context {A K : Type} `{EqDecision K}.
Variable key : A → K.

Lemma first_by_key_subseteq (l : list A) : first_by_key key l ⊆ l.
Proof.
  induction l as [|a l IH]; simpl; [done|].
  apply list_subseteq_skip. etrans; [apply list_subseteq_filter|done].
Qed.

Lemma first_by_key_covers (l : list A) a :
  a ∈ l → ∃ x, x ∈ first_by_key key l ∧ key x = key a.
Proof.
  induction l as [|b l IH]; [by intros ?%elem_of_nil|].
  intros [->|Ha]%elem_of_cons; simpl.
  - exists b. split; [by left|done].
  - destruct (decide (key a = key b)) as [Heq|Hne].
    + exists b. split; [by left|done].
    + destruct (IH Ha) as (x & Hx & Hk). exists x. split; [|done].
      right. apply list_elem_of_filter. split; [congruence|done].
Qed.

Lemma first_by_key_NoDup (l : list A) : NoDup (key <$> first_by_key key l).
Proof.
  induction l as [|a l IH]; simpl; [apply NoDup_nil_2|].
  apply NoDup_cons. split.
  - intros (x & Hk & [Hne _]%list_elem_of_filter)%list_elem_of_fmap. done.
  - revert IH. generalize (first_by_key key l). intros l' Hl'.
    induction l' as [|x l' IH']; [apply NoDup_nil_2|].
    rewrite fmap_cons in Hl'. apply NoDup_cons in Hl' as [Hx Hl'].
    rewrite filter_cons. case_decide; [|by apply IH'].
    rewrite fmap_cons. apply NoDup_cons. split; [|by apply IH'].
    intros (y & Hk & [_ Hy]%list_elem_of_filter)%list_elem_of_fmap.
    apply Hx. rewrite Hk. by apply list_elem_of_fmap_2.
Qed.

Lemma first_by_key_id (l : list A) :
  NoDup (key <$> l) → first_by_key key l = l.
Proof.
  induction l as [|a l IH]; [done|].
  rewrite fmap_cons, NoDup_cons. intros [Ha Hnd]. simpl.
  rewrite IH by done. f_equal. apply filter_all.
  intros b Hb Heq. apply Ha. rewrite <- Heq. by apply list_elem_of_fmap_2.
Qed.

Lemma elem_of_groupBy (l : list A) g :
  g ∈ groupBy key l →
  g.1 ∈ l ∧ g.2 = filter (λ b, key b = key g.1) l.
Proof.
  unfold groupBy. intros (a & -> & Ha)%list_elem_of_fmap. simpl.
  split; [|done]. by apply first_by_key_subseteq.
Qed.

Lemma groupBy_covers (l : list A) a :
  a ∈ l → ∃ g, g ∈ groupBy key l ∧ key g.1 = key a
               ∧ g.2 = filter (λ b, key b = key a) l.
Proof.
  intros (x & Hx & Hk)%first_by_key_covers.
  exists (x, filter (λ b, key b = key x) l). split_and!; [|done|].
  - unfold groupBy. apply list_elem_of_fmap. by exists x.
  - simpl. apply list_filter_iff. intros b. by rewrite Hk.
Qed.
End GroupingFacts.

Section OrderingFacts.
Context {A : Type}.
Variable key : A → Z.

Lemma insert_desc_Permutation x (l : list A) : insert_desc key x l ≡ₚ x :: l.
Proof.
  induction l as [|y l IH]; simpl; [done|].
  case_decide; [|done]. rewrite IH. apply Permutation_swap.
Qed.

Lemma orderBy_desc_Permutation (l : list A) : orderBy_desc key l ≡ₚ l.
Proof.
  unfold orderBy_desc. induction l as [|x l IH]; simpl; [done|].
  by rewrite insert_desc_Permutation, IH.
Qed.

Lemma elem_of_orderBy_desc (l : list A) x : x ∈ orderBy_desc key l ↔ x ∈ l.
Proof. by rewrite orderBy_desc_Permutation. Qed.

Lemma insert_desc_sorted x (l : list A) :
  StronglySorted (λ a b, (key b ≤ key a)%Z) l →
  StronglySorted (λ a b, (key b ≤ key a)%Z) (insert_desc key x l).
Proof.
  induction l as [|y l IH]; simpl; intros Hs.
  - repeat constructor.
  - apply StronglySorted_inv in Hs as [Hs Hy]. case_decide as Hlt.
    + constructor; [by apply IH|].
      rewrite insert_desc_Permutation. constructor; [lia|done].
    + constructor; [by constructor|].
      constructor; [lia|]. eapply Forall_impl; [exact Hy|].
      simpl. intros z Hz. lia.
Qed.

Lemma orderBy_desc_sorted (l : list A) :
  StronglySorted (λ a b, (key b ≤ key a)%Z) (orderBy_desc key l).
Proof.
  unfold orderBy_desc. induction l as [|x l IH]; simpl; [constructor|].
  by apply insert_desc_sorted.
Qed.

Lemma limit_subseteq n (l : list A) : limit n l ⊆ l.
Proof. destruct n; simpl; [apply subseteq_take|done]. Qed.

Lemma limit_sorted (R : relation A) n (l : list A) :
  StronglySorted R l → StronglySorted R (limit n l).
Proof.
  destruct n as [n|]; simpl; [|done]. revert n.
  induction l as [|x l IH]; intros n Hs; [by rewrite take_nil|].
  destruct n; simpl; [constructor|].
  apply StronglySorted_inv in Hs as [Hs Hx].
  constructor; [by apply IH|].
  eapply Forall_forall. intros y Hy%subseteq_take.
  by eapply Forall_forall in Hx.
Qed.

Lemma limit_length n (l : list A) : (length (limit (Some n) l) ≤ n)%nat.
Proof. simpl. rewrite length_take. lia. Qed.
End OrderingFacts.

Lemma filter_fmap_comm {A B} (f : A → B) (P : B → Prop) (Q : A → Prop)
    `{∀ y, Decision (P y)} `{∀ x, Decision (Q x)} (l : list A) :
  (∀ x, P (f x) ↔ Q x) → filter P (f <$> l) = f <$> filter Q l.
Proof.
  intros HPQ. induction l as [|x l IH]; [done|].
  rewrite fmap_cons, !filter_cons.
  destruct (decide (Q x)) as [HQ|HQ].
  - rewrite decide_True by (by apply HPQ). by rewrite fmap_cons, IH.
  - rewrite decide_False by (by rewrite HPQ). done.
Qed.

Lemma filter_bind {A B} (f : A → list B) (P : B → Prop)
    `{∀ y, Decision (P y)} (l : list A) :
  filter P (l ≫= f) = l ≫= λ a, filter P (f a).
Proof.
  induction l as [|x l IH]; [done|].
  by rewrite !bind_cons, filter_app, IH.
Qed.

Lemma insert_desc_fmap {A B} (f : A → B) (key : B → Z) x (l : list A) :
  insert_desc key (f x) (f <$> l) = f <$> insert_desc (λ a, key (f a)) x l.
Proof.
  induction l as [|y l IH]; [done|].
  rewrite fmap_cons. simpl.
  destruct (decide (key (f x) < key (f y))%Z); [|done].
  by rewrite fmap_cons, IH.
Qed.

Lemma orderBy_desc_fmap {A B} (f : A → B) (key : B → Z) (l : list A) :
  orderBy_desc key (f <$> l) = f <$> orderBy_desc (λ a, key (f a)) l.
Proof.
  unfold orderBy_desc. induction l as [|x l IH]; [done|].
  rewrite fmap_cons. simpl. by rewrite IH, insert_desc_fmap.
Qed.

Lemma limit_fmap {A B} (f : A → B) n (l : list A) :
  limit n (f <$> l) = f <$> limit n l.
Proof. destruct n; simpl; [by rewrite fmap_take|done]. Qed.

(** *** The listing methods *)

Lemma scope_filter {X} (f : X → SearchDocumentRow) options (l : list X) :
  (if truthy_string (opt_index options)
   then filter (λ j, Some (doc_index (f j)) = opt_index options)
          (filter (λ j, doc_tenant (f j) = opt_tenant options) l)
   else filter (λ j, doc_tenant (f j) = opt_tenant options) l)
  = filter (λ j, in_scope options (f j)) l.
Proof.
  destruct (truthy_string (opt_index options)) eqn:Htruthy.
  - rewrite list_filter_filter. apply list_filter_iff.
    intros j. unfold in_scope. rewrite Htruthy. tauto.
  - apply list_filter_iff.
    intros j. unfold in_scope. rewrite Htruthy.
    split; [by intros ?|by intros [? _]].
Qed.

Lemma listing_recency_ordered {R} (format : R → SearchDocument) (key : R → Z)
    n (rows : list R) :
  (∀ r, sd_updatedAt (format r) = key r) →
  recency_ordered (format <$> limit n (orderBy_desc key rows)).
Proof.
  intros Hkey. unfold recency_ordered.
  eapply (StronglySorted_fmap _ (λ a b, (key b ≤ key a)%Z)).
  - intros x y. by rewrite !Hkey.
  - apply limit_sorted, orderBy_desc_sorted.
Qed.

Lemma listing_length {R} (format : R → SearchDocument) n (rows : list R) :
  (length (format <$> limit (Some n) rows) ≤ n)%nat.
Proof. rewrite length_fmap. apply limit_length. Qed.

Lemma listing_elem_of {R} (format : R → SearchDocument) (key : R → Z)
    n (rows : list R) sd :
  sd ∈ format <$> limit n (orderBy_desc key rows) →
  ∃ r, r ∈ rows ∧ sd = format r.
Proof.
  intros (r & -> & Hr%limit_subseteq%elem_of_orderBy_desc)%list_elem_of_fmap.
  by exists r.
Qed.

Lemma sqlite_getDocuments_elem_of options db sd :
  sd ∈ Sqlite.getDocuments options db →
  ∃ d, d ∈ wt_search_documents db ∧ in_scope options d ∧ shows sd d.
Proof.
  unfold Sqlite.getDocuments. cbv zeta.
  rewrite (scope_filter fst).
  intros (r & (g & -> & [Hg _]%elem_of_groupBy)%list_elem_of_fmap & ->)%listing_elem_of.
  apply list_elem_of_filter in Hg as [Hscope Hg].
  destruct g as [[d ot] rows]. apply elem_of_leftJoin in Hg as [Hd _].
  exists d. by split_and!.
Qed.

Lemma d1_getDocuments_elem_of options db sd :
  sd ∈ D1.getDocuments options db →
  ∃ d, d ∈ wt_search_documents db ∧ in_scope options d ∧ shows sd d.
Proof.
  unfold D1.getDocuments. cbv zeta.
  rewrite (scope_filter (λ d, d)).
  intros (d & [Hscope Hd]%list_elem_of_filter & ->)%listing_elem_of.
  exists d. by split_and!.
Qed.

(** *** The sqlite queries against the D1 queries *)

Lemma first_by_key_fmap {A B K K'} `{EqDecision K} `{EqDecision K'}
    (f : A → B) (key : A → K) (key' : B → K') (l : list A) :
  (∀ x y, key' (f x) = key' (f y) ↔ key x = key y) →
  first_by_key key' (f <$> l) = f <$> first_by_key key l.
Proof.
  intros Hkey. induction l as [|a l IH]; [done|].
  rewrite fmap_cons. simpl. rewrite IH. f_equal.
  apply filter_fmap_comm. intros x. by rewrite Hkey.
Qed.

Lemma groupBy_fmap {A B K K'} `{EqDecision K} `{EqDecision K'}
    (f : A → B) (key : A → K) (key' : B → K') (l : list A) :
  (∀ x y, key' (f x) = key' (f y) ↔ key x = key y) →
  groupBy key' (f <$> l)
  = (λ g : A * list A, (f g.1, f <$> g.2)) <$> groupBy key l.
Proof.
  intros Hkey. unfold groupBy.
  rewrite (first_by_key_fmap f key key') by done.
  rewrite <- !list_fmap_compose. apply fmap_ext_elem_of. intros a _. simpl.
  f_equal. apply filter_fmap_comm. intros x. by rewrite Hkey.
Qed.

Lemma omap_fmap_Some {A B C} (f : A → B) (h : B → option C) (k : A → C)
    (l : list A) :
  (∀ x, h (f x) = Some (k x)) → omap h (f <$> l) = k <$> l.
Proof.
  intros Hh. induction l as [|a l IH]; [done|].
  csimpl. by rewrite Hh, IH.
Qed.

Lemma count_all_Some {A B} (g : A → option B) (l : list A) :
  (∀ a, is_Some (g a)) → count (g <$> l) = length l.
Proof.
  intros Hg. unfold count. induction l as [|a l IH]; [done|].
  csimpl. destruct (Hg a) as [b ->]. simpl. by rewrite IH.
Qed.

Section JoinsAgree.
Context {A B K : Type} `{EqDecision K}.
Variables (kl : A → K) (kr : B → K).

Lemma leftJoin_matched (l : list A) (r : list B) :
  filter (λ j, is_Some j.2) (leftJoin kr kl l r)
  = with_right <$> innerJoin kl kr l r.
Proof.
  unfold leftJoin, innerJoin. induction l as [|a l IH]; [done|].
  rewrite !bind_cons, filter_app, fmap_app, IH. f_equal.
  rewrite (list_filter_iff (λ b, kr b = kl a) (λ b, kl a = kr b)) by done.
  destruct (filter (λ b, kl a = kr b) r) as [|b bs].
  - rewrite filter_cons. rewrite decide_False; [done|].
    simpl. by intros [? ?].
  - rewrite filter_all.
    + by rewrite <- list_fmap_compose.
    + intros j (b' & -> & _)%list_elem_of_fmap. simpl. by eexists.
Qed.

Lemma filter_leftJoin_matched (P : A * option B → Prop)
    `{∀ j, Decision (P j)} (l : list A) (r : list B) :
  (∀ j, P j → is_Some j.2) →
  filter P (leftJoin kr kl l r)
  = with_right <$> filter (λ j, P (with_right j)) (innerJoin kl kr l r).
Proof.
  intros HP.
  rewrite (list_filter_iff P (λ j, P j ∧ is_Some j.2))
    by (intros j; split; [by auto|by intros [? _]]).
  rewrite <- list_filter_filter, leftJoin_matched.
  by apply filter_fmap_comm.
Qed.
End JoinsAgree.

Lemma getDocumentsByTags_agree tags options db :
  without_tags <$> Sqlite.getDocumentsByTags tags options db
  = D1.getDocumentsByTags tags options db.
Proof.
  unfold Sqlite.getDocumentsByTags, D1.getDocumentsByTags. cbv zeta.
  set (joined := innerJoin search_document_id doc_id
                   (wt_search_tags db) (wt_search_documents db)).
  set (queryD := if truthy_string (opt_index options)
                 then filter (λ j : SearchTagRow * SearchDocumentRow,
                        Some (doc_index j.2) = opt_index options)
                        (filter (λ j, doc_tenant j.2 = opt_tenant options)
                           (filter (λ j, tag j.1 ∈ tags) joined))
                 else filter (λ j, doc_tenant j.2 = opt_tenant options)
                        (filter (λ j, tag j.1 ∈ tags) joined)).
  assert (Hquery :
    (if truthy_string (opt_index options)
     then filter (λ j : SearchTagRow * option SearchDocumentRow,
            column doc_index j.2 = opt_index options)
            (filter (λ j, column doc_tenant j.2 = Some (opt_tenant options))
               (filter (λ j, tag j.1 ∈ tags)
                  (leftJoin doc_id search_document_id
                     (wt_search_tags db) (wt_search_documents db))))
     else filter (λ j, column doc_tenant j.2 = Some (opt_tenant options))
            (filter (λ j, tag j.1 ∈ tags)
               (leftJoin doc_id search_document_id
                  (wt_search_tags db) (wt_search_documents db))))
    = with_right <$> queryD).
  { assert (Htenant :
      filter (λ j : SearchTagRow * option SearchDocumentRow,
                column doc_tenant j.2 = Some (opt_tenant options))
        (filter (λ j, tag j.1 ∈ tags)
           (leftJoin doc_id search_document_id
              (wt_search_tags db) (wt_search_documents db)))
      = with_right <$> filter (λ j, doc_tenant j.2 = opt_tenant options)
                         (filter (λ j, tag j.1 ∈ tags) joined)).
    { rewrite !list_filter_filter.
      rewrite (filter_leftJoin_matched search_document_id doc_id).
      - f_equal. apply list_filter_iff. intros [t d]. simpl.
        split; intros [Ht ?]; (split; [congruence|done]).
      - intros [t [d|]]; simpl; [by eexists|by intros [[=] _]]. }
    unfold queryD. rewrite Htenant.
    destruct (truthy_string (opt_index options)); [|done].
    apply filter_fmap_comm. by intros [t d]. }
  rewrite Hquery. clear Hquery. generalize queryD. clear. intros query.
  rewrite (groupBy_fmap with_right (λ j, doc_id j.2)
             (λ j, column doc_id j.2))
    by (intros [? ?] [? ?]; simpl; split; congruence).
  rewrite (filter_fmap_comm _ _ (λ g, length g.2 = length tags)).
  2:{ intros [j rows]. simpl. rewrite <- !list_fmap_compose.
      rewrite count_all_Some; [done|]. intros [t d]. by eexists. }
  rewrite (omap_fmap_Some _ _
             (λ g, (g.1.2, group_concat ((λ j, Some (tag j.1))
                                         <$> (with_right <$> g.2)))))
    by by intros [[t d] rows].
  rewrite !orderBy_desc_fmap, !limit_fmap, <- !list_fmap_compose.
  by apply fmap_ext_elem_of.
Qed.

Section GroupsOfAJoin.
Context {A B K : Type} `{EqDecision K}.
Variables (kid : A → K) (F : A → list (A * B)).
Hypothesis F_nonempty : ∀ a, F a ≠ [].
Hypothesis F_left : ∀ a j, j ∈ F a → j.1 = a.

Lemma filter_left_bind (Q : A * B → Prop) (P : A → Prop)
    `{∀ j, Decision (Q j)} `{∀ a, Decision (P a)} (l : list A) :
  (∀ j, Q j ↔ P j.1) → filter Q (l ≫= F) = filter P l ≫= F.
Proof.
  intros HQ. induction l as [|a l IH]; [done|].
  rewrite bind_cons, filter_app, IH, filter_cons.
  destruct (decide (P a)) as [HP|HP].
  - rewrite bind_cons. f_equal. apply filter_all.
    intros j Hj. by rewrite HQ, (F_left a j Hj).
  - rewrite filter_none; [done|].
    intros j Hj. by rewrite HQ, (F_left a j Hj).
Qed.

Lemma first_by_key_run (key : A * B → K) j0 js rest :
  (∀ j, j ∈ js → key j = key j0) → (∀ x, x ∈ rest → key x ≠ key j0) →
  first_by_key key (j0 :: js ++ rest) = j0 :: first_by_key key rest.
Proof.
  intros Hjs Hrest. simpl. f_equal.
  induction js as [|j js IH]; simpl.
  - apply filter_all. intros x Hx%first_by_key_subseteq. by apply Hrest.
  - rewrite filter_cons.
    rewrite decide_False by (intros Hne; apply Hne, Hjs; by left).
    rewrite list_filter_filter.
    rewrite (list_filter_iff _ (λ b, key b ≠ key j0)).
    + apply IH. intros x Hx. apply Hjs. by right.
    + intros x. rewrite (Hjs j) by (by left). tauto.
Qed.

Lemma first_by_key_of_join (l : list A) :
  NoDup (kid <$> l) →
  fst <$> first_by_key (λ j, kid j.1) (l ≫= F) = l.
Proof.
  induction l as [|a l IH]; [done|].
  rewrite fmap_cons, NoDup_cons. intros [Ha Hnd].
  rewrite bind_cons. pose proof (F_nonempty a) as Hne.
  pose proof (F_left a) as Hleft.
  destruct (F a) as [|j0 js]; [done|].
  rewrite <- app_comm_cons, first_by_key_run.
  - rewrite fmap_cons, IH by done. f_equal. apply Hleft. by left.
  - intros j Hj. rewrite (Hleft j), (Hleft j0); [done|by left|by right].
  - intros x (a' & Hx & Ha')%list_elem_of_bind Hk.
    rewrite (F_left a' x Hx), (Hleft j0) in Hk by (by left).
    apply Ha. rewrite <- Hk. by apply list_elem_of_fmap_2.
Qed.

Lemma head_of_join (l : list A) : head (fst <$> (l ≫= F)) = head l.
Proof.
  destruct l as [|a l]; [done|].
  rewrite bind_cons. pose proof (F_nonempty a) as Hne.
  pose proof (F_left a) as Hleft.
  destruct (F a) as [|j0 js]; [done|].
  simpl. f_equal. apply Hleft. by left.
Qed.
End GroupsOfAJoin.

Lemma head_first_by_key {A K} `{EqDecision K} (key : A → K) (l : list A) :
  head (first_by_key key l) = head l.
Proof. by destruct l. Qed.

Lemma NoDup_fmap_filter {A B} (f : A → B) (P : A → Prop)
    `{∀ x, Decision (P x)} (l : list A) :
  NoDup (f <$> l) → NoDup (f <$> filter P l).
Proof.
  intros Hnd. eapply sublist_NoDup; [exact Hnd|apply fmap_sublist, sublist_filter].
Qed.

(** The rows the left join of documents with tags gives for one document. *)
Lemma leftJoin_rows_nonempty (tags : list SearchTagRow) (d : SearchDocumentRow) :
  (match filter (λ t, search_document_id t = doc_id d) tags with
   | [] => [(d, None)]
   | bs => (λ b, (d, Some b)) <$> bs
   end) ≠ [].
Proof. by destruct (filter _ tags). Qed.

Lemma leftJoin_rows_left (tags : list SearchTagRow) (d : SearchDocumentRow) j :
  j ∈ (match filter (λ t, search_document_id t = doc_id d) tags with
       | [] => [(d, None)]
       | bs => (λ b, (d, Some b)) <$> bs
       end) → j.1 = d.
Proof.
  destruct (filter _ tags).
  - by intros ->%list_elem_of_singleton.
  - by intros (b & -> & _)%list_elem_of_fmap.
Qed.

Lemma getDocuments_agree options db :
  unique_document_ids db →
  without_tags <$> Sqlite.getDocuments options db = D1.getDocuments options db.
Proof.
  intros Hnd. unfold Sqlite.getDocuments, D1.getDocuments. cbv zeta.
  rewrite (scope_filter fst), (scope_filter (λ d, d)).
  unfold leftJoin.
  rewrite (filter_left_bind _ (leftJoin_rows_left (wt_search_tags db))
             _ (in_scope options)) by done.
  change (filter (λ j, in_scope options ((λ d : SearchDocumentRow, d) j))
            (wt_search_documents db))
    with (filter (in_scope options) (wt_search_documents db)).
  pose proof (first_by_key_of_join doc_id _
                (leftJoin_rows_nonempty (wt_search_tags db))
                (leftJoin_rows_left (wt_search_tags db))
                (filter (in_scope options) (wt_search_documents db))
                (NoDup_fmap_filter _ _ _ Hnd)) as Hrows.
  revert Hrows.
  generalize (filter (in_scope options) (wt_search_documents db) ≫=
              λ a, match filter (λ b, search_document_id b = doc_id a)
                           (wt_search_tags db) with
                   | [] => [(a, None)]
                   | bs => (λ b, (a, Some b)) <$> bs
                   end).
  intros joined Hrows.
  replace (filter _ (wt_search_documents db))
    with (fst <$> first_by_key
                    (λ j : SearchDocumentRow * option SearchTagRow, doc_id j.1)
                    joined) by exact Hrows.
  unfold groupBy.
  rewrite <- !list_fmap_compose, !orderBy_desc_fmap, !limit_fmap,
    <- !list_fmap_compose.
  by apply fmap_ext_elem_of.
Qed.

Lemma getDocument_agree id db :
  without_tags <$> Sqlite.getDocument id db = D1.getDocument id db.
Proof.
  unfold Sqlite.getDocument, D1.getDocument. cbv zeta. unfold leftJoin.
  set (F := λ a : SearchDocumentRow,
              match filter (λ b, search_document_id b = doc_id a)
                      (wt_search_tags db) with
              | [] => [(a, None)]
              | bs => (λ b, (a, Some b)) <$> bs
              end).
  assert (Hfilter :
    filter (λ j : SearchDocumentRow * option SearchTagRow, doc_id j.1 = id)
      (wt_search_documents db ≫= F)
    = filter (λ d, doc_id d = id) (wt_search_documents db) ≫= F)
    by by apply (filter_left_bind F (leftJoin_rows_left (wt_search_tags db))).
  rewrite Hfilter.
  rewrite <- (head_of_join F (leftJoin_rows_nonempty (wt_search_tags db))
                (leftJoin_rows_left (wt_search_tags db))
                (filter (λ d, doc_id d = id) (wt_search_documents db))).
  generalize (filter (λ d, doc_id d = id) (wt_search_documents db) ≫= F).
  by intros [|j l].
Qed.

(** *** Search by tags *)

Lemma shows_iff sd d : shows sd d ↔ without_tags sd = D1._formatDocument d.
Proof.
  unfold shows, without_tags, D1._formatDocument. split.
  - intros (-> & -> & -> & -> & -> & ->). done.
  - intros [= -> -> -> -> -> ->]. done.
Qed.

Lemma shows_same_id sd d d' : shows sd d → shows sd d' → doc_id d = doc_id d'.
Proof. intros (Hid & _) (Hid' & _). congruence. Qed.

Lemma filter_unique_id (docs : list SearchDocumentRow) d :
  NoDup (doc_id <$> docs) → d ∈ docs →
  filter (λ r, doc_id r = doc_id d) docs = [d].
Proof.
  intros Hnd (l1 & l2 & ->)%list_elem_of_split.
  rewrite fmap_app, fmap_cons in Hnd.
  apply NoDup_app in Hnd as (_ & Hl1 & [Hl2 _]%NoDup_cons).
  rewrite filter_app, filter_cons, decide_True by done.
  rewrite !filter_none; [done| |].
  - intros r Hr Heq. apply Hl2. rewrite <- Heq. by apply list_elem_of_fmap_2.
  - intros r Hr Heq. eapply Hl1; [by apply list_elem_of_fmap_2|].
    rewrite Heq. by left.
Qed.

(** The rows of the group of one document, by their tag rows. *)
Lemma tagged_group_rows (tags : list string) options db d :
  unique_document_ids db → d ∈ wt_search_documents db → in_scope options d →
  fst <$> filter (λ j, doc_id j.2 = doc_id d)
            (filter (λ j, in_scope options j.2)
               (filter (λ j : SearchTagRow * SearchDocumentRow, tag j.1 ∈ tags)
                  (innerJoin search_document_id doc_id
                     (wt_search_tags db) (wt_search_documents db))))
  = filter (λ t, search_document_id t = doc_id d ∧ tag t ∈ tags)
      (wt_search_tags db).
Proof.
  intros Hnd Hd Hscope. rewrite !list_filter_filter. unfold innerJoin.
  rewrite filter_bind.
  induction (wt_search_tags db) as [|t table IH]; [done|].
  rewrite bind_cons, fmap_app, IH, filter_cons. clear IH.
  destruct (decide (search_document_id t = doc_id d ∧ tag t ∈ tags))
    as [[Hid Htag]|Hno].
  - rewrite (list_filter_iff _ (λ r, doc_id r = doc_id d)) by (intros r; split; congruence).
    rewrite filter_unique_id by done. simpl.
    rewrite filter_cons, decide_True by done. done.
  - rewrite filter_none; [done|].
    intros [t' d'] Hx. apply list_elem_of_fmap in Hx as (r & Heq & Hr).
    injection Heq as -> ->. apply list_elem_of_filter in Hr as [Hr _].
    simpl. intros [[Hid _] Htag]. apply Hno. split; [congruence|done].
Qed.

Lemma tag_match_count id (tags : list string) (table : list SearchTagRow) :
  NoDup table →
  length (filter (λ t, search_document_id t = id ∧ tag t ∈ tags) table)
    = length tags
  ↔ NoDup tags
    ∧ ∀ t, t ∈ tags → {| tag := t; search_document_id := id |} ∈ table.
Proof.
  intros Hnd.
  set (matched := filter (λ t, search_document_id t = id ∧ tag t ∈ tags) table).
  assert (Hmatched : ∀ t, t ∈ tag <$> matched ↔
            t ∈ tags ∧ {| tag := t; search_document_id := id |} ∈ table).
  { intros t. rewrite list_elem_of_fmap. split.
    - intros ([t' i'] & -> & [[Hi Ht] Hr]%list_elem_of_filter).
      simpl in *. by subst.
    - intros [Ht Hr]. exists {| tag := t; search_document_id := id |}.
      split; [done|]. by apply list_elem_of_filter. }
  assert (Hnd' : NoDup (tag <$> matched)).
  { apply NoDup_fmap_2_strong; [|by apply NoDup_filter].
    intros [t1 i1] [t2 i2] [[Hi1 _] _]%list_elem_of_filter
      [[Hi2 _] _]%list_elem_of_filter. simpl in *. congruence. }
  rewrite <- (length_fmap tag matched). split.
  - intros Hlen.
    assert (Hperm : tag <$> matched ≡ₚ tags).
    { apply submseteq_length_Permutation; [|lia].
      apply NoDup_submseteq; [done|]. intros t Ht. by apply Hmatched in Ht as [? ?]. }
    split; [by rewrite <- Hperm|].
    intros t Ht. rewrite <- Hperm in Ht. by apply Hmatched in Ht as [? ?].
  - intros [Hndt Hall]. apply Nat.le_antisymm; apply submseteq_length.
    + apply NoDup_submseteq; [done|]. intros t Ht. by apply Hmatched in Ht as [? ?].
    + apply NoDup_submseteq; [done|]. intros t Ht. apply Hmatched. auto.
Qed.

Lemma d1_getDocumentsByTags_elem_of tags options db sd :
  sd ∈ D1.getDocumentsByTags tags options db →
  ∃ d, d ∈ wt_search_documents db ∧ in_scope options d
       ∧ sd = D1._formatDocument d.
Proof.
  unfold D1.getDocumentsByTags. cbv zeta. rewrite (scope_filter snd).
  intros (d & (g & -> & [_ [Hg _]%elem_of_groupBy]%list_elem_of_filter)%list_elem_of_fmap
          & ->)%listing_elem_of.
  apply list_elem_of_filter in Hg as [Hscope [_ Hg]%list_elem_of_filter].
  destruct g as [[t d] rows]. apply elem_of_innerJoin in Hg as (_ & Hd & _).
  by exists d.
Qed.

Lemma d1_formatDocument_inj d d' :
  D1._formatDocument d = D1._formatDocument d' → d = d'.
Proof.
  unfold D1._formatDocument, JSON_parse. destruct d, d'. simpl.
  intros [=]. by subst.
Qed.

Lemma d1_getDocumentsByTags_exact tags options db d :
  schema_ok db → opt_limit options = None → d ∈ wt_search_documents db →
  D1._formatDocument d ∈ D1.getDocumentsByTags tags options db
  ↔ in_scope options d ∧ tags ≠ [] ∧ NoDup tags
    ∧ list_to_set tags ⊆ storedTags (doc_id d) db.
Proof.
  intros [Hids Hrows] Hlimit Hd.
  assert (Hstored : list_to_set tags ⊆ storedTags (doc_id d) db ↔
    ∀ t, t ∈ tags →
      {| tag := t; search_document_id := doc_id d |} ∈ wt_search_tags db).
  { split.
    - intros Hsub t Ht. apply elem_of_storedTags, Hsub.
      by apply elem_of_list_to_set.
    - intros Hall t Ht%elem_of_list_to_set. by apply elem_of_storedTags, Hall. }
  rewrite Hstored. clear Hstored.
  unfold D1.getDocumentsByTags. cbv zeta. rewrite (scope_filter snd), Hlimit.
  simpl. rewrite list_elem_of_fmap.
  set (query := filter (λ j : SearchTagRow * SearchDocumentRow, in_scope options j.2)
                  (filter (λ j, tag j.1 ∈ tags)
                     (innerJoin search_document_id doc_id
                        (wt_search_tags db) (wt_search_documents db)))).
  split.
  - intros (d' & ->%d1_formatDocument_inj & Hd'%elem_of_orderBy_desc).
    apply list_elem_of_fmap in Hd' as (g & -> & [Hlen [Hg Hrows_g]%elem_of_groupBy]%list_elem_of_filter).
    destruct g as [[t d] rows]. simpl in *.
    apply list_elem_of_filter in Hg as [Hscope [Htag Hj]%list_elem_of_filter].
    simpl in *. split; [done|].
    split; [by intros ->; apply elem_of_nil in Htag|].
    apply (tag_match_count (doc_id d)); [done|].
    rewrite <- (tagged_group_rows tags options db d) by done.
    rewrite length_fmap. fold query. by rewrite <- Hrows_g.
  - intros (Hscope & Hne & Hnd & Hall).
    assert (∃ t0, t0 ∈ tags) as [t0 Ht0]
      by (destruct tags; [done|eexists; by left]).
    assert (Hrow : ({| tag := t0; search_document_id := doc_id d |}, d) ∈ query).
    { unfold query. rewrite !list_elem_of_filter. simpl. split_and!; [done..|].
      apply elem_of_innerJoin. split_and!; [|done..]. by apply Hall. }
    apply (groupBy_covers (λ j, doc_id j.2)) in Hrow as (g & Hg & Hkey & Hrows_g).
    simpl in *.
    assert (g.1.2 = d) as Hgd.
    { apply elem_of_groupBy in Hg as [Hg _].
      apply list_elem_of_filter in Hg as [_ [_ Hj]%list_elem_of_filter].
      destruct g as [[t' d'] rows]. simpl in *.
      apply elem_of_innerJoin in Hj as (_ & Hd' & _).
      by eapply unique_id_inj. }
    exists d. split; [done|]. apply elem_of_orderBy_desc.
    apply list_elem_of_fmap. exists g. split; [done|].
    apply list_elem_of_filter. split; [|done].
    rewrite Hrows_g.
    rewrite <- (length_fmap fst). unfold query.
    rewrite (tagged_group_rows tags options db d) by done.
    by apply tag_match_count.
Qed.

Lemma sqlite_getDocumentsByTags_elem_of tags options db sd :
  sd ∈ Sqlite.getDocumentsByTags tags options db →
  ∃ d, d ∈ wt_search_documents db ∧ in_scope options d ∧ shows sd d.
Proof.
  intros Hsd.
  assert (Hd1 : without_tags sd ∈ D1.getDocumentsByTags tags options db).
  { rewrite <- getDocumentsByTags_agree. by apply list_elem_of_fmap_2. }
  apply d1_getDocumentsByTags_elem_of in Hd1 as (d & Hd & Hscope & Heq).
  exists d. split_and!; [done..|]. by apply shows_iff.
Qed.

Lemma shows_d1_formatDocument d : shows (D1._formatDocument d) d.
Proof. by apply shows_iff. Qed.

Lemma sqlite_shown_iff (results : list SearchDocument) d :
  (∃ sd, sd ∈ results ∧ shows sd d)
  ↔ D1._formatDocument d ∈ without_tags <$> results.
Proof.
  split.
  - intros (sd & Hsd & Heq%shows_iff). rewrite <- Heq.
    by apply list_elem_of_fmap_2.
  - intros (sd & Heq & Hsd)%list_elem_of_fmap. exists sd. split; [done|].
    by apply shows_iff.
Qed.

Lemma d1_shown_iff options tags db d :
  (∃ sd, sd ∈ D1.getDocumentsByTags tags options db ∧ shows sd d)
  ↔ D1._formatDocument d ∈ D1.getDocumentsByTags tags options db.
Proof.
  split.
  - intros (sd & Hsd & Hshows).
    destruct (d1_getDocumentsByTags_elem_of _ _ _ _ Hsd) as (d' & _ & _ & ->).
    apply shows_iff in Hshows. simpl in Hshows.
    replace (without_tags (D1._formatDocument d')) with (D1._formatDocument d')
      in Hshows by done.
    by rewrite <- Hshows.
  - intros Hd. exists (D1._formatDocument d). split; [done|].
    apply shows_d1_formatDocument.
Qed.


(** *** What a limit keeps *)

Lemma take_most_recent n (rows full : list SearchDocumentRow) :
  NoDup rows → full ≡ₚ rows →
  StronglySorted (λ a b, (doc_updated_at b ≤ doc_updated_at a)%Z) full →
  most_recent n rows (take n full).
Proof.
  intros Hnd Hperm Hsorted.
  assert (Hfull : NoDup (take n full ++ drop n full))
    by (by rewrite take_drop, Hperm).
  assert (Hsplit : StronglySorted
            (λ a b, (doc_updated_at b ≤ doc_updated_at a)%Z)
            (take n full ++ drop n full)) by (by rewrite take_drop).
  split_and!.
  - by apply NoDup_app in Hfull as (? & _ & _).
  - intros x Hx%subseteq_take. by rewrite <- Hperm.
  - by rewrite length_take, Hperm.
  - by apply StronglySorted_app_1_l in Hsplit.
  - intros d r Hd Hnot Hr.
    apply (StronglySorted_app_1_elem_of _ _ _ r d Hsplit); [done|].
    rewrite <- Hperm, <- (take_drop n full) in Hd.
    by apply elem_of_app in Hd as [Hd|Hd].
Qed.

Lemma most_recent_all n (rows picked : list SearchDocumentRow) :
  most_recent n rows picked → (length rows ≤ n)%nat → picked ≡ₚ rows.
Proof.
  intros (Hnd & Hsub & Hlen & _) Hfits.
  apply submseteq_length_Permutation; [by apply NoDup_submseteq|lia].
Qed.

Lemma shows_formatted (results : list SearchDocument)
    (picked : list SearchDocumentRow) :
  without_tags <$> results = D1._formatDocument <$> picked →
  Forall2 shows results picked.
Proof.
  intros Heq%list_eq_Forall2.
  apply (Forall2_fmap without_tags D1._formatDocument eq) in Heq.
  eapply Forall2_impl; [exact Heq|]. intros sd d Hsd. by apply shows_iff.
Qed.

(** The rows [getDocumentsByTags] orders and caps are the stored documents
    that carry the tags, each once. *)
Lemma d1_getDocumentsByTags_rows (tags : list string) tenant index lim db :
  schema_ok db →
  ∃ rows,
    rows ≡ₚ filter (carries tags {| opt_tenant := tenant; opt_index := index;
                                    opt_limit := lim |} db)
              (wt_search_documents db)
    ∧ ∀ lim', D1.getDocumentsByTags tags
                {| opt_tenant := tenant; opt_index := index;
                   opt_limit := lim' |} db
              = D1._formatDocument
                <$> limit lim' (orderBy_desc doc_updated_at rows).
Proof.
  intros Hok.
  set (unlimited := {| opt_tenant := tenant; opt_index := index;
                       opt_limit := None |}).
  set (rows := (λ g : (SearchTagRow * SearchDocumentRow)
                      * list (SearchTagRow * SearchDocumentRow), g.1.2)
               <$> filter (λ g, length g.2 = length tags)
                     (groupBy (λ j, doc_id j.2)
                        (filter (λ j : SearchTagRow * SearchDocumentRow,
                                   in_scope unlimited j.2)
                           (filter (λ j, tag j.1 ∈ tags)
                              (innerJoin search_document_id doc_id
                                 (wt_search_tags db)
                                 (wt_search_documents db)))))).
  assert (Hresults : ∀ lim',
    D1.getDocumentsByTags tags
      {| opt_tenant := tenant; opt_index := index; opt_limit := lim' |} db
    = D1._formatDocument <$> limit lim' (orderBy_desc doc_updated_at rows)).
  { intros lim'. unfold D1.getDocumentsByTags. cbv zeta.
    by rewrite (scope_filter snd). }
  exists rows. split; [|done].
  assert (Hin : ∀ d, d ∈ rows
                     ↔ D1._formatDocument d
                       ∈ D1.getDocumentsByTags tags unlimited db).
  { intros d. unfold unlimited. rewrite Hresults. simpl. split.
    - intros Hd. by apply list_elem_of_fmap_2, elem_of_orderBy_desc.
    - intros (d' & ->%d1_formatDocument_inj & Hd')%list_elem_of_fmap.
      by apply elem_of_orderBy_desc in Hd'. }
  destruct Hok as [Hids Hrows].
  apply NoDup_Permutation.
  - apply (NoDup_fmap_1 doc_id). unfold rows, groupBy.
    rewrite <- list_fmap_compose. apply NoDup_fmap_filter.
    rewrite <- list_fmap_compose.
    apply (first_by_key_NoDup (λ j : SearchTagRow * SearchDocumentRow,
                                 doc_id j.2)).
  - apply NoDup_filter. by apply (NoDup_fmap_1 doc_id).
  - intros d. rewrite Hin, list_elem_of_filter. split.
    + intros Hd.
      destruct (d1_getDocumentsByTags_elem_of _ _ _ _ Hd)
        as (d' & Hd' & _ & Heq%d1_formatDocument_inj).
      subst d'. split; [|done].
      by apply (d1_getDocumentsByTags_exact tags unlimited db d).
    + intros [Hcarries Hd].
      by apply (d1_getDocumentsByTags_exact tags unlimited db d).
Qed.

(** With a limit that no stored document falls outside of, the cap is not
    felt. *)
Lemma d1_getDocumentsByTags_fits (tags : list string) tenant index n db :
  schema_ok db → (length (wt_search_documents db) ≤ n)%nat →
  D1.getDocumentsByTags tags
    {| opt_tenant := tenant; opt_index := index; opt_limit := Some n |} db
  = D1.getDocumentsByTags tags
      {| opt_tenant := tenant; opt_index := index; opt_limit := None |} db.
Proof.
  intros Hok Hfits.
  destruct (d1_getDocumentsByTags_rows tags tenant index None db Hok)
    as (rows & Hperm & Hresults).
  rewrite !Hresults. simpl. f_equal. apply take_ge.
  rewrite orderBy_desc_Permutation, Hperm.
  etrans; [apply length_filter|done].
Qed.

(** C2, as amended: for a limit [n] and a tag list that is not empty and
    repeats no tag, [getDocumentsByTags] returns stored documents of the
    tenant (and of the index, when a non-empty one is given) that carry every
    tag of the list, each once: the [n] most recent of them, all of them when
    there are no more than [n]; for an empty list, and for a list that repeats
    a tag, it returns nothing, whatever the documents carry (the match count
    is compared with the length of the list). On sqlite the returned
    documents show the same rows, with a [tags] property. *)
Theorem getDocumentsByTags_returns_exactly (tags : list string) tenant index
    n db :
  schema_ok db →
  let options := {| opt_tenant := tenant; opt_index := index;
                    opt_limit := Some n |} in
  let carrying := filter (carries tags options db) (wt_search_documents db) in
  (∃ picked,
     most_recent n carrying picked
     ∧ D1.getDocumentsByTags tags options db = D1._formatDocument <$> picked
     ∧ Forall2 shows (Sqlite.getDocumentsByTags tags options db) picked)
  ∧ ((length carrying ≤ n)%nat →
     D1.getDocumentsByTags tags options db ≡ₚ D1._formatDocument <$> carrying
     ∧ without_tags <$> Sqlite.getDocumentsByTags tags options db
       ≡ₚ D1._formatDocument <$> carrying)
  ∧ (tags = [] ∨ ¬ NoDup tags →
     Sqlite.getDocumentsByTags tags options db = []
     ∧ D1.getDocumentsByTags tags options db = []).
Proof.
  intros Hok options carrying.
  destruct (d1_getDocumentsByTags_rows tags tenant index (Some n) db Hok)
    as (rows & Hperm & Hresults).
  specialize (Hresults (Some n)). simpl in Hresults.
  fold options in Hperm, Hresults. fold carrying in Hperm.
  assert (Hpicked : most_recent n carrying
                      (take n (orderBy_desc doc_updated_at rows))).
  { apply take_most_recent.
    - apply NoDup_filter, (NoDup_fmap_1 doc_id), Hok.
    - by rewrite orderBy_desc_Permutation.
    - apply orderBy_desc_sorted. }
  split_and!.
  - exists (take n (orderBy_desc doc_updated_at rows)).
    split_and!; [done..|].
    apply shows_formatted. by rewrite getDocumentsByTags_agree.
  - intros Hfits. rewrite getDocumentsByTags_agree, Hresults.
    by rewrite (most_recent_all n carrying _ Hpicked Hfits).
  - intros Hbad.
    assert (Hnone : take n (orderBy_desc doc_updated_at rows) = []).
    { destruct (take n (orderBy_desc doc_updated_at rows)) as [|d l] eqn:E;
        [done|].
      destruct Hpicked as (_ & Hsub & _).
      assert (Hd : d ∈ carrying) by (apply Hsub; by left).
      apply list_elem_of_filter in Hd as [(_ & Hne & Hnd & _) _].
      by destruct Hbad. }
    assert (Hd1 : D1.getDocumentsByTags tags options db = [])
      by (by rewrite Hresults, Hnone).
    split; [|done].
    rewrite <- getDocumentsByTags_agree in Hd1.
    by apply fmap_nil_inv in Hd1.
Qed.

(** C8: every document that [getDocuments] or [getDocumentsByTags] returns,
    on either adapter, has the requested tenant and shows a stored row of that
    tenant; a row stored under another tenant is never shown. *)
Theorem listings_stay_within_tenant tags options db sd :
  sd ∈ Sqlite.getDocuments options db
  ∨ sd ∈ Sqlite.getDocumentsByTags tags options db
  ∨ sd ∈ D1.getDocuments options db
  ∨ sd ∈ D1.getDocumentsByTags tags options db →
  sd_tenant sd = opt_tenant options
  ∧ (∃ d, d ∈ wt_search_documents db ∧ shows sd d
          ∧ doc_tenant d = opt_tenant options)
  ∧ (∀ d, doc_tenant d ≠ opt_tenant options → ¬ shows sd d).
Proof.
  intros Hsd.
  assert (∃ d, d ∈ wt_search_documents db ∧ in_scope options d ∧ shows sd d)
    as (d & Hd & [Htenant _] & Hshows).
  { destruct Hsd as [Hsd|[Hsd|[Hsd|Hsd]]].
    - by apply sqlite_getDocuments_elem_of.
    - by eapply sqlite_getDocumentsByTags_elem_of.
    - by apply d1_getDocuments_elem_of.
    - apply d1_getDocumentsByTags_elem_of in Hsd as (d & ? & ? & ->).
      exists d. split_and!; [done..|]. apply shows_d1_formatDocument. }
  assert (Hsd_tenant : sd_tenant sd = opt_tenant options).
  { destruct Hshows as (_ & -> & _). done. }
  split_and!; [done|by exists d|].
  intros d' Hother (_ & Htenant' & _). congruence.
Qed.

(** C6, as amended: the results of [getDocuments] and [getDocumentsByTags],
    on either adapter, are in descending order of [updated_at], and with a
    limit there are at most that many; the order among equal [updated_at] is
    the one the engine yields, the queries ask for no tie-break. *)
Theorem listings_ordered_and_capped tags options tenant index n db :
  recency_ordered (Sqlite.getDocuments options db)
  ∧ recency_ordered (Sqlite.getDocumentsByTags tags options db)
  ∧ recency_ordered (D1.getDocuments options db)
  ∧ recency_ordered (D1.getDocumentsByTags tags options db)
  ∧ let capped := {| opt_tenant := tenant; opt_index := index;
                     opt_limit := Some n |} in
    (length (Sqlite.getDocuments capped db) ≤ n)%nat
    ∧ (length (Sqlite.getDocumentsByTags tags capped db) ≤ n)%nat
    ∧ (length (D1.getDocuments capped db) ≤ n)%nat
    ∧ (length (D1.getDocumentsByTags tags capped db) ≤ n)%nat.
Proof.
  split_and!; try (by apply listing_recency_ordered).
  simpl. split_and!; apply listing_length.
Qed.

(** *** Lookup and deletion by id *)

Lemma deleteDocument_eq id db :
  Sqlite.deleteDocument id db =
  (Resolved (),
   {| wt_search_documents :=
        filter (λ r, ¬ doc_id r = id) (wt_search_documents db);
      wt_search_tags :=
        filter (λ r, ¬ search_document_id r = id) (wt_search_tags db) |})
  ∧ D1.deleteDocument id db = Sqlite.deleteDocument id db.
Proof. done. Qed.

Lemma d1_getDocument_unique db d :
  unique_document_ids db → d ∈ wt_search_documents db →
  D1.getDocument (doc_id d) db = Some (D1._formatDocument d).
Proof.
  intros Hnd Hd. unfold D1.getDocument. by rewrite filter_unique_id.
Qed.

Lemma d1_getDocument_absent id db :
  id ∉ doc_id <$> wt_search_documents db → D1.getDocument id db = None.
Proof.
  intros Hid. unfold D1.getDocument. rewrite filter_none; [done|].
  intros r Hr Heq. apply Hid. rewrite <- Heq. by apply list_elem_of_fmap_2.
Qed.

Lemma sqlite_getDocument_absent id db :
  id ∉ doc_id <$> wt_search_documents db → Sqlite.getDocument id db = None.
Proof.
  intros Hid%d1_getDocument_absent. rewrite <- getDocument_agree in Hid.
  by destruct (Sqlite.getDocument id db).
Qed.

(** C7, as amended: [deleteDocument] never throws; after it, [getDocument] of
    the id finds nothing and no tag row carries the id; and where the id has
    neither a document nor a tag row, the database is left exactly as it
    was. *)
Theorem deleteDocument_removes_document_and_tags id db :
  let s := Sqlite.deleteDocument id db in
  let i := D1.deleteDocument id db in
  s.1 = Resolved () ∧ i.1 = Resolved ()
  ∧ Sqlite.getDocument id s.2 = None ∧ D1.getDocument id i.2 = None
  ∧ (∀ r, r ∈ wt_search_tags s.2 ∨ r ∈ wt_search_tags i.2 →
       search_document_id r ≠ id)
  ∧ (id ∉ doc_id <$> wt_search_documents db →
     id ∉ search_document_id <$> wt_search_tags db →
     s.2 = db ∧ i.2 = db).
Proof.
  cbv zeta. destruct (deleteDocument_eq id db) as [Hs Hi]. rewrite Hi, Hs. simpl.
  assert (Hgone : id ∉ doc_id <$> filter (λ r, ¬ doc_id r = id)
                                    (wt_search_documents db)).
  { intros (r & -> & [Hr _]%list_elem_of_filter)%list_elem_of_fmap. done. }
  split_and!; [done|done| | | |].
  - by apply sqlite_getDocument_absent.
  - by apply d1_getDocument_absent.
  - intros r [Hr|Hr]; by apply list_elem_of_filter in Hr as [? _].
  - intros Hdoc Htag. rewrite !filter_all; [by destruct db| |].
    + intros r Hr Heq. apply Htag. rewrite <- Heq. by apply list_elem_of_fmap_2.
    + intros r Hr Heq. apply Hdoc. rewrite <- Heq. by apply list_elem_of_fmap_2.
Qed.

(** C9: [getDocument] and [deleteDocument] take an id and nothing else: for
    any stored row, whatever its tenant and index, [getDocument] of its id
    returns that row and [deleteDocument] of its id removes it, on either
    adapter. *)
Theorem lookup_and_delete_by_id_alone db d :
  unique_document_ids db → d ∈ wt_search_documents db →
  (∃ sd, Sqlite.getDocument (doc_id d) db = Some sd ∧ shows sd d)
  ∧ (∃ sd, D1.getDocument (doc_id d) db = Some sd ∧ shows sd d)
  ∧ (d ∉ wt_search_documents (Sqlite.deleteDocument (doc_id d) db).2)
  ∧ (d ∉ wt_search_documents (D1.deleteDocument (doc_id d) db).2).
Proof.
  intros Hnd Hd. pose proof (d1_getDocument_unique db d Hnd Hd) as Hget.
  split_and!.
  - rewrite <- getDocument_agree in Hget.
    destruct (Sqlite.getDocument (doc_id d) db) as [sd|]; [|done].
    exists sd. split; [done|]. apply shows_iff.
    simpl in Hget. congruence.
  - exists (D1._formatDocument d). split; [done|]. apply shows_d1_formatDocument.
  - destruct (deleteDocument_eq (doc_id d) db) as [-> _]. simpl.
    by intros [? _]%list_elem_of_filter.
  - destruct (deleteDocument_eq (doc_id d) db) as [Hs ->]. rewrite Hs. simpl.
    by intros [? _]%list_elem_of_filter.
Qed.

(** *** The two adapters side by side *)

Lemma documents_after_agree now document docs :
  NoDup (doc_id <$> docs) →
  documents_after (λ r, doc_id r = body_id document) now document docs
  = documents_after (λ r, doc_id r = body_id document
                          ∧ doc_tenant r = body_tenant document
                          ∧ doc_index r = body_index document)
      now document docs.
Proof.
  intros Hnd. unfold documents_after.
  destruct (filter _ docs) as [|e es] eqn:Hfilter; [done|]. simpl.
  assert (He : e ∈ filter (λ r, doc_id r = body_id document
                 ∧ doc_tenant r = body_tenant document
                 ∧ doc_index r = body_index document) docs)
    by (rewrite Hfilter; by left).
  apply list_elem_of_filter in He as [(Hid & Hten & Hidx) He].
  f_equal. apply fmap_ext_elem_of. intros r Hr.
  destruct (decide (doc_id r = body_id document)) as [Hrid|Hrid].
  - assert (r = e) as -> by (eapply unique_id_inj; eauto; congruence).
    by rewrite decide_True.
  - rewrite decide_False; [done|]. by intros [? _].
Qed.

Lemma tags_after_agree_Some id tags table :
  is_Some (sqlite_tags_after id tags table)
  ↔ is_Some (d1_tags_after id tags table).
Proof.
  rewrite sqlite_tags_after_eq, d1_tags_after_eq. case_decide; [|done].
  simpl. rewrite tagsToAdd_agree. by rewrite fmap_is_Some.
Qed.

Lemma tags_after_agree id (tags : list string) table :
  tags = [] ∨ (∀ r, r ∈ table → search_document_id r = id → tag r ∈ tags) →
  sqlite_tags_after id tags table = d1_tags_after id tags table.
Proof.
  intros [->|Hall]; [done|].
  rewrite sqlite_tags_after_eq, d1_tags_after_eq. case_decide; [|done].
  simpl. rewrite tagsToAdd_agree.
  destruct (insert_tag_rows _ _) as [table'|]; [|done]. simpl. f_equal.
  symmetry. apply filter_all.
  intros r _ [_ (r' & _ & [[Hid Hr']%list_elem_of_filter Hnot]%elem_of_d1_tagsToRemove)%list_elem_of_fmap].
  apply Hnot. by apply Hall.
Qed.

(** C3, as amended: from the same database (under the unique index on
    [id]), [deleteDocument] and [getTags] behave identically on the two
    adapters; [getDocument], [getDocuments] and [getDocumentsByTags] return
    the same documents in the same order, except that only the sqlite
    adapter gives them a [tags] property; [upsertDocument] and
    [indexDocument] resolve or throw together, return the same document but
    for [tags], write the same documents table, and leave the same database
    when the tag list is empty or no tag outside the list was stored. *)
Theorem adapters_agree_up_to_tags db :
  unique_document_ids db →
  (∀ id, Sqlite.deleteDocument id db = D1.deleteDocument id db)
  ∧ Sqlite.getTags db = D1.getTags db
  ∧ (∀ id, without_tags <$> Sqlite.getDocument id db = D1.getDocument id db)
  ∧ (∀ options,
       without_tags <$> Sqlite.getDocuments options db
       = D1.getDocuments options db)
  ∧ (∀ tags options,
       without_tags <$> Sqlite.getDocumentsByTags tags options db
       = D1.getDocumentsByTags tags options db)
  ∧ (∀ now document tags,
       let s := Sqlite.upsertDocument now document tags db in
       let i := D1.indexDocument now document tags db in
       outcome_agrees s.1 i.1
       ∧ wt_search_documents s.2 = wt_search_documents i.2
       ∧ (tags = [] ∨ storedTags (body_id document) db ⊆ list_to_set tags →
          s.2 = i.2)).
Proof.
  intros Hnd. split_and!; [done|done|..].
  - intros id. apply getDocument_agree.
  - intros options. by apply getDocuments_agree.
  - intros tags options. apply getDocumentsByTags_agree.
  - intros now document tags. cbv zeta.
    rewrite sqlite_upsert_normal_form, d1_index_normal_form.
    rewrite documents_after_agree by done.
    destruct (documents_after _ _ _ _) as [docs'|]; [|done].
    pose proof (tags_after_agree_Some (body_id document) tags
                  (wt_search_tags db)) as Hsome.
    split_and!.
    + destruct (sqlite_tags_after _ _ _), (d1_tags_after _ _ _); simpl;
        try done.
      * destruct Hsome as [[? [=]] _]. by eexists.
      * destruct Hsome as [_ [? [=]]]. by eexists.
    + by destruct (sqlite_tags_after _ _ _), (d1_tags_after _ _ _).
    + intros Hcond. rewrite tags_after_agree.
      * by destruct (d1_tags_after _ _ _).
      * destruct Hcond as [->|Hsub]; [by left|right].
        intros [t i] Hr Hi. simpl in *. subst i.
        apply (proj1 (elem_of_list_to_set (C:=gset string) t tags)).
        apply Hsub. by apply elem_of_storedTags.
Qed.

(** *** The schema's unique indexes hold along the way *)

Lemma documents_after_unique cond `{∀ r, Decision (cond r)} now document docs docs' :
  NoDup (doc_id <$> docs) →
  documents_after cond now document docs = Some docs' →
  NoDup (doc_id <$> docs').
Proof.
  intros Hnd. unfold documents_after.
  destruct (head _); [|case_decide; [done|]]; intros [= <-].
  - rewrite <- list_fmap_compose.
    erewrite fmap_ext_elem_of; [exact Hnd|].
    intros r _. simpl. by case_decide.
  - rewrite fmap_app. apply NoDup_app. split_and!; [done| |apply NoDup_singleton].
    intros x Hx ->%list_elem_of_singleton. done.
Qed.

Lemma schema_ok_preserved now document tags id tag' db :
  schema_ok db →
  schema_ok (Sqlite.upsertDocument now document tags db).2
  ∧ schema_ok (D1.indexDocument now document tags db).2
  ∧ schema_ok (Sqlite.deleteDocument id db).2
  ∧ schema_ok (D1.deleteDocument id db).2
  ∧ schema_ok (D1.tagDocument id tag' db).2
  ∧ schema_ok (D1.untagDocument id tag' db).2.
Proof.
  intros [Hids Hrows]. unfold schema_ok, unique_document_ids, unique_tag_rows.
  rewrite sqlite_upsert_normal_form, d1_index_normal_form.
  split; [|split; [|split; [|split; [|split]]]].
  - destruct (documents_after _ _ _ _) as [docs'|] eqn:Hdocs; [|done].
    apply documents_after_unique in Hdocs; [|done].
    destruct (sqlite_tags_after _ _ _) as [table|] eqn:Htags; [|done].
    simpl. split; [done|].
    rewrite sqlite_tags_after_eq in Htags. case_decide.
    + by eapply insert_tag_rows_NoDup.
    + by injection Htags as <-.
  - destruct (documents_after _ _ _ _) as [docs'|] eqn:Hdocs; [|done].
    apply documents_after_unique in Hdocs; [|done].
    destruct (d1_tags_after _ _ _) as [table|] eqn:Htags; [|done].
    simpl. split; [done|].
    rewrite d1_tags_after_eq in Htags. case_decide.
    + simpl in Htags.
      destruct (insert_tag_rows _ _) as [table'|] eqn:Hins; [|done].
      injection Htags as <-. apply NoDup_filter.
      by eapply insert_tag_rows_NoDup.
    + by injection Htags as <-.
  - simpl. split; [by apply NoDup_fmap_filter|by apply NoDup_filter].
  - simpl. split; [by apply NoDup_fmap_filter|by apply NoDup_filter].
  - unfold D1.tagDocument, insertInto_tags_doNothing. simpl.
    case_decide; [done|]. simpl. split; [done|].
    apply NoDup_app. split_and!; [done| |apply NoDup_singleton].
    intros x Hx ->%list_elem_of_singleton. done.
  - simpl. split; [done|by apply NoDup_filter].
Qed.

Lemma empty_db_schema_ok : schema_ok empty_db.
Proof. split; apply NoDup_nil_2. Qed.

(** *** The sqlite adapter keeps tag rows attached to documents *)

Lemma documents_after_ids cond `{∀ r, Decision (cond r)} now document docs docs' :
  documents_after cond now document docs = Some docs' →
  body_id document ∈ doc_id <$> docs'
  ∧ ∀ i, i ∈ doc_id <$> docs → i ∈ doc_id <$> docs'.
Proof.
  unfold documents_after.
  destruct (filter _ docs) as [|e es] eqn:Hfilter; simpl.
  - case_decide; [done|]. intros [= <-]. rewrite fmap_app. split.
    + apply elem_of_app. right. by left.
    + intros i Hi. apply elem_of_app. by left.
  - intros [= <-].
    assert (Hids : doc_id <$> ((λ r, if decide (cond r)
                                     then updated_row now document r else r)
                               <$> docs) = doc_id <$> docs).
    { rewrite <- list_fmap_compose. apply fmap_ext_elem_of.
      intros r _. simpl. by case_decide. }
    rewrite Hids. split; [|done].
    assert (He : e ∈ filter (λ r, doc_id r = body_id document
                 ∧ doc_tenant r = body_tenant document
                 ∧ doc_index r = body_index document) docs)
      by (rewrite Hfilter; by left).
    apply list_elem_of_filter in He as [(Hid & _) He].
    rewrite <- Hid. by apply list_elem_of_fmap_2.
Qed.

Lemma sqlite_keeps_tags_attached now document tags id db :
  tags_reference_documents db →
  tags_reference_documents (Sqlite.upsertDocument now document tags db).2
  ∧ tags_reference_documents (Sqlite.deleteDocument id db).2.
Proof.
  intros Hrefs. unfold tags_reference_documents.
  rewrite sqlite_upsert_normal_form. split.
  - destruct (documents_after _ _ _ _) as [docs'|] eqn:Hdocs; [|done].
    apply documents_after_ids in Hdocs as [Hbody Hold].
    destruct (sqlite_tags_after _ _ _) as [table|] eqn:Htags; simpl.
    + intros r [Hr|[-> _]]%(sqlite_tags_after_within _ _ _ _ _ Htags);
        [|done].
      by apply Hold, Hrefs.
    + intros r Hr. by apply Hold, Hrefs.
  - simpl. intros r [Hne Hr]%list_elem_of_filter.
    apply Hrefs in Hr as (d & Hid & Hd)%list_elem_of_fmap.
    apply list_elem_of_fmap. exists d. split; [done|].
    apply list_elem_of_filter. split; [congruence|done].
Qed.

(** Where every tag row belongs to a stored document, deleting an id that
    has no document changes nothing. *)
Lemma deleteDocument_absent_is_noop id db :
  tags_reference_documents db →
  id ∉ doc_id <$> wt_search_documents db →
  Sqlite.deleteDocument id db = (Resolved (), db).
Proof.
  intros Hrefs Hid. destruct (deleteDocument_eq id db) as [-> _].
  rewrite !filter_all; [by destruct db| |].
  - intros r Hr Heq. apply Hid. rewrite <- Heq. by apply Hrefs.
  - intros r Hr Heq. apply Hid. rewrite <- Heq. by apply list_elem_of_fmap_2.
Qed.

(** * The properties on sample data *)

Lemma sample_db_schema_ok : schema_ok sample_db.
Proof. split; compute_done. Defined.

(** With an empty tag list a completed upsert leaves the two stored tags in
    place, on either adapter. *)
Lemma upsert_with_empty_tags_clears_nothing :
  resolves (Sqlite.upsertDocument 2 sample_body [] sample_db)
  ∧ resolves (D1.indexDocument 2 sample_body [] sample_db)
  ∧ storedTags "d1" (Sqlite.upsertDocument 2 sample_body [] sample_db).2
    ≠ list_to_set []
  ∧ storedTags "d1" (D1.indexDocument 2 sample_body [] sample_db).2
    ≠ list_to_set [].
Proof.
  split_and!; [exact I|exact I| |].
  - intros Hempty.
    assert (Hx : "x" ∈ storedTags "d1"
                   (Sqlite.upsertDocument 2 sample_body [] sample_db).2)
      by (apply elem_of_storedTags; compute_done).
    rewrite Hempty in Hx. set_solver.
  - intros Hempty.
    assert (Hx : "x" ∈ storedTags "d1"
                   (D1.indexDocument 2 sample_body [] sample_db).2)
      by (apply elem_of_storedTags; compute_done).
    rewrite Hempty in Hx. set_solver.
Qed.

Lemma upsert_stores_supplied_tags_witness :
  (wt_search_tags (Sqlite.upsertDocument 2 sample_body [] sample_db).2
     = wt_search_tags sample_db
   ∧ wt_search_tags (D1.indexDocument 2 sample_body [] sample_db).2
     = wt_search_tags sample_db)
  ∧ storedTags "d1" (D1.indexDocument 2 sample_body ["y"] sample_db).2
    = list_to_set ["y"]
  ∧ list_to_set ["y"]
    ⊆ storedTags "d1" (Sqlite.upsertDocument 2 sample_body ["y"] sample_db).2
  ∧ storedTags "d1"
      (Sqlite.upsertDocument 2 sample_body ["x"; "y"; "z"] sample_db).2
    = list_to_set ["x"; "y"; "z"].
Proof.
  split_and!.
  - by apply (proj1 (upsert_stores_supplied_tags 2 sample_body [] sample_db)).
  - by apply (proj1 (upsert_stores_supplied_tags 2 sample_body [] sample_db)).
  - apply (proj1 (proj2 (upsert_stores_supplied_tags 2 sample_body ["y"]
                           sample_db))); [done|exact I].
  - apply (proj1 (proj2 (proj2 (upsert_stores_supplied_tags 2 sample_body
                                  ["y"] sample_db)))). exact I.
  - apply (proj2 (proj2 (proj2 (upsert_stores_supplied_tags 2 sample_body
                                  ["x"; "y"; "z"] sample_db))));
      [done|exact I|].
    intros t Ht%elem_of_storedTags.
    apply elem_of_list_to_set.
    apply list_elem_of_In in Ht. simpl in Ht.
    destruct Ht as [[= <-]|[[= <-]|[]]]; set_solver.
Defined.

(** The document carries [x], yet a search for the list [x, x] with
    [limit: 10] returns nothing: one matching tag row against a list of
    length two. *)
Lemma getDocumentsByTags_repeated_tag_finds_nothing :
  sample_row ∈ wt_search_documents sample_db
  ∧ doc_tenant sample_row = opt_tenant first_ten_t1
  ∧ list_to_set ["x"; "x"] ⊆ storedTags (doc_id sample_row) sample_db
  ∧ Sqlite.getDocumentsByTags ["x"; "x"] first_ten_t1 sample_db = []
  ∧ D1.getDocumentsByTags ["x"; "x"] first_ten_t1 sample_db = [].
Proof.
  split_and!; [by left|done| |done|done].
  intros t Ht. apply elem_of_storedTags.
  apply elem_of_list_to_set, list_elem_of_In in Ht. simpl in Ht.
  destruct Ht as [<-|[<-|[]]]; by left.
Qed.

Lemma getDocumentsByTags_returns_exactly_witness :
  schema_ok sample_db
  ∧ (D1.getDocumentsByTags ["x"; "y"] first_ten_t1 sample_db
       ≡ₚ [D1._formatDocument sample_row]
     ∧ without_tags <$> Sqlite.getDocumentsByTags ["x"; "y"] first_ten_t1
                          sample_db
       ≡ₚ [D1._formatDocument sample_row])
  ∧ (Sqlite.getDocumentsByTags [] first_ten_t1 sample_db = []
     ∧ D1.getDocumentsByTags [] first_ten_t1 sample_db = []).
Proof.
  pose proof (getDocumentsByTags_returns_exactly ["x"; "y"] "t1" None 10
                sample_db sample_db_schema_ok) as (_ & Hall & _).
  pose proof (getDocumentsByTags_returns_exactly [] "t1" None 10 sample_db
                sample_db_schema_ok) as (_ & _ & Hnone).
  split; [exact sample_db_schema_ok|].
  split; [|by apply Hnone; left].
  assert (Hfits : (length (filter (carries ["x"; "y"] first_ten_t1 sample_db)
                             (wt_search_documents sample_db)) ≤ 10)%nat)
    by compute_done.
  exact (Hall Hfits).
Defined.

(** [getDocument] gives a [tags] property on sqlite and none on D1, and an
    upsert that drops a tag leaves different tag rows on the two adapters. *)
Lemma adapters_differ :
  Sqlite.getDocument "d1" sample_db ≠ D1.getDocument "d1" sample_db
  ∧ (Sqlite.upsertDocument 2 sample_body ["y"] sample_db).1
    ≠ (D1.indexDocument 2 sample_body ["y"] sample_db).1
  ∧ (Sqlite.upsertDocument 2 sample_body ["y"] sample_db).2
    ≠ (D1.indexDocument 2 sample_body ["y"] sample_db).2.
Proof. split_and!; by vm_compute. Qed.

Lemma adapters_agree_up_to_tags_witness :
  unique_document_ids sample_db
  ∧ without_tags <$> Sqlite.getDocument "d1" sample_db
    = D1.getDocument "d1" sample_db
  ∧ without_tags <$> Sqlite.getDocuments list_t1 sample_db
    = D1.getDocuments list_t1 sample_db
  ∧ Sqlite.deleteDocument "d1" sample_db = D1.deleteDocument "d1" sample_db
  ∧ (Sqlite.upsertDocument 2 sample_body [] sample_db).2
    = (D1.indexDocument 2 sample_body [] sample_db).2.
Proof.
  pose proof (adapters_agree_up_to_tags sample_db (proj1 sample_db_schema_ok))
    as (Hdelete & _ & Hget & Hlist & _ & Hupsert).
  split_and!; [exact (proj1 sample_db_schema_ok)|apply Hget|apply Hlist
              |apply Hdelete|].
  apply (Hupsert 2%Z sample_body []). by left.
Defined.

(** No row has the id, tenant and index of the upsert, and yet no row is
    inserted: the id is taken under tenant [t1]. *)
Lemma upsert_under_other_tenant_inserts_nothing :
  (∀ r, r ∈ wt_search_documents sample_db →
     ¬ (doc_id r = body_id other_tenant_body
        ∧ doc_tenant r = body_tenant other_tenant_body
        ∧ doc_index r = body_index other_tenant_body))
  ∧ wt_search_documents (Sqlite.upsertDocument 2 other_tenant_body [] sample_db).2
    = wt_search_documents sample_db
  ∧ wt_search_documents (D1.indexDocument 2 other_tenant_body [] sample_db).2
    = wt_search_documents sample_db.
Proof.
  split_and!; [|done|done].
  intros r ->%list_elem_of_singleton (_ & [=] & _).
Qed.

Lemma upsert_writes_document_row_witness :
  unique_document_ids sample_db
  ∧ (wt_search_documents (Sqlite.upsertDocument 2 fresh_body [] sample_db).2
       = wt_search_documents sample_db ++ [inserted_row 2 fresh_body]
     ∧ wt_search_documents (D1.indexDocument 2 fresh_body [] sample_db).2
       = wt_search_documents sample_db ++ [inserted_row 2 fresh_body])
  ∧ (wt_search_documents (Sqlite.upsertDocument 2 sample_body [] sample_db).2
       = (λ r, if decide (r = sample_row)
               then updated_row 2 sample_body sample_row else r)
         <$> wt_search_documents sample_db
     ∧ wt_search_documents (D1.indexDocument 2 sample_body [] sample_db).2
       = (λ r, if decide (r = sample_row)
               then updated_row 2 sample_body sample_row else r)
         <$> wt_search_documents sample_db).
Proof.
  split_and!; [exact (proj1 sample_db_schema_ok)|..].
  - apply (upsert_writes_document_row 2 fresh_body [] sample_db
             (proj1 sample_db_schema_ok)). compute_done.
  - apply (upsert_writes_document_row 2 fresh_body [] sample_db
             (proj1 sample_db_schema_ok)). compute_done.
  - apply (proj2 (upsert_writes_document_row 2 sample_body [] sample_db
                    (proj1 sample_db_schema_ok)) sample_row);
      [by left|done..].
  - apply (proj2 (upsert_writes_document_row 2 sample_body [] sample_db
                    (proj1 sample_db_schema_ok)) sample_row);
      [by left|done..].
Defined.

Lemma upsert_reused_id_is_refused_witness :
  unique_document_ids sample_db
  ∧ sample_row ∈ wt_search_documents sample_db
  ∧ doc_id sample_row = body_id other_tenant_body
  ∧ doc_tenant sample_row ≠ body_tenant other_tenant_body
  ∧ Sqlite.upsertDocument 2 other_tenant_body ["z"] sample_db
    = (Rejected (UniqueConstraintFailed "wt_search_documents_id_idx"), sample_db)
  ∧ D1.indexDocument 2 other_tenant_body ["z"] sample_db
    = (Rejected (UniqueConstraintFailed "search_documents_id_idx"), sample_db).
Proof.
  assert (Hrow : sample_row ∈ wt_search_documents sample_db) by by left.
  assert (Htenant : doc_tenant sample_row ≠ body_tenant other_tenant_body)
    by done.
  pose proof (upsert_reused_id_is_refused 2 other_tenant_body ["z"] sample_db
                sample_row (proj1 sample_db_schema_ok) Hrow eq_refl
                (or_introl Htenant)) as (_ & Hsqlite & _ & Hd1).
  split_and!; [exact (proj1 sample_db_schema_ok)|done..].
Defined.

(** Two documents with the same [updated_at], listed with [limit: 10], come
    back [b] before [a]: not in ascending order of [id]. *)
Lemma getDocuments_ties_not_by_id :
  recency_ordered (D1.getDocuments first_ten_t1 tie_db)
  ∧ ¬ tie_break_by_id (D1.getDocuments first_ten_t1 tie_db).
Proof.
  split; [by apply listing_recency_ordered|].
  intros Hties.
  specialize (Hties 0%nat 1%nat _ _ eq_refl eq_refl (Nat.lt_0_1) eq_refl).
  by vm_compute in Hties.
Qed.

(** [tagDocument] on D1 takes any id; deleting that id, which has no
    document, removes the tag row. *)
Lemma deleteDocument_without_document_changes_tags :
  D1.getDocument "ghost" orphan_db = None
  ∧ ("ghost" ∉ doc_id <$> wt_search_documents orphan_db)
  ∧ (D1.deleteDocument "ghost" orphan_db).1 = Resolved ()
  ∧ (D1.deleteDocument "ghost" orphan_db).2 ≠ orphan_db.
Proof. split_and!; try done. by intros ?%elem_of_nil. Qed.

Lemma deleteDocument_removes_document_and_tags_witness :
  Sqlite.getDocument "d1" (Sqlite.deleteDocument "d1" sample_db).2 = None
  ∧ D1.getDocument "d1" (D1.deleteDocument "d1" sample_db).2 = None
  ∧ ("d9" ∉ doc_id <$> wt_search_documents sample_db)
  ∧ ("d9" ∉ search_document_id <$> wt_search_tags sample_db)
  ∧ (Sqlite.deleteDocument "d9" sample_db).2 = sample_db
  ∧ (D1.deleteDocument "d9" sample_db).2 = sample_db.
Proof.
  pose proof (deleteDocument_removes_document_and_tags "d1" sample_db)
    as (_ & _ & Hs & Hi & _).
  assert (Hdoc : "d9" ∉ doc_id <$> wt_search_documents sample_db)
    by compute_done.
  assert (Htag : "d9" ∉ search_document_id <$> wt_search_tags sample_db)
    by compute_done.
  pose proof (deleteDocument_removes_document_and_tags "d9" sample_db)
    as (_ & _ & _ & _ & _ & Hnoop).
  destruct (Hnoop Hdoc Htag) as [Hs9 Hi9].
  split_and!; done.
Defined.

Lemma listings_stay_within_tenant_witness :
  Sqlite._formatDocument (sample_row, Some "x,y")
    ∈ Sqlite.getDocuments list_t1 sample_db
  ∧ sd_tenant (Sqlite._formatDocument (sample_row, Some "x,y")) = "t1".
Proof.
  assert (Hin : Sqlite._formatDocument (sample_row, Some "x,y")
                  ∈ Sqlite.getDocuments list_t1 sample_db) by by left.
  split; [done|].
  apply (listings_stay_within_tenant [] list_t1 sample_db _ (or_introl Hin)).
Defined.

Lemma lookup_and_delete_by_id_alone_witness :
  unique_document_ids sample_db
  ∧ sample_row ∈ wt_search_documents sample_db
  ∧ (∃ sd, Sqlite.getDocument "d1" sample_db = Some sd ∧ shows sd sample_row)
  ∧ (∃ sd, D1.getDocument "d1" sample_db = Some sd ∧ shows sd sample_row)
  ∧ (sample_row ∉ wt_search_documents (Sqlite.deleteDocument "d1" sample_db).2)
  ∧ (sample_row ∉ wt_search_documents (D1.deleteDocument "d1" sample_db).2).
Proof.
  assert (Hrow : sample_row ∈ wt_search_documents sample_db) by by left.
  split; [exact (proj1 sample_db_schema_ok)|]. split; [exact Hrow|].
  exact (lookup_and_delete_by_id_alone sample_db sample_row
           (proj1 sample_db_schema_ok) Hrow).
Defined.

(** * Further properties of the adapters *)

(** ** The tag vocabulary *)

Lemma elem_of_distinct {A} `{EqDecision A} (l : list A) x :
  x ∈ distinct l ↔ x ∈ l.
Proof.
  unfold distinct. split.
  - apply first_by_key_subseteq.
  - intros (y & Hy & ->)%(first_by_key_covers (λ a, a)). done.
Qed.

Lemma NoDup_distinct {A} `{EqDecision A} (l : list A) : NoDup (distinct l).
Proof.
  unfold distinct.
  pose proof (first_by_key_NoDup (λ a : A, a) l) as Hnd.
  by rewrite list_fmap_id in Hnd.
Qed.

(** X1: [getTags] returns every tag that labels at least one document, each
    exactly once, whatever tenant the labelled documents belong to; both
    adapters give the same list. *)
Theorem getTags_lists_each_tag_once db :
  NoDup (Sqlite.getTags db)
  ∧ (∀ t, t ∈ Sqlite.getTags db ↔
       ∃ id, {| tag := t; search_document_id := id |} ∈ wt_search_tags db)
  ∧ D1.getTags db = Sqlite.getTags db.
Proof.
  split_and!; [apply NoDup_distinct| |done].
  intros t. unfold Sqlite.getTags. rewrite elem_of_distinct, list_elem_of_fmap.
  split.
  - intros ([t' id] & -> & Hr). by exists id.
  - intros (id & Hr). by exists {| tag := t; search_document_id := id |}.
Qed.

(** X2: after [deleteDocument] of an id, [getTags] lists exactly the tags
    that label some other id: a tag only the deleted document carried is gone
    from the vocabulary. *)
Theorem getTags_after_deleteDocument id db t :
  t ∈ Sqlite.getTags (Sqlite.deleteDocument id db).2
  ↔ ∃ id', id' ≠ id
           ∧ {| tag := t; search_document_id := id' |} ∈ wt_search_tags db.
Proof.
  destruct (deleteDocument_eq id db) as [-> _]. simpl.
  unfold Sqlite.getTags. rewrite elem_of_distinct, list_elem_of_fmap. split.
  - intros ([t' id'] & -> & [Hne Hr]%list_elem_of_filter). by exists id'.
  - intros (id' & Hne & Hr).
    exists {| tag := t; search_document_id := id' |}. split; [done|].
    by apply list_elem_of_filter.
Qed.

(** ** Tagging and untagging on D1 *)

(** X3: [tagDocument] never throws, leaves the documents alone, adds the
    pair and nothing else, asks for no stored document of that id, and a
    second identical call changes nothing. *)
Theorem tagDocument_adds_the_pair id t db :
  (D1.tagDocument id t db).1 = Resolved ()
  ∧ wt_search_documents (D1.tagDocument id t db).2 = wt_search_documents db
  ∧ (∀ r, r ∈ wt_search_tags (D1.tagDocument id t db).2
          ↔ r ∈ wt_search_tags db ∨ r = {| tag := t; search_document_id := id |})
  ∧ storedTags id (D1.tagDocument id t db).2 = {[ t ]} ∪ storedTags id db
  ∧ D1.tagDocument id t (D1.tagDocument id t db).2
    = (Resolved (), (D1.tagDocument id t db).2).
Proof.
  unfold D1.tagDocument, insertInto_tags_doNothing. simpl.
  assert (Hrows : ∀ r,
    r ∈ wt_search_tags
          (if decide ({| tag := t; search_document_id := id |} ∈ wt_search_tags db)
           then db
           else {| wt_search_documents := wt_search_documents db;
                   wt_search_tags := wt_search_tags db
                     ++ [{| tag := t; search_document_id := id |}] |})
    ↔ r ∈ wt_search_tags db ∨ r = {| tag := t; search_document_id := id |}).
  { intros r. case_decide as Hin; simpl.
    - split; [by left|]. by intros [?| ->].
    - by rewrite elem_of_app, list_elem_of_singleton. }
  split_and!; [done|by case_decide|done| |].
  - apply set_eq. intros t'.
    rewrite elem_of_union, elem_of_singleton, !elem_of_storedTags, Hrows.
    split; [intros [?|[= ->]]; auto|intros [->|?]; auto].
  - f_equal. rewrite decide_True; [done|]. apply Hrows. by right.
Qed.

(** X4: [untagDocument] never throws, leaves the documents alone, removes
    the pair and nothing else, and changes nothing when the pair is not
    stored. *)
Theorem untagDocument_removes_the_pair id t db :
  (D1.untagDocument id t db).1 = Resolved ()
  ∧ wt_search_documents (D1.untagDocument id t db).2 = wt_search_documents db
  ∧ (∀ r, r ∈ wt_search_tags (D1.untagDocument id t db).2
          ↔ r ∈ wt_search_tags db ∧ r ≠ {| tag := t; search_document_id := id |})
  ∧ storedTags id (D1.untagDocument id t db).2 = storedTags id db ∖ {[ t ]}
  ∧ ({| tag := t; search_document_id := id |} ∉ wt_search_tags db →
     (D1.untagDocument id t db).2 = db).
Proof.
  unfold D1.untagDocument, deleteFrom_tags. simpl.
  assert (Hrows : ∀ r,
    r ∈ filter (λ r, ¬ (search_document_id r = id ∧ tag r = t)) (wt_search_tags db)
    ↔ r ∈ wt_search_tags db ∧ r ≠ {| tag := t; search_document_id := id |}).
  { intros [t' id']. rewrite list_elem_of_filter. simpl. split.
    - intros [Hne Hr]. split; [done|]. intros [= -> ->]. by apply Hne.
    - intros [Hr Hne]. split; [|done]. intros [-> ->]. by apply Hne. }
  split_and!; [done|done|done| |].
  - apply set_eq. intros t'.
    rewrite elem_of_difference, elem_of_singleton, !elem_of_storedTags, Hrows.
    split.
    + intros [Hr Hne]. split; [done|]. intros ->. by apply Hne.
    + intros [Hr Hne]. split; [done|]. intros [= ->]. by apply Hne.
  - intros Hnot. rewrite filter_all; [by destruct db|].
    intros [t' id'] Hr [Hid Ht]. simpl in *. subst. by apply Hnot.
Qed.

(** X5: tagging a document with a tag it does not carry and untagging it
    again gives back the database as it was. *)
Theorem untagDocument_undoes_tagDocument id t db :
  {| tag := t; search_document_id := id |} ∉ wt_search_tags db →
  (D1.untagDocument id t (D1.tagDocument id t db).2).2 = db.
Proof.
  intros Hnot. unfold D1.untagDocument, D1.tagDocument, deleteFrom_tags,
    insertInto_tags_doNothing. simpl.
  rewrite decide_False by done. simpl.
  rewrite filter_app, filter_cons, decide_False by (intros Hne; by apply Hne).
  rewrite filter_nil, app_nil_r.
  rewrite filter_all; [by destruct db|].
  intros [t' id'] Hr [Hid Ht]. simpl in *. subst. by apply Hnot.
Qed.

(** ** Tags through [group_concat] and [split] *)

Lemma split_comma_nonempty s : split_comma s ≠ [].
Proof.
  destruct s as [|c s]; simpl; [done|].
  case_decide; [done|]. by destruct (split_comma s).
Qed.

Lemma split_comma_app s r :
  split_comma (String.append s (String ","%char r))
  = split_comma s ++ split_comma r.
Proof.
  induction s as [|c s IH]; simpl.
  - done.
  - case_decide; [by rewrite IH|]. rewrite IH.
    pose proof (split_comma_nonempty s) as Hne.
    by destruct (split_comma s).
Qed.

Lemma split_comma_free s : comma_free s → split_comma s = [s].
Proof.
  induction s as [|c s IH]; simpl; [done|].
  intros [Hc Hs]. rewrite decide_False by done. by rewrite IH.
Qed.

(** Splitting the joined text gives the pieces of every tag, in order. *)
Lemma split_concat (ts : list string) :
  ts ≠ [] → split_comma (String.concat "," ts) = ts ≫= split_comma.
Proof.
  induction ts as [|t ts IH]; [done|]. intros _.
  destruct ts as [|t' ts].
  - simpl. by rewrite app_nil_r.
  - change (String.concat "," (t :: t' :: ts))
      with (String.append t (String ","%char (String.concat "," (t' :: ts)))).
    rewrite split_comma_app, IH by done. by rewrite bind_cons.
Qed.

Lemma split_concat_plain (ts : list string) :
  ts ≠ [] → (∀ t, t ∈ ts → comma_free t) →
  split_comma (String.concat "," ts) = ts.
Proof.
  intros Hne Hfree. rewrite split_concat by done. clear Hne.
  induction ts as [|t ts IH]; [done|].
  rewrite bind_cons, split_comma_free by (apply Hfree; by left).
  simpl. f_equal. apply IH. intros t' Ht'. apply Hfree. by right.
Qed.

Lemma concat_plain_nonempty (ts : list string) :
  ts ≠ [] → (∀ t, t ∈ ts → t ≠ EmptyString) →
  String.concat "," ts ≠ EmptyString.
Proof.
  destruct ts as [|t ts]; [done|]. intros _ Hne.
  assert (Ht : t ≠ EmptyString) by (apply Hne; by left).
  destruct t as [|c t]; [done|]. by destruct ts.
Qed.

(** What [_formatDocument] makes of the joined text. *)
Lemma sqlite_formatted_text d (s : string) :
  sd_tags (Sqlite._formatDocument (d, Some s))
  = Some (if decide (s = EmptyString) then [] else split_comma s).
Proof.
  unfold Sqlite._formatDocument. simpl.
  destruct (decide (s = EmptyString)) as [->|Hne]; [done|].
  by rewrite bool_decide_eq_true_2.
Qed.

Lemma sqlite_formatted_tags d id db :
  sd_tags (Sqlite._formatDocument (d, joined_tags id db))
  = Some (if decide (String.concat "," (storedTagList id db) = EmptyString)
          then [] else storedTagList id db ≫= split_comma).
Proof.
  unfold joined_tags.
  destruct (storedTagList id db) as [|t ts] eqn:Hts; [done|].
  rewrite sqlite_formatted_text. case_decide; [done|].
  by rewrite split_concat.
Qed.

(** ** The groups of documents left-joined with tags *)

Section WholeGroupsOfAJoin.
Context {A B K : Type} `{EqDecision K}.
Variables (kid : A → K) (F : A → list (A * B)).
Hypothesis F_left : ∀ a j, j ∈ F a → j.1 = a.

(** With one left row per key, the groups are the rows of each left row. *)
Lemma groupBy_of_join (l : list A) :
  NoDup (kid <$> l) →
  groupBy (λ j, kid j.1) (l ≫= F)
  = l ≫= λ a, match F a with
              | [] => []
              | j0 :: _ => [(j0, F a)]
              end.
Proof.
  induction l as [|a l IH]; [done|].
  rewrite fmap_cons, NoDup_cons. intros [Ha Hnd].
  rewrite !bind_cons, <- IH by done. clear IH.
  assert (Hrest : ∀ x, x ∈ l ≫= F → kid x.1 ≠ kid a).
  { intros x (a' & Hx & Ha')%list_elem_of_bind Hk.
    rewrite (F_left a' x Hx) in Hk. apply Ha. rewrite <- Hk.
    by apply list_elem_of_fmap_2. }
  pose proof (F_left a) as Hleft.
  destruct (F a) as [|j0 js] eqn:HF; [done|].
  unfold groupBy.
  change ((j0 :: js) ++ l ≫= F) with (j0 :: (js ++ l ≫= F)).
  rewrite (first_by_key_run kid (λ j : A * B, kid j.1)).
  - rewrite fmap_cons. simpl. f_equal.
    + f_equal. change (j0 :: js ++ l ≫= F) with ((j0 :: js) ++ l ≫= F).
      rewrite filter_app, filter_all, filter_none; [by rewrite app_nil_r| |].
      * intros x Hx Hk. apply (Hrest x Hx). rewrite Hk, (Hleft j0); [done|by left].
      * intros x Hx. by rewrite (Hleft x), (Hleft j0) by (done || by left).
    + apply fmap_ext_elem_of. intros x Hx%first_by_key_subseteq.
      f_equal. change (j0 :: js ++ l ≫= F) with ((j0 :: js) ++ l ≫= F).
      rewrite filter_app, filter_none; [done|].
      intros y Hy Hk. apply (Hrest x Hx). by rewrite <- Hk, (Hleft y).
  - intros j Hj. rewrite (Hleft j), (Hleft j0); [done|by left|by right].
  - intros x Hx. rewrite (Hleft j0) by (by left). by apply Hrest.
Qed.
End WholeGroupsOfAJoin.

(** The group of a document: the document with the joined text of its
    tags. *)
Lemma select_document_rows (d : SearchDocumentRow) db :
  Sqlite.select_document_with_tags <$>
  (match (match filter (λ t, search_document_id t = doc_id d)
                  (wt_search_tags db) with
          | [] => [(d, None)]
          | bs => (λ b, (d, Some b)) <$> bs
          end) with
   | [] => []
   | j0 :: _ =>
       [(j0, match filter (λ t, search_document_id t = doc_id d)
                     (wt_search_tags db) with
             | [] => [(d, None)]
             | bs => (λ b, (d, Some b)) <$> bs
             end)]
   end) = [(d, joined_tags (doc_id d) db)].
Proof.
  unfold joined_tags, storedTagList,
    Sqlite.select_document_with_tags, group_concat.
  destruct (filter _ (wt_search_tags db)) as [|b bs]; [done|].
  simpl. do 2 f_equal.
  rewrite <- !list_fmap_compose.
  assert (Hall : ∀ l : list SearchTagRow,
    omap (λ v, v) (column tag ∘ snd ∘ (λ b0, (d, Some b0)) <$> l) = tag <$> l).
  { induction l as [|x l IHl]; [done|]. csimpl. by rewrite IHl. }
  by rewrite Hall.
Qed.

(** [getDocuments] on sqlite, by the stored rows. *)
Lemma sqlite_getDocuments_eq options db :
  unique_document_ids db →
  Sqlite.getDocuments options db
  = Sqlite._formatDocument <$>
    limit (opt_limit options)
      (orderBy_desc (λ r, doc_updated_at r.1)
         ((λ d, (d, joined_tags (doc_id d) db))
          <$> filter (in_scope options) (wt_search_documents db))).
Proof.
  intros Hnd. unfold Sqlite.getDocuments. cbv zeta.
  rewrite (scope_filter fst). unfold leftJoin.
  rewrite (filter_left_bind _ (leftJoin_rows_left (wt_search_tags db))
             _ (in_scope options)) by done.
  rewrite (groupBy_of_join doc_id _ (leftJoin_rows_left (wt_search_tags db)))
    by (by apply NoDup_fmap_filter).
  do 3 f_equal.
  induction (filter (in_scope options) (wt_search_documents db)) as [|d l IH];
    [done|].
  by rewrite bind_cons, fmap_app, IH, fmap_cons, select_document_rows.
Qed.

(** [getDocument] on sqlite, for the id of a stored row. *)
Lemma sqlite_getDocument_unique db d :
  unique_document_ids db → d ∈ wt_search_documents db →
  Sqlite.getDocument (doc_id d) db
  = Some (Sqlite._formatDocument (d, joined_tags (doc_id d) db)).
Proof.
  intros Hnd Hd. unfold Sqlite.getDocument. cbv zeta. unfold leftJoin.
  set (F := λ a : SearchDocumentRow,
              match filter (λ b, search_document_id b = doc_id a)
                      (wt_search_tags db) with
              | [] => [(a, None)]
              | bs => (λ b, (a, Some b)) <$> bs
              end).
  assert (Hfilter :
    filter (λ j : SearchDocumentRow * option SearchTagRow,
              doc_id j.1 = doc_id d) (wt_search_documents db ≫= F)
    = filter (λ r, doc_id r = doc_id d) (wt_search_documents db) ≫= F)
    by by apply (filter_left_bind F (leftJoin_rows_left (wt_search_tags db))).
  rewrite Hfilter, filter_unique_id by done.
  rewrite (groupBy_of_join doc_id F (leftJoin_rows_left (wt_search_tags db)))
    by (simpl; apply NoDup_singleton).
  change ([d] ≫= _) with ((λ a, match F a with
                                    | [] => []
                                    | j0 :: _ => [(j0, F a)]
                                    end) d ++ []).
  cbv beta. rewrite app_nil_r. unfold F.
  by rewrite select_document_rows.
Qed.

(** ** The tags a read returns *)

(** X6: on sqlite, [getDocument] of a stored document returns the row's
    columns and, as [tags], the comma-separated pieces of its stored tags in
    stored order: a stored tag with a comma in it comes back as several
    tags, and when the joined text is empty (no tag, or only the empty tag)
    no tag comes back. *)
Theorem sqlite_getDocument_splits_joined_tags db d :
  unique_document_ids db → d ∈ wt_search_documents db →
  ∃ sd, Sqlite.getDocument (doc_id d) db = Some sd
        ∧ shows sd d
        ∧ sd_tags sd
          = Some (if decide (String.concat "," (storedTagList (doc_id d) db)
                             = EmptyString)
                  then []
                  else storedTagList (doc_id d) db ≫= split_comma).
Proof.
  intros Hnd Hd. eexists. split; [by apply sqlite_getDocument_unique|].
  split; [done|]. apply sqlite_formatted_tags.
Qed.

Lemma plain_tags_formatted d id db :
  (∀ t, t ∈ storedTagList id db → plain_tag t) →
  sd_tags (Sqlite._formatDocument (d, joined_tags id db))
  = Some (storedTagList id db).
Proof.
  intros Hplain. rewrite sqlite_formatted_tags.
  destruct (storedTagList id db) as [|t ts] eqn:Hts;
    [by rewrite decide_True|].
  rewrite decide_False.
  - rewrite <- split_concat by done. rewrite split_concat_plain; [done..|].
    intros t' Ht'. by apply Hplain.
  - apply concat_plain_nonempty; [done|]. intros t' Ht'. by apply Hplain.
Qed.

(** X7: on sqlite, when the stored tags of a document are not empty and
    hold no comma, [getDocument] returns exactly these tags, in stored
    order. *)
Theorem sqlite_getDocument_returns_stored_tags db d :
  unique_document_ids db → d ∈ wt_search_documents db →
  (∀ t, t ∈ storedTagList (doc_id d) db → plain_tag t) →
  Sqlite.getDocument (doc_id d) db
  = Some {| sd_id := doc_id d; sd_tenant := doc_tenant d;
            sd_index := doc_index d; sd_data := JSON_parse (doc_data d);
            sd_tags := Some (storedTagList (doc_id d) db);
            sd_createdAt := doc_created_at d;
            sd_updatedAt := doc_updated_at d |}.
Proof.
  intros Hnd Hd Hplain. rewrite sqlite_getDocument_unique by done.
  pose proof (plain_tags_formatted d (doc_id d) db Hplain) as Htags.
  destruct (Sqlite._formatDocument (d, joined_tags (doc_id d) db)) eqn:Hfmt.
  simpl in Htags. subst sd_tags0.
  unfold Sqlite._formatDocument in Hfmt. simpl in Hfmt.
  by injection Hfmt as <- <- <- <- _ <- <-.
Qed.

(** X8: with a limit [n], [getDocuments] returns stored documents of the
    tenant (and of the index, when a non-empty one is given), each once: the
    [n] most recent of them, all of them when there are no more than [n]; on
    sqlite each comes with all its stored tags, in some order (for stored
    tags that are not empty and hold no comma). *)
Theorem getDocuments_lists_every_document tenant index n db :
  unique_document_ids db →
  let options := {| opt_tenant := tenant; opt_index := index;
                    opt_limit := Some n |} in
  let in_view := filter (in_scope options) (wt_search_documents db) in
  (∃ picked,
     most_recent n in_view picked
     ∧ D1.getDocuments options db = D1._formatDocument <$> picked
     ∧ Forall2 shows (Sqlite.getDocuments options db) picked)
  ∧ ((length in_view ≤ n)%nat →
     D1.getDocuments options db ≡ₚ D1._formatDocument <$> in_view
     ∧ without_tags <$> Sqlite.getDocuments options db
       ≡ₚ D1._formatDocument <$> in_view)
  ∧ (∀ sd, sd ∈ Sqlite.getDocuments options db →
       (∀ t, t ∈ storedTagList (sd_id sd) db → plain_tag t) →
       ∃ ts, sd_tags sd = Some ts ∧ ts ≡ₚ storedTagList (sd_id sd) db).
Proof.
  intros Hnd options in_view.
  assert (Hd1 : D1.getDocuments options db
                = D1._formatDocument
                  <$> take n (orderBy_desc doc_updated_at in_view)).
  { unfold D1.getDocuments. cbv zeta. by rewrite (scope_filter (λ d, d)). }
  assert (Hpicked : most_recent n in_view
                      (take n (orderBy_desc doc_updated_at in_view))).
  { apply take_most_recent.
    - by apply NoDup_filter, (NoDup_fmap_1 doc_id).
    - apply orderBy_desc_Permutation.
    - apply orderBy_desc_sorted. }
  split_and!.
  - exists (take n (orderBy_desc doc_updated_at in_view)).
    split_and!; [done..|].
    apply shows_formatted. by rewrite getDocuments_agree.
  - intros Hfits. rewrite getDocuments_agree, Hd1 by done.
    by rewrite (most_recent_all n in_view _ Hpicked Hfits).
  - intros sd Hsd Hplain. rewrite sqlite_getDocuments_eq in Hsd by done.
    apply listing_elem_of in Hsd as (r & Hr & ->).
    apply list_elem_of_fmap in Hr as (d & -> & _).
    exists (storedTagList (doc_id d) db). split; [|done].
    by apply plain_tags_formatted.
Qed.

Lemma group_concat_Some (l : list string) :
  group_concat (Some <$> l)
  = match l with
    | [] => None
    | _ => Some (String.concat "," l)
    end.
Proof.
  unfold group_concat.
  assert (Hall : omap (λ v, v) (Some <$> l) = l).
  { induction l as [|x l IH]; [done|]. csimpl. by rewrite IH. }
  rewrite Hall. by destruct l.
Qed.

(** [getDocumentsByTags] on sqlite, by the groups of the inner join. *)
Lemma sqlite_getDocumentsByTags_eq (tags : list string) options db :
  Sqlite.getDocumentsByTags tags options db
  = Sqlite._formatDocument <$>
    limit (opt_limit options)
      (orderBy_desc (λ r, doc_updated_at r.1)
         ((λ g : (SearchTagRow * SearchDocumentRow)
                 * list (SearchTagRow * SearchDocumentRow),
             (g.1.2, group_concat (Some <$> (tag <$> (fst <$> g.2)))))
          <$> filter (λ g, length g.2 = length tags)
                (groupBy (λ j, doc_id j.2)
                   (filter (λ j, in_scope options j.2)
                      (filter (λ j, tag j.1 ∈ tags)
                         (innerJoin search_document_id doc_id
                            (wt_search_tags db) (wt_search_documents db))))))).
Proof.
  unfold Sqlite.getDocumentsByTags. cbv zeta.
  rewrite <- (scope_filter snd).
  set (joined := innerJoin search_document_id doc_id
                   (wt_search_tags db) (wt_search_documents db)).
  set (queryD := if truthy_string (opt_index options)
                 then filter (λ j : SearchTagRow * SearchDocumentRow,
                        Some (doc_index j.2) = opt_index options)
                        (filter (λ j, doc_tenant j.2 = opt_tenant options)
                           (filter (λ j, tag j.1 ∈ tags) joined))
                 else filter (λ j, doc_tenant j.2 = opt_tenant options)
                        (filter (λ j, tag j.1 ∈ tags) joined)).
  assert (Hquery :
    (if truthy_string (opt_index options)
     then filter (λ j : SearchTagRow * option SearchDocumentRow,
            column doc_index j.2 = opt_index options)
            (filter (λ j, column doc_tenant j.2 = Some (opt_tenant options))
               (filter (λ j, tag j.1 ∈ tags)
                  (leftJoin doc_id search_document_id
                     (wt_search_tags db) (wt_search_documents db))))
     else filter (λ j, column doc_tenant j.2 = Some (opt_tenant options))
            (filter (λ j, tag j.1 ∈ tags)
               (leftJoin doc_id search_document_id
                  (wt_search_tags db) (wt_search_documents db))))
    = with_right <$> queryD).
  { assert (Htenant :
      filter (λ j : SearchTagRow * option SearchDocumentRow,
                column doc_tenant j.2 = Some (opt_tenant options))
        (filter (λ j, tag j.1 ∈ tags)
           (leftJoin doc_id search_document_id
              (wt_search_tags db) (wt_search_documents db)))
      = with_right <$> filter (λ j, doc_tenant j.2 = opt_tenant options)
                         (filter (λ j, tag j.1 ∈ tags) joined)).
    { rewrite !list_filter_filter.
      rewrite (filter_leftJoin_matched search_document_id doc_id).
      - f_equal. apply list_filter_iff. intros [t d]. simpl.
        split; intros [Ht ?]; (split; [congruence|done]).
      - intros [t [d|]]; simpl; [by eexists|by intros [[=] _]]. }
    unfold queryD. rewrite Htenant.
    destruct (truthy_string (opt_index options)); [|done].
    apply filter_fmap_comm. by intros [t d]. }
  rewrite Hquery. clear Hquery. generalize queryD. clear. intros query.
  rewrite (groupBy_fmap with_right (λ j, doc_id j.2)
             (λ j, column doc_id j.2))
    by (intros [? ?] [? ?]; simpl; split; congruence).
  rewrite (filter_fmap_comm _ _ (λ g, length g.2 = length tags)).
  2:{ intros [j rows]. simpl. rewrite <- !list_fmap_compose.
      rewrite count_all_Some; [done|]. intros [t d]. by eexists. }
  rewrite (omap_fmap_Some _ _
             (λ g, (g.1.2, group_concat ((λ j, Some (tag j.1))
                                         <$> (with_right <$> g.2)))))
    by by intros [[t d] rows].
  do 3 f_equal. apply fmap_ext_elem_of. intros g _.
  by rewrite <- !list_fmap_compose.
Qed.

Lemma matched_tags_NoDup id (tags : list string) (table : list SearchTagRow) :
  NoDup table →
  NoDup (tag <$> filter (λ t, search_document_id t = id ∧ tag t ∈ tags) table).
Proof.
  intros Hnd. apply NoDup_fmap_2_strong; [|by apply NoDup_filter].
  intros [t1 i1] [t2 i2] [[Hi1 _] _]%list_elem_of_filter
    [[Hi2 _] _]%list_elem_of_filter. simpl in *. congruence.
Qed.

Lemma matched_tags_stored id (tags : list string) db :
  tag <$> filter (λ t, search_document_id t = id ∧ tag t ∈ tags)
            (wt_search_tags db)
  = filter (λ t, t ∈ tags) (storedTagList id db).
Proof.
  unfold storedTagList.
  rewrite (filter_fmap_comm tag (λ t, t ∈ tags) (λ r, tag r ∈ tags)) by done.
  rewrite list_filter_filter. f_equal. apply list_filter_iff. tauto.
Qed.

(** X9: on sqlite, a document that [getDocumentsByTags] returns carries as
    [tags] the tags that were searched for, each once and in some order, and
    none of the other tags stored for it. (For searched tags that are not
    empty and hold no comma.) *)
Theorem sqlite_getDocumentsByTags_shows_searched_tags
    (tags : list string) options db sd :
  schema_ok db → (∀ t, t ∈ tags → plain_tag t) →
  sd ∈ Sqlite.getDocumentsByTags tags options db →
  ∃ ts, sd_tags sd = Some ts ∧ ts ≡ₚ tags.
Proof.
  intros [Hids Hrows] Hplain. rewrite sqlite_getDocumentsByTags_eq.
  intros (r & (g & -> & [Hlen [Hg Hrows_g]%elem_of_groupBy]%list_elem_of_filter)%list_elem_of_fmap
          & ->)%listing_elem_of.
  destruct g as [[t d] rows]. cbn [fst snd] in *.
  apply list_elem_of_filter in Hg as [Hscope [Htag Hj]%list_elem_of_filter].
  cbn [fst snd] in *. apply elem_of_innerJoin in Hj as (_ & Hd & _).
  assert (Hfst : fst <$> rows
                 = filter (λ t, search_document_id t = doc_id d ∧ tag t ∈ tags)
                     (wt_search_tags db)).
  { rewrite Hrows_g. by apply tagged_group_rows. }
  rewrite Hfst, matched_tags_stored, group_concat_Some.
  assert (Hcount : length (filter (λ t, search_document_id t = doc_id d
                                        ∧ tag t ∈ tags) (wt_search_tags db))
                   = length tags)
    by (by rewrite <- Hfst, length_fmap).
  apply tag_match_count in Hcount as [Hnd Hall]; [|done].
  assert (Hperm : filter (λ t, t ∈ tags) (storedTagList (doc_id d) db) ≡ₚ tags).
  { apply NoDup_Permutation; [|done|].
    - rewrite <- matched_tags_stored. by apply matched_tags_NoDup.
    - intros t'. rewrite list_elem_of_filter. split; [by intros [? _]|].
      intros Ht'. split; [done|].
      unfold storedTagList. by apply elem_of_existing_tags, Hall. }
  exists (filter (λ t, t ∈ tags) (storedTagList (doc_id d) db)).
  split; [|done].
  assert (Hne : filter (λ t, t ∈ tags) (storedTagList (doc_id d) db) ≠ []).
  { intros Hnil. rewrite Hnil in Hperm. apply Permutation_nil_l in Hperm.
    rewrite <- Hperm in Htag. by apply elem_of_nil in Htag. }
  destruct (filter (λ t, t ∈ tags) (storedTagList (doc_id d) db))
    as [|t0 ts] eqn:Hmatched; [done|].
  rewrite sqlite_formatted_text. rewrite decide_False.
  - f_equal. apply split_concat_plain; [done|].
    intros t' Ht'. apply Hplain. by rewrite <- Hperm.
  - apply concat_plain_nonempty; [done|].
    intros t' Ht'. apply Hplain. by rewrite <- Hperm.
Qed.

(** ** Reading back what an upsert wrote *)

(** The row an upsert leaves for its id, against the document it returns. *)
Lemma documents_after_row cond `{∀ r, Decision (cond r)} now document docs docs' :
  (∀ r, doc_id r = body_id document ∧ doc_tenant r = body_tenant document
        ∧ doc_index r = body_index document → cond r) →
  documents_after cond now document docs = Some docs' →
  ∃ d', d' ∈ docs' ∧ doc_id d' = body_id document
        ∧ doc_tenant d' = body_tenant document
        ∧ doc_index d' = body_index document
        ∧ doc_data d' = JSON_stringify (body_data document)
        ∧ doc_updated_at d' = now
        ∧ match head (filter (λ r, doc_id r = body_id document
                                   ∧ doc_tenant r = body_tenant document
                                   ∧ doc_index r = body_index document) docs) with
          | Some e => e ∈ docs ∧ doc_created_at d' = doc_created_at e
          | None => doc_created_at d' = now
          end.
Proof.
  intros Hcond. unfold documents_after.
  destruct (filter _ docs) as [|e es] eqn:Hfilter; simpl.
  - case_decide; [done|]. intros [= <-].
    exists (inserted_row now document). split_and!; try done.
    apply elem_of_app. right. by left.
  - intros [= <-].
    assert (He : e ∈ filter (λ r, doc_id r = body_id document
                 ∧ doc_tenant r = body_tenant document
                 ∧ doc_index r = body_index document) docs)
      by (rewrite Hfilter; by left).
    apply list_elem_of_filter in He as [(Hid & Hten & Hidx) He].
    exists (updated_row now document e). split_and!; try done.
    apply list_elem_of_fmap. exists e. split; [|done].
    by rewrite decide_True by (by apply Hcond).
Qed.

Lemma selectExisting_head document db :
  Sqlite.selectExisting document db
  = (λ r, (doc_id r, doc_created_at r))
    <$> head (filter (λ r, doc_id r = body_id document
                           ∧ doc_tenant r = body_tenant document
                           ∧ doc_index r = body_index document)
                (wt_search_documents db))
  ∧ D1.selectExisting document db = Sqlite.selectExisting document db.
Proof.
  split; [|done]. unfold Sqlite.selectExisting.
  by destruct (filter _ (wt_search_documents db)).
Qed.

(** The document an upsert returns shows the row it left, when the stored
    creation time is not 0. *)
Lemma returned_document_shows_row cond `{∀ r, Decision (cond r)}
    now document db docs' :
  (∀ r, doc_id r = body_id document ∧ doc_tenant r = body_tenant document
        ∧ doc_index r = body_index document → cond r) →
  (∀ d, d ∈ wt_search_documents db → doc_id d = body_id document →
        doc_created_at d ≠ 0%Z) →
  documents_after cond now document (wt_search_documents db) = Some docs' →
  ∃ d', d' ∈ docs' ∧ doc_id d' = body_id document
        ∧ D1._formatDocument d'
          = returned_document now document (Sqlite.selectExisting document db) None.
Proof.
  intros Hcond Hcreated Hdocs.
  destruct (documents_after_row cond now document _ _ Hcond Hdocs)
    as (d' & Hd' & Hid & Hten & Hidx & Hdata & Hupd & Hhead).
  exists d'. split_and!; [done..|].
  rewrite (proj1 (selectExisting_head document db)).
  unfold D1._formatDocument, returned_document, JSON_parse.
  unfold JSON_stringify in Hdata.
  rewrite Hid, Hten, Hidx, Hdata, Hupd.
  destruct (head _) as [e|] eqn:Hhd; simpl.
  - destruct Hhead as [He Hc]. rewrite Hc.
    assert (Hmatch : e ∈ filter (λ r, doc_id r = body_id document
                 ∧ doc_tenant r = body_tenant document
                 ∧ doc_index r = body_index document) (wt_search_documents db))
      by by apply head_Some_elem_of.
    apply list_elem_of_filter in Hmatch as [(Heid & _) _].
    by rewrite bool_decide_eq_true_2 by (by apply Hcreated).
  - by rewrite Hhead.
Qed.

(** X10: after an upsert that completes, [getDocument] of its id returns the
    document the upsert returned (on sqlite: but for the [tags] property),
    provided the creation time stored for that id, if any, is not 0. *)
Theorem upsert_then_getDocument now document tags db :
  unique_document_ids db →
  (∀ d, d ∈ wt_search_documents db → doc_id d = body_id document →
        doc_created_at d ≠ 0%Z) →
  (∀ sd, (D1.indexDocument now document tags db).1 = Resolved sd →
         D1.getDocument (body_id document)
           (D1.indexDocument now document tags db).2 = Some sd)
  ∧ (∀ sd, (Sqlite.upsertDocument now document tags db).1 = Resolved sd →
           without_tags <$> Sqlite.getDocument (body_id document)
                              (Sqlite.upsertDocument now document tags db).2
           = Some (without_tags sd)).
Proof.
  intros Hnd Hcreated.
  rewrite sqlite_upsert_normal_form, d1_index_normal_form. split.
  - destruct (documents_after _ _ _ _) as [docs'|] eqn:Hdocs; [|done].
    destruct (returned_document_shows_row _ now document db docs'
                (λ r Hr, Hr) Hcreated Hdocs) as (d' & Hd' & Hid & Hfmt).
    apply documents_after_unique in Hdocs; [|done].
    destruct (d1_tags_after _ _ _) as [table|]; [|done].
    cbn [fst snd]. intros sd [= <-].
    change (D1.selectExisting document db)
      with (Sqlite.selectExisting document db).
    rewrite <- Hfmt, <- Hid. by apply d1_getDocument_unique.
  - destruct (documents_after _ _ _ _) as [docs'|] eqn:Hdocs; [|done].
    destruct (returned_document_shows_row _ now document db docs'
                (λ r Hr, proj1 Hr) Hcreated Hdocs) as (d' & Hd' & Hid & Hfmt).
    apply documents_after_unique in Hdocs; [|done].
    destruct (sqlite_tags_after _ _ _) as [table|]; [|done].
    cbn [fst snd]. intros sd [= <-]. rewrite getDocument_agree.
    change (without_tags (returned_document now document
                            (Sqlite.selectExisting document db) (Some tags)))
      with (returned_document now document
              (Sqlite.selectExisting document db) None).
    rewrite <- Hfmt, <- Hid. by apply d1_getDocument_unique.
Qed.

Lemma filter_unique_match (P : SearchDocumentRow → Prop)
    `{∀ r, Decision (P r)} (docs : list SearchDocumentRow) d :
  NoDup (doc_id <$> docs) → d ∈ docs → P d →
  (∀ r, P r → doc_id r = doc_id d) → filter P docs = [d].
Proof.
  intros Hnd (l1 & l2 & ->)%list_elem_of_split HPd Hid.
  rewrite fmap_app, fmap_cons in Hnd.
  apply NoDup_app in Hnd as (_ & Hl1 & [Hl2 _]%NoDup_cons).
  rewrite filter_app, filter_cons, decide_True by done.
  rewrite !filter_none; [done| |].
  - intros r Hr HP. apply Hl2. rewrite <- (Hid r HP).
    by apply list_elem_of_fmap_2.
  - intros r Hr HP. eapply Hl1; [by apply list_elem_of_fmap_2|].
    rewrite (Hid r HP). by left.
Qed.

(** X11: an upsert that updates a stored row and completes returns
    [updatedAt = now] and the stored creation time as [createdAt], except
    that for a stored creation time of 0 it returns [now]; the row keeps its
    stored creation time either way. *)
Theorem upsert_returns_creation_time now document tags db d sd :
  unique_document_ids db → d ∈ wt_search_documents db →
  doc_id d = body_id document → doc_tenant d = body_tenant document →
  doc_index d = body_index document →
  (Sqlite.upsertDocument now document tags db).1 = Resolved sd
  ∨ (D1.indexDocument now document tags db).1 = Resolved sd →
  sd_updatedAt sd = now
  ∧ sd_createdAt sd
    = (if decide (doc_created_at d = 0%Z) then now else doc_created_at d)
  ∧ updated_row now document d
    ∈ wt_search_documents (Sqlite.upsertDocument now document tags db).2
  ∧ updated_row now document d
    ∈ wt_search_documents (D1.indexDocument now document tags db).2.
Proof.
  intros Hnd Hd Hid Hten Hidx Hsd.
  assert (Hexisting : Sqlite.selectExisting document db
                      = Some (doc_id d, doc_created_at d)).
  { rewrite (proj1 (selectExisting_head document db)).
    rewrite (filter_unique_match _ _ d); [done..|].
    intros r (? & _). congruence. }
  assert (Hreturned : ∀ tags',
    sd = returned_document now document (Sqlite.selectExisting document db) tags' →
    sd_updatedAt sd = now
    ∧ sd_createdAt sd
      = (if decide (doc_created_at d = 0%Z) then now else doc_created_at d)).
  { intros tags' ->. rewrite Hexisting. unfold returned_document. simpl.
    split; [done|]. destruct (decide (doc_created_at d = 0%Z)) as [->|Hne].
    - done.
    - by rewrite bool_decide_eq_true_2. }
  assert (Hrow : ∀ docs', docs'
      = (λ r, if decide (r = d) then updated_row now document d else r)
        <$> wt_search_documents db → updated_row now document d ∈ docs').
  { intros docs' ->. apply list_elem_of_fmap. exists d.
    by rewrite decide_True. }
  assert (Hsqlite : documents_after (λ r, doc_id r = body_id document)
                      now document (wt_search_documents db)
    = Some ((λ r, if decide (r = d) then updated_row now document d else r)
            <$> wt_search_documents db)).
  { apply documents_after_existing; [done..|].
    intros r Hr. split; [|by intros ->].
    intros Hrid. eapply unique_id_inj; eauto. congruence. }
  assert (Hd1 : documents_after (λ r, doc_id r = body_id document
                                      ∧ doc_tenant r = body_tenant document
                                      ∧ doc_index r = body_index document)
                  now document (wt_search_documents db)
    = Some ((λ r, if decide (r = d) then updated_row now document d else r)
            <$> wt_search_documents db)).
  { apply documents_after_existing; [done..|].
    intros r Hr. split; [|by intros ->].
    intros (Hrid & _). eapply unique_id_inj; eauto. congruence. }
  rewrite sqlite_upsert_normal_form, d1_index_normal_form in Hsd.
  rewrite sqlite_upsert_documents, d1_index_documents.
  rewrite Hsqlite, Hd1 in *. simpl.
  assert (Hboth : sd_updatedAt sd = now
    ∧ sd_createdAt sd
      = (if decide (doc_created_at d = 0%Z) then now else doc_created_at d)).
  { destruct Hsd as [Hsd|Hsd].
    - destruct (sqlite_tags_after _ _ _); [|done]. injection Hsd as Hsd.
      by apply (Hreturned (Some tags)).
    - destruct (d1_tags_after _ _ _); [|done]. injection Hsd as Hsd.
      by apply (Hreturned None). }
  destruct Hboth as [Hupd Hcre]. split_and!; [done|done|by apply Hrow..].
Qed.

(** ** What a write leaves alone *)

Lemma filter_id_nil (docs : list SearchDocumentRow) id :
  filter (λ r, doc_id r = id) docs = [] → id ∉ doc_id <$> docs.
Proof.
  intros Hnil (r & -> & Hr)%list_elem_of_fmap.
  by apply (filter_nil_elim _ docs r Hnil).
Qed.

(** [getDocument] reads the rows of its id and the tag rows of its id, and
    nothing else. *)
Lemma getDocument_depends_on id db db' :
  unique_document_ids db → unique_document_ids db' →
  filter (λ r, doc_id r = id) (wt_search_documents db)
  = filter (λ r, doc_id r = id) (wt_search_documents db') →
  storedTagList id db = storedTagList id db' →
  Sqlite.getDocument id db = Sqlite.getDocument id db'
  ∧ D1.getDocument id db = D1.getDocument id db'.
Proof.
  intros Hnd Hnd' Hdocs Htags. split; [|unfold D1.getDocument; by rewrite Hdocs].
  destruct (filter (λ r, doc_id r = id) (wt_search_documents db))
    as [|d l] eqn:Hfilter.
  - rewrite !sqlite_getDocument_absent; [done|by apply filter_id_nil..].
  - assert (Hd : d ∈ filter (λ r, doc_id r = id) (wt_search_documents db))
      by (rewrite Hfilter; by left).
    assert (Hd' : d ∈ filter (λ r, doc_id r = id) (wt_search_documents db'))
      by (rewrite <- Hdocs; by left).
    apply list_elem_of_filter in Hd as [<- Hd].
    apply list_elem_of_filter in Hd' as [_ Hd'].
    rewrite !sqlite_getDocument_unique by done.
    unfold joined_tags. by rewrite Htags.
Qed.

Lemma documents_after_other cond `{∀ r, Decision (cond r)}
    now document docs docs' id' :
  (∀ r, cond r → doc_id r = body_id document) → id' ≠ body_id document →
  documents_after cond now document docs = Some docs' →
  filter (λ r, doc_id r = id') docs' = filter (λ r, doc_id r = id') docs.
Proof.
  intros Hcond Hne. unfold documents_after.
  destruct (head _); [|case_decide; [done|]]; intros [= <-].
  - induction docs as [|r docs IH]; [done|].
    rewrite fmap_cons, !filter_cons, IH.
    destruct (decide (cond r)) as [Hr|Hr]; [|done].
    simpl. rewrite !decide_False; [done| |]; rewrite (Hcond r Hr); congruence.
  - rewrite filter_app, filter_cons, decide_False by (simpl; congruence).
    by rewrite filter_nil, app_nil_r.
Qed.

Lemma tag_rows_for_other id id' (tags : list string) :
  id' ≠ id → filter (λ t, search_document_id t = id') (tag_rows_for id tags) = [].
Proof.
  intros Hne. apply filter_none.
  intros r [Hid _]%elem_of_tag_rows_for. congruence.
Qed.

Lemma sqlite_tags_after_other id id' tags table table' :
  id' ≠ id → sqlite_tags_after id tags table = Some table' →
  filter (λ t, search_document_id t = id') table'
  = filter (λ t, search_document_id t = id') table.
Proof.
  intros Hne. rewrite sqlite_tags_after_eq. case_decide.
  - intros ->%insert_tag_rows_Some.
    by rewrite filter_app, tag_rows_for_other, app_nil_r.
  - by intros [= <-].
Qed.

Lemma d1_tags_after_other id id' tags table table' :
  id' ≠ id → d1_tags_after id tags table = Some table' →
  filter (λ t, search_document_id t = id') table'
  = filter (λ t, search_document_id t = id') table.
Proof.
  intros Hne. rewrite d1_tags_after_eq. case_decide; [|by intros [= <-]].
  simpl. destruct (insert_tag_rows _ _) as [table1|] eqn:Hins; [|done].
  apply insert_tag_rows_Some in Hins as ->. intros [= <-].
  rewrite list_filter_filter.
  rewrite (list_filter_iff _ (λ t, search_document_id t = id')).
  - by rewrite filter_app, tag_rows_for_other, app_nil_r.
  - intros r. split; [by intros [? _]|]. intros Hr. split; [done|].
    intros [Hid _]. congruence.
Qed.

(** X12: an upsert, whether it completes or throws, leaves every other id as
    it was: its stored tags and what [getDocument] returns for it. *)
Theorem upsert_leaves_other_documents now document tags db id' :
  unique_document_ids db → id' ≠ body_id document →
  (storedTagList id' (Sqlite.upsertDocument now document tags db).2
     = storedTagList id' db
   ∧ Sqlite.getDocument id' (Sqlite.upsertDocument now document tags db).2
     = Sqlite.getDocument id' db)
  ∧ (storedTagList id' (D1.indexDocument now document tags db).2
       = storedTagList id' db
     ∧ D1.getDocument id' (D1.indexDocument now document tags db).2
       = D1.getDocument id' db).
Proof.
  intros Hnd Hne.
  assert (Hframe : ∀ db', unique_document_ids db' →
    filter (λ r, doc_id r = id') (wt_search_documents db')
    = filter (λ r, doc_id r = id') (wt_search_documents db) →
    filter (λ t, search_document_id t = id') (wt_search_tags db')
    = filter (λ t, search_document_id t = id') (wt_search_tags db) →
    storedTagList id' db' = storedTagList id' db
    ∧ Sqlite.getDocument id' db' = Sqlite.getDocument id' db
    ∧ D1.getDocument id' db' = D1.getDocument id' db).
  { intros db' Hnd' Hdocs Htags.
    assert (Hlist : storedTagList id' db' = storedTagList id' db)
      by (unfold storedTagList; by rewrite Htags).
    split; [done|]. by apply getDocument_depends_on. }
  rewrite sqlite_upsert_normal_form, d1_index_normal_form. split.
  - destruct (documents_after _ _ _ _) as [docs'|] eqn:Hdocs; [|done].
    pose proof (documents_after_unique _ _ _ _ _ Hnd Hdocs) as Hnd'.
    apply (documents_after_other _ _ _ _ _ id') in Hdocs; [|done..].
    destruct (sqlite_tags_after _ _ _) as [table|] eqn:Htags; simpl.
    + apply (sqlite_tags_after_other _ id') in Htags; [|done].
      by destruct (Hframe {| wt_search_documents := docs';
                             wt_search_tags := table |} Hnd' Hdocs Htags)
        as (? & ? & _).
    + by destruct (Hframe {| wt_search_documents := docs';
                             wt_search_tags := wt_search_tags db |}
                     Hnd' Hdocs eq_refl) as (? & ? & _).
  - destruct (documents_after _ _ _ _) as [docs'|] eqn:Hdocs; [|done].
    pose proof (documents_after_unique _ _ _ _ _ Hnd Hdocs) as Hnd'.
    apply (documents_after_other _ _ _ _ _ id') in Hdocs;
      [|by intros r (? & _)|done].
    destruct (d1_tags_after _ _ _) as [table|] eqn:Htags; simpl.
    + apply (d1_tags_after_other _ id') in Htags; [|done].
      by destruct (Hframe {| wt_search_documents := docs';
                             wt_search_tags := table |} Hnd' Hdocs Htags)
        as (? & _ & ?).
    + by destruct (Hframe {| wt_search_documents := docs';
                             wt_search_tags := wt_search_tags db |}
                     Hnd' Hdocs eq_refl) as (? & _ & ?).
Qed.

(** X13: [deleteDocument] leaves every other id as it was (its stored tags
    and what [getDocument] returns for it), and deleting the same id again
    changes nothing more. *)
Theorem deleteDocument_leaves_other_documents id db id' :
  unique_document_ids db → id' ≠ id →
  storedTagList id' (Sqlite.deleteDocument id db).2 = storedTagList id' db
  ∧ Sqlite.getDocument id' (Sqlite.deleteDocument id db).2
    = Sqlite.getDocument id' db
  ∧ D1.getDocument id' (D1.deleteDocument id db).2 = D1.getDocument id' db
  ∧ Sqlite.deleteDocument id (Sqlite.deleteDocument id db).2
    = (Resolved (), (Sqlite.deleteDocument id db).2).
Proof.
  intros Hnd Hne.
  destruct (deleteDocument_eq id db) as [Hs Hi]. rewrite Hi, Hs. cbn [fst snd].
  set (db' := {| wt_search_documents :=
                   filter (λ r, ¬ doc_id r = id) (wt_search_documents db);
                 wt_search_tags :=
                   filter (λ r, ¬ search_document_id r = id) (wt_search_tags db) |}).
  assert (Hnd' : unique_document_ids db') by by apply NoDup_fmap_filter.
  assert (Hdocs : filter (λ r, doc_id r = id') (wt_search_documents db')
                  = filter (λ r, doc_id r = id') (wt_search_documents db)).
  { simpl. rewrite list_filter_filter. apply list_filter_iff.
    intros r. split; [by intros [? _]|]. intros Hr. split; [done|]. congruence. }
  assert (Htags : storedTagList id' db' = storedTagList id' db).
  { unfold storedTagList. simpl. f_equal. rewrite list_filter_filter.
    apply list_filter_iff.
    intros r. split; [by intros [? _]|]. intros Hr. split; [done|]. congruence. }
  destruct (getDocument_depends_on id' db' db Hnd' Hnd Hdocs Htags) as [Hgs Hgd].
  split_and!; [done..|].
  destruct (deleteDocument_eq id db') as [-> _]. f_equal. unfold db'. simpl.
  f_equal; apply filter_all; by intros r [? _]%list_elem_of_filter.
Qed.

(** ** The same upsert twice *)

Lemma sqlite_tags_after_settled id tags table table1 :
  sqlite_tags_after id tags table = Some table1 →
  sqlite_tags_after id tags table1 = Some table1.
Proof.
  intros Hfirst. rewrite sqlite_tags_after_eq. case_decide; [|done].
  assert (Hnone : Sqlite.tagsToAdd tags
            (tag <$> filter (λ t, search_document_id t = id) table1) = []).
  { apply filter_none. intros t Ht Hnot. apply Hnot.
    apply elem_of_list_to_set, elem_of_existing_tags.
    by eapply sqlite_tags_after_covers. }
  by rewrite Hnone.
Qed.

Lemma d1_tags_after_settled id tags table table1 :
  d1_tags_after id tags table = Some table1 →
  d1_tags_after id tags table1 = Some table1.
Proof.
  intros Hfirst. rewrite d1_tags_after_eq. case_decide as Hlen; [|done].
  assert (Hne : tags ≠ []) by (intros ->; simpl in Hlen; lia).
  simpl.
  assert (Hadd : D1.tagsToAdd tags
            (filter (λ t, search_document_id t = id) table1) = []).
  { apply elem_of_nil_inv. intros t [Ht Hnot]%elem_of_d1_tagsToAdd.
    apply Hnot, elem_of_existing_tags.
    by apply (d1_tags_after_exact id tags table table1 t Hne Hfirst). }
  assert (Hrem : D1.tagsToRemove tags
            (filter (λ t, search_document_id t = id) table1) = []).
  { apply elem_of_nil_inv.
    intros [t i] [[Hi Hr]%list_elem_of_filter Hnot]%elem_of_d1_tagsToRemove.
    simpl in *. subst i. apply Hnot.
    by apply (d1_tags_after_exact id tags table table1 t Hne Hfirst). }
  rewrite Hadd, Hrem. simpl. f_equal. apply filter_all.
  intros r _ [_ Hr]. by apply elem_of_nil in Hr.
Qed.

Lemma documents_after_again cond `{∀ r, Decision (cond r)}
    cond' `{∀ r, Decision (cond' r)} now1 now2 document docs docs1 :
  (∀ r, doc_id r = body_id document ∧ doc_tenant r = body_tenant document
        ∧ doc_index r = body_index document → cond r) →
  documents_after cond now1 document docs = Some docs1 →
  documents_after cond' now2 document docs1
  = Some ((λ r, if decide (cond' r) then updated_row now2 document r else r)
          <$> docs1).
Proof.
  intros Hcond Hfirst.
  destruct (documents_after_row cond now1 document docs docs1 Hcond Hfirst)
    as (d' & Hd' & Hid & Hten & Hidx & _).
  unfold documents_after.
  destruct (filter _ docs1) as [|e es] eqn:Hfilter; [|done].
  exfalso. by apply (filter_nil_elim _ docs1 d' Hfilter).
Qed.

(** X14: repeating an upsert that completed, with the same document and
    tags at a later clock reading, completes too, leaves the tag rows as
    they are, and in the documents table only sets [data] and
    [updated_at] of the row of that id again, so its [created_at] stays. *)
Theorem upsert_again now1 now2 document tags db :
  unique_document_ids db →
  let touched r :=
    if decide (doc_id r = body_id document)
    then updated_row now2 document r else r in
  (resolves (Sqlite.upsertDocument now1 document tags db) →
   resolves (Sqlite.upsertDocument now2 document tags
               (Sqlite.upsertDocument now1 document tags db).2)
   ∧ (Sqlite.upsertDocument now2 document tags
        (Sqlite.upsertDocument now1 document tags db).2).2
     = {| wt_search_documents :=
            touched <$> wt_search_documents
                          (Sqlite.upsertDocument now1 document tags db).2;
          wt_search_tags :=
            wt_search_tags (Sqlite.upsertDocument now1 document tags db).2 |})
  ∧ (resolves (D1.indexDocument now1 document tags db) →
     resolves (D1.indexDocument now2 document tags
                 (D1.indexDocument now1 document tags db).2)
     ∧ (D1.indexDocument now2 document tags
          (D1.indexDocument now1 document tags db).2).2
       = {| wt_search_documents :=
              touched <$> wt_search_documents
                            (D1.indexDocument now1 document tags db).2;
            wt_search_tags :=
              wt_search_tags (D1.indexDocument now1 document tags db).2 |}).
Proof.
  intros Hnd touched. split.
  - rewrite (sqlite_upsert_normal_form now1). unfold resolves at 1.
    destruct (documents_after _ _ _ _) as [docs1|] eqn:Hdocs; [|done].
    destruct (sqlite_tags_after _ _ _) as [table1|] eqn:Htags; [|done].
    intros _. cbn [fst snd]. rewrite sqlite_upsert_normal_form.
    cbn [wt_search_documents wt_search_tags].
    rewrite (documents_after_again _ (λ r, doc_id r = body_id document)
               now1 now2 document _ docs1 (λ r Hr, proj1 Hr) Hdocs).
    by rewrite (sqlite_tags_after_settled _ _ _ _ Htags).
  - rewrite (d1_index_normal_form now1). unfold resolves at 1.
    destruct (documents_after _ _ _ _) as [docs1|] eqn:Hdocs; [|done].
    destruct (d1_tags_after _ _ _) as [table1|] eqn:Htags; [|done].
    intros _. cbn [fst snd]. rewrite d1_index_normal_form.
    cbn [wt_search_documents wt_search_tags].
    rewrite <- documents_after_agree
      by (by eapply documents_after_unique).
    rewrite (documents_after_again _ (λ r, doc_id r = body_id document)
               now1 now2 document _ docs1 (λ r Hr, Hr) Hdocs).
    by rewrite (d1_tags_after_settled _ _ _ _ Htags).
Qed.

(** X15: whatever [getDocumentsByTags] returns, [getDocuments] with the same
    tenant and index returns too, when its limit is no less than the number
    of stored documents of that tenant and index; on sqlite the two may
    differ in the [tags] property only. *)
Theorem getDocumentsByTags_within_getDocuments tags tenant index n m db sd :
  unique_document_ids db →
  let searched := {| opt_tenant := tenant; opt_index := index;
                     opt_limit := Some n |} in
  let listed := {| opt_tenant := tenant; opt_index := index;
                   opt_limit := Some m |} in
  (length (filter (in_scope listed) (wt_search_documents db)) ≤ m)%nat →
  (sd ∈ D1.getDocumentsByTags tags searched db →
   sd ∈ D1.getDocuments listed db)
  ∧ (sd ∈ Sqlite.getDocumentsByTags tags searched db →
     ∃ sd', sd' ∈ Sqlite.getDocuments listed db
            ∧ without_tags sd' = without_tags sd).
Proof.
  intros Hnd searched listed Hfits.
  assert (Hlisted : ∀ d, d ∈ wt_search_documents db → in_scope searched d →
                         D1._formatDocument d ∈ D1.getDocuments listed db).
  { intros d Hd Hscope. unfold D1.getDocuments. cbv zeta.
    rewrite (scope_filter (λ d, d)). simpl.
    rewrite take_ge by (by rewrite orderBy_desc_Permutation).
    apply list_elem_of_fmap_2, elem_of_orderBy_desc.
    apply list_elem_of_filter. split; [exact Hscope|done]. }
  split.
  - intros (d & Hd & Hscope & ->)%d1_getDocumentsByTags_elem_of. by apply Hlisted.
  - intros (d & Hd & Hscope & Hshows%shows_iff)%sqlite_getDocumentsByTags_elem_of.
    pose proof (Hlisted d Hd Hscope) as Hin.
    rewrite <- getDocuments_agree in Hin by done.
    apply list_elem_of_fmap in Hin as (sd' & Heq & Hsd').
    exists sd'. split; [done|].
    rewrite Hshows, Heq. by destruct sd'.
Qed.

(** ** When an upsert throws *)

Lemma insert_tag_rows_is_Some rows table :
  is_Some (insert_tag_rows rows table)
  ↔ NoDup rows ∧ ∀ r, r ∈ rows → r ∉ table.
Proof.
  revert table. induction rows as [|r rows IH]; intros table; simpl.
  - split; [|by eexists]. intros _. split; [apply NoDup_nil_2|].
    by intros r ?%elem_of_nil.
  - case_decide as Hr.
    + split; [by intros [? [=]]|]. intros [_ Hnot]. exfalso.
      by apply (Hnot r); [left|].
    + rewrite IH, NoDup_cons. split.
      * intros [Hnd Hnot]. split_and!; [|done|].
        -- intros Hin. apply (Hnot r Hin), elem_of_app. right. by left.
        -- intros r' [->|Hin]%elem_of_cons; [done|].
           intros Hr'. apply (Hnot r' Hin), elem_of_app. by left.
      * intros [[Hr' Hnd] Hnot]. split; [done|].
        intros r' Hin [Hr''| ->%list_elem_of_singleton]%elem_of_app; [|done].
        apply (Hnot r'); [by right|done].
Qed.

Lemma tags_to_add_by_stored id (tags : list string) db :
  Sqlite.tagsToAdd tags
    (tag <$> filter (λ t, search_document_id t = id) (wt_search_tags db))
  = filter (λ t, t ∉ storedTagList id db) tags.
Proof.
  unfold Sqlite.tagsToAdd, Sqlite.tagSet, storedTagList.
  apply list_filter_iff. intros t. by rewrite elem_of_list_to_set.
Qed.

Lemma tag_rows_for_NoDup id (tags : list string) :
  NoDup (tag_rows_for id tags) ↔ NoDup tags.
Proof.
  unfold tag_rows_for. split.
  - apply NoDup_fmap_1.
  - apply NoDup_fmap_2. by intros t1 t2 [= ->].
Qed.

Lemma tags_after_is_Some id (tags : list string) db :
  (is_Some (sqlite_tags_after id tags (wt_search_tags db))
   ↔ NoDup (filter (λ t, t ∉ storedTagList id db) tags))
  ∧ (is_Some (d1_tags_after id tags (wt_search_tags db))
     ↔ NoDup (filter (λ t, t ∉ storedTagList id db) tags)).
Proof.
  assert (Hsqlite : is_Some (sqlite_tags_after id tags (wt_search_tags db))
     ↔ NoDup (filter (λ t, t ∉ storedTagList id db) tags)).
  { rewrite sqlite_tags_after_eq. case_decide as Hlen.
    - rewrite insert_tag_rows_is_Some, tag_rows_for_NoDup, tags_to_add_by_stored.
      split; [by intros [? _]|]. intros Hnd. split; [done|].
      intros r [<- [Hnot _]%list_elem_of_filter]%elem_of_tag_rows_for Hr.
      apply Hnot. unfold storedTagList. apply elem_of_existing_tags.
      by destruct r.
    - destruct tags; [|simpl in Hlen; lia]. split; [|by eexists].
      intros _. apply NoDup_nil_2. }
  split; [done|]. by rewrite <- tags_after_agree_Some.
Qed.

Lemma documents_after_is_Some cond `{∀ r, Decision (cond r)} now document docs :
  NoDup (doc_id <$> docs) →
  is_Some (documents_after cond now document docs)
  ↔ ∀ d, d ∈ docs → doc_id d = body_id document →
         doc_tenant d = body_tenant document
         ∧ doc_index d = body_index document.
Proof.
  intros Hnd. unfold documents_after.
  destruct (filter _ docs) as [|e es] eqn:Hfilter; simpl.
  - case_decide as Hin.
    + split; [by intros [? [=]]|]. intros Hall.
      apply list_elem_of_fmap in Hin as (d & Hid & Hd).
      destruct (Hall d Hd) as [Hten Hidx]; [done|].
      exfalso. by apply (filter_nil_elim _ docs d Hfilter).
    + split; [|by eexists]. intros _ d Hd Hid. exfalso. apply Hin.
      rewrite <- Hid. by apply list_elem_of_fmap_2.
  - split; [|by eexists]. intros _ d Hd Hid.
    assert (He : e ∈ filter (λ r, doc_id r = body_id document
                 ∧ doc_tenant r = body_tenant document
                 ∧ doc_index r = body_index document) docs)
      by (rewrite Hfilter; by left).
    apply list_elem_of_filter in He as [(Heid & Hten & Hidx) He].
    assert (d = e) as -> by (eapply unique_id_inj; eauto; congruence).
    done.
Qed.

(** X16: an upsert completes exactly when its id is not stored under another
    tenant or index and its tag list does not repeat a tag that is not yet
    stored for the id; both adapters alike. *)
Theorem upsert_completes_exactly now document (tags : list string) db :
  unique_document_ids db →
  let accepted :=
    (∀ d, d ∈ wt_search_documents db → doc_id d = body_id document →
          doc_tenant d = body_tenant document
          ∧ doc_index d = body_index document)
    ∧ NoDup (filter (λ t, t ∉ storedTagList (body_id document) db) tags) in
  (resolves (Sqlite.upsertDocument now document tags db) ↔ accepted)
  ∧ (resolves (D1.indexDocument now document tags db) ↔ accepted).
Proof.
  intros Hnd accepted. unfold accepted, resolves.
  rewrite sqlite_upsert_normal_form, d1_index_normal_form.
  rewrite <- (documents_after_agree now document) by done.
  rewrite <- (documents_after_is_Some (λ r, doc_id r = body_id document)
                now document) by done.
  destruct (tags_after_is_Some (body_id document) tags db) as [<- Hd1].
  rewrite <- Hd1 at 2. clear Hd1.
  destruct (documents_after _ _ _ _) as [docs'|].
  - split.
    + destruct (sqlite_tags_after _ _ _); simpl.
      * split; [intros _; split; by eexists|done].
      * split; [done|]. by intros [_ [? [=]]].
    + destruct (d1_tags_after _ _ _); simpl.
      * split; [intros _; split; by eexists|done].
      * split; [done|]. by intros [_ [? [=]]].
  - simpl. split; (split; [done|]); by intros [[? [=]] _].
Qed.

(** X17: an upsert whose id is acceptable but whose tag list repeats a tag
    not yet stored for the id throws on the tags' unique index after the
    document row has been written: the documents table is the one a
    completed upsert leaves, and no tag row has changed. *)
Theorem upsert_throws_after_writing_row now document (tags : list string) db :
  unique_document_ids db →
  (∀ d, d ∈ wt_search_documents db → doc_id d = body_id document →
        doc_tenant d = body_tenant document
        ∧ doc_index d = body_index document) →
  ¬ NoDup (filter (λ t, t ∉ storedTagList (body_id document) db) tags) →
  ∃ docs', documents_after (λ r, doc_id r = body_id document) now document
             (wt_search_documents db) = Some docs'
    ∧ (∃ d', d' ∈ docs' ∧ doc_id d' = body_id document
             ∧ doc_data d' = JSON_stringify (body_data document)
             ∧ doc_updated_at d' = now)
    ∧ Sqlite.upsertDocument now document tags db
      = (Rejected (UniqueConstraintFailed "wt_search_tags_unique_idx"),
         {| wt_search_documents := docs';
            wt_search_tags := wt_search_tags db |})
    ∧ D1.indexDocument now document tags db
      = (Rejected (UniqueConstraintFailed "search_tags_unique_idx"),
         {| wt_search_documents := docs';
            wt_search_tags := wt_search_tags db |}).
Proof.
  intros Hnd Hid Hdup.
  rewrite sqlite_upsert_normal_form, d1_index_normal_form.
  rewrite <- (documents_after_agree now document) by done.
  apply (documents_after_is_Some (λ r, doc_id r = body_id document)
           now document) in Hid as [docs' Hdocs]; [|done].
  exists docs'. rewrite Hdocs. split; [done|].
  destruct (documents_after_row _ now document _ _ (λ r Hr, proj1 Hr) Hdocs)
    as (d' & Hd' & Hdid & _ & _ & Hdata & Hupd & _).
  split; [by exists d'|].
  destruct (tags_after_is_Some (body_id document) tags db) as [Hs Hd].
  destruct (sqlite_tags_after _ _ _) as [table|].
  { exfalso. apply Hdup, Hs. by eexists. }
  destruct (d1_tags_after _ _ _) as [table|].
  { exfalso. apply Hdup, Hd. by eexists. }
  done.
Qed.

(** ** Writing, then searching by tag *)



Lemma carries_all_tags (tags : list string) id db :
  list_to_set tags ⊆ storedTags id db
  ↔ ∀ t, t ∈ tags → {| tag := t; search_document_id := id |} ∈ wt_search_tags db.
Proof.
  split.
  - intros Hsub t Ht. apply elem_of_storedTags, Hsub.
    by apply elem_of_list_to_set.
  - intros Hall t Ht%elem_of_list_to_set. by apply elem_of_storedTags, Hall.
Qed.

Lemma documents_after_length cond `{∀ r, Decision (cond r)} now document
    docs docs' :
  documents_after cond now document docs = Some docs' →
  (length docs' ≤ S (length docs))%nat.
Proof.
  unfold documents_after.
  destruct (filter _ docs) as [|e es]; simpl.
  - case_decide; [done|]. intros [= <-]. rewrite length_app. simpl. lia.
  - intros [= <-]. rewrite length_fmap. lia.
Qed.

(** X18: a completed upsert with a non-empty tag list that repeats no tag
    makes the document findable by these tags: a search for the same list in
    the document's tenant (with or without its index), with a limit above the
    number of documents stored before the upsert, returns the written row;
    both adapters. *)
Theorem upsert_then_getDocumentsByTags now document (tags : list string)
    index n db :
  schema_ok db → tags ≠ [] → NoDup tags →
  index = None ∨ index = Some (body_index document) →
  (length (wt_search_documents db) < n)%nat →
  let options := {| opt_tenant := body_tenant document; opt_index := index;
                    opt_limit := Some n |} in
  (resolves (D1.indexDocument now document tags db) →
   ∃ d', d' ∈ wt_search_documents (D1.indexDocument now document tags db).2
     ∧ doc_id d' = body_id document
     ∧ D1._formatDocument d'
       ∈ D1.getDocumentsByTags tags options
           (D1.indexDocument now document tags db).2)
  ∧ (resolves (Sqlite.upsertDocument now document tags db) →
     ∃ d' sd,
       d' ∈ wt_search_documents (Sqlite.upsertDocument now document tags db).2
       ∧ doc_id d' = body_id document
       ∧ sd ∈ Sqlite.getDocumentsByTags tags options
                (Sqlite.upsertDocument now document tags db).2
       ∧ shows sd d').
Proof.
  intros Hok Hne Hnd Hindex Hfits options.
  destruct (schema_ok_preserved now document tags (body_id document)
              EmptyString db Hok) as (Hoks & Hokd & _).
  assert (Hscope : ∀ lim d', doc_tenant d' = body_tenant document →
                     doc_index d' = body_index document →
                     in_scope {| opt_tenant := body_tenant document;
                                 opt_index := index; opt_limit := lim |} d').
  { intros lim d' Hten Hidx. split; [done|]. simpl.
    destruct Hindex as [->| ->]; [done|]. intros _. by rewrite Hidx. }
  unfold resolves, options.
  rewrite sqlite_upsert_normal_form, d1_index_normal_form in *.
  split.
  - clear Hoks.
    destruct (documents_after _ _ _ _) as [docs'|] eqn:Hdocs; [|by simpl].
    destruct (d1_tags_after _ _ _) as [table'|] eqn:Htags; [|by simpl].
    simpl in *. intros _.
    destruct (documents_after_row _ now document _ _ (λ r Hr, Hr) Hdocs)
      as (d' & Hd' & Hdid & Hten & Hidx & _).
    apply documents_after_length in Hdocs.
    exists d'. split_and!; [done..|].
    rewrite d1_getDocumentsByTags_fits by (done || (simpl; lia)).
    apply d1_getDocumentsByTags_exact; [done..|].
    split_and!; [by apply Hscope|done..|].
    apply carries_all_tags. intros t Ht. simpl. rewrite Hdid.
    by apply (d1_tags_after_exact _ tags (wt_search_tags db)).
  - clear Hokd.
    destruct (documents_after _ _ _ _) as [docs'|] eqn:Hdocs; [|by simpl].
    destruct (sqlite_tags_after _ _ _) as [table'|] eqn:Htags; [|by simpl].
    simpl in *. intros _.
    destruct (documents_after_row _ now document _ _ (λ r Hr, proj1 Hr) Hdocs)
      as (d' & Hd' & Hdid & Hten & Hidx & _).
    apply documents_after_length in Hdocs.
    set (db' := {| wt_search_documents := docs'; wt_search_tags := table' |}).
    assert (Hfound : ∃ sd,
      sd ∈ Sqlite.getDocumentsByTags tags
             {| opt_tenant := body_tenant document; opt_index := index;
                opt_limit := Some n |} db'
      ∧ shows sd d').
    { rewrite sqlite_shown_iff, getDocumentsByTags_agree.
      rewrite d1_getDocumentsByTags_fits by (done || (simpl; lia)).
      apply d1_getDocumentsByTags_exact; [done..|].
      split_and!; [by apply Hscope|done..|].
      apply carries_all_tags. intros t Ht. simpl. rewrite Hdid.
      by apply (sqlite_tags_after_covers _ tags (wt_search_tags db)). }
    destruct Hfound as (sd & Hsd & Hshows). by exists d', sd.
Qed.


(** ** The further properties on sample data *)

Lemma sample_row_stored : sample_row ∈ wt_search_documents sample_db.
Proof. by left. Defined.

Lemma untagDocument_removes_the_pair_witness :
  ({| tag := "z"; search_document_id := "d1" |} ∉ wt_search_tags sample_db)
  ∧ (D1.untagDocument "d1" "z" sample_db).2 = sample_db.
Proof.
  assert (Hnot : {| tag := "z"; search_document_id := "d1" |}
                 ∉ wt_search_tags sample_db) by compute_done.
  split; [exact Hnot|].
  exact (proj2 (proj2 (proj2 (proj2
    (untagDocument_removes_the_pair "d1" "z" sample_db)))) Hnot).
Defined.

Lemma untagDocument_undoes_tagDocument_witness :
  ({| tag := "z"; search_document_id := "d1" |} ∉ wt_search_tags sample_db)
  ∧ (D1.untagDocument "d1" "z" (D1.tagDocument "d1" "z" sample_db).2).2
    = sample_db.
Proof.
  assert (Hnot : {| tag := "z"; search_document_id := "d1" |}
                 ∉ wt_search_tags sample_db) by compute_done.
  split; [exact Hnot|].
  exact (untagDocument_undoes_tagDocument "d1" "z" sample_db Hnot).
Defined.

Lemma sqlite_getDocument_splits_joined_tags_witness :
  unique_document_ids sample_db
  ∧ sample_row ∈ wt_search_documents sample_db
  ∧ ∃ sd, Sqlite.getDocument "d1" sample_db = Some sd
          ∧ shows sd sample_row
          ∧ sd_tags sd = Some ["x"; "y"].
Proof.
  split_and!; [exact (proj1 sample_db_schema_ok)|exact sample_row_stored|].
  exact (sqlite_getDocument_splits_joined_tags sample_db sample_row
           (proj1 sample_db_schema_ok) sample_row_stored).
Defined.

Lemma sample_tags_plain t : t ∈ ["x"; "y"] → plain_tag t.
Proof.
  intros [->|[->|[]%elem_of_nil]%elem_of_cons]%elem_of_cons;
    (split; [done|]); simpl; (split; [done|exact I]).
Defined.

Lemma sqlite_getDocument_returns_stored_tags_witness :
  unique_document_ids sample_db
  ∧ sample_row ∈ wt_search_documents sample_db
  ∧ (∀ t, t ∈ storedTagList "d1" sample_db → plain_tag t)
  ∧ Sqlite.getDocument "d1" sample_db
    = Some {| sd_id := "d1"; sd_tenant := "t1"; sd_index := "docs";
              sd_data := JSON_parse "{}"; sd_tags := Some ["x"; "y"];
              sd_createdAt := 1; sd_updatedAt := 1 |}.
Proof.
  split_and!; [exact (proj1 sample_db_schema_ok)|exact sample_row_stored
              |exact sample_tags_plain|].
  exact (sqlite_getDocument_returns_stored_tags sample_db sample_row
           (proj1 sample_db_schema_ok) sample_row_stored sample_tags_plain).
Defined.

Lemma getDocuments_lists_every_document_witness :
  unique_document_ids sample_db
  ∧ D1.getDocuments first_ten_t1 sample_db ≡ₚ [D1._formatDocument sample_row]
  ∧ without_tags <$> Sqlite.getDocuments first_ten_t1 sample_db
    ≡ₚ [D1._formatDocument sample_row].
Proof.
  split; [exact (proj1 sample_db_schema_ok)|].
  assert (Hfits : (length (filter (in_scope first_ten_t1)
                             (wt_search_documents sample_db)) ≤ 10)%nat)
    by compute_done.
  exact (proj1 (proj2 (getDocuments_lists_every_document "t1" None 10
                         sample_db (proj1 sample_db_schema_ok))) Hfits).
Defined.

Lemma sqlite_getDocumentsByTags_shows_searched_tags_witness :
  schema_ok sample_db
  ∧ (∀ t, t ∈ ["x"] → plain_tag t)
  ∧ Sqlite._formatDocument (sample_row, Some "x")
    ∈ Sqlite.getDocumentsByTags ["x"] first_ten_t1 sample_db
  ∧ ∃ ts, sd_tags (Sqlite._formatDocument (sample_row, Some "x")) = Some ts
          ∧ ts ≡ₚ ["x"].
Proof.
  assert (Hplain : ∀ t, t ∈ ["x"] → plain_tag t).
  { intros t Ht. apply sample_tags_plain.
    apply list_elem_of_singleton in Ht as ->. by left. }
  assert (Hfound : Sqlite._formatDocument (sample_row, Some "x")
                   ∈ Sqlite.getDocumentsByTags ["x"] first_ten_t1 sample_db)
    by (vm_compute; by left).
  split_and!; [exact sample_db_schema_ok|exact Hplain|exact Hfound|].
  exact (sqlite_getDocumentsByTags_shows_searched_tags ["x"] first_ten_t1
           sample_db _ sample_db_schema_ok Hplain Hfound).
Defined.

Lemma sample_row_created d :
  d ∈ wt_search_documents sample_db → doc_id d = body_id sample_body →
  doc_created_at d ≠ 0%Z.
Proof. by intros ->%list_elem_of_singleton _. Defined.

Lemma upsert_then_getDocument_witness :
  unique_document_ids sample_db
  ∧ ∃ sd, (D1.indexDocument 2 sample_body ["x"] sample_db).1 = Resolved sd
          ∧ D1.getDocument "d1" (D1.indexDocument 2 sample_body ["x"] sample_db).2
            = Some sd.
Proof.
  split; [exact (proj1 sample_db_schema_ok)|].
  eexists. split; [reflexivity|].
  apply (proj1 (upsert_then_getDocument 2 sample_body ["x"] sample_db
                  (proj1 sample_db_schema_ok) sample_row_created)).
  reflexivity.
Defined.

Lemma upsert_returns_creation_time_witness :
  unique_document_ids sample_db
  ∧ sample_row ∈ wt_search_documents sample_db
  ∧ ∃ sd, (Sqlite.upsertDocument 2 sample_body [] sample_db).1 = Resolved sd
          ∧ sd_updatedAt sd = 2%Z ∧ sd_createdAt sd = 1%Z.
Proof.
  split_and!; [exact (proj1 sample_db_schema_ok)|exact sample_row_stored|].
  eexists. split; [reflexivity|].
  destruct (upsert_returns_creation_time 2 sample_body [] sample_db sample_row _
              (proj1 sample_db_schema_ok) sample_row_stored eq_refl eq_refl
              eq_refl (or_introl eq_refl)) as (Hupdated & Hcreated & _).
  split; [exact Hupdated|exact Hcreated].
Defined.

Lemma upsert_leaves_other_documents_witness :
  unique_document_ids sample_db
  ∧ "d1" ≠ body_id fresh_body
  ∧ storedTagList "d1" (Sqlite.upsertDocument 2 fresh_body ["z"] sample_db).2
    = ["x"; "y"]
  ∧ D1.getDocument "d1" (D1.indexDocument 2 fresh_body ["z"] sample_db).2
    = D1.getDocument "d1" sample_db.
Proof.
  assert (Hne : "d1" ≠ body_id fresh_body) by done.
  split_and!; [exact (proj1 sample_db_schema_ok)|exact Hne|..].
  - exact (proj1 (proj1 (upsert_leaves_other_documents 2 fresh_body ["z"]
                           sample_db "d1" (proj1 sample_db_schema_ok) Hne))).
  - exact (proj2 (proj2 (upsert_leaves_other_documents 2 fresh_body ["z"]
                           sample_db "d1" (proj1 sample_db_schema_ok) Hne))).
Defined.

Lemma deleteDocument_leaves_other_documents_witness :
  unique_document_ids sample_db
  ∧ "d1" ≠ "d2"
  ∧ storedTagList "d1" (Sqlite.deleteDocument "d2" sample_db).2 = ["x"; "y"]
  ∧ Sqlite.getDocument "d1" (Sqlite.deleteDocument "d2" sample_db).2
    = Sqlite.getDocument "d1" sample_db.
Proof.
  assert (Hne : "d1" ≠ "d2") by done.
  split_and!; [exact (proj1 sample_db_schema_ok)|exact Hne|..].
  - exact (proj1 (deleteDocument_leaves_other_documents "d2" sample_db "d1"
                    (proj1 sample_db_schema_ok) Hne)).
  - exact (proj1 (proj2 (deleteDocument_leaves_other_documents "d2" sample_db
                           "d1" (proj1 sample_db_schema_ok) Hne))).
Defined.

Lemma upsert_again_witness :
  unique_document_ids sample_db
  ∧ resolves (Sqlite.upsertDocument 2 sample_body ["z"] sample_db)
  ∧ resolves (Sqlite.upsertDocument 3 sample_body ["z"]
                (Sqlite.upsertDocument 2 sample_body ["z"] sample_db).2)
  ∧ wt_search_tags (Sqlite.upsertDocument 3 sample_body ["z"]
                      (Sqlite.upsertDocument 2 sample_body ["z"] sample_db).2).2
    = wt_search_tags (Sqlite.upsertDocument 2 sample_body ["z"] sample_db).2.
Proof.
  assert (Hfirst : resolves (Sqlite.upsertDocument 2 sample_body ["z"] sample_db))
    by exact I.
  split_and!; [exact (proj1 sample_db_schema_ok)|exact Hfirst|..].
  - exact (proj1 (proj1 (upsert_again 2 3 sample_body ["z"] sample_db
                           (proj1 sample_db_schema_ok)) Hfirst)).
  - exact (f_equal wt_search_tags
             (proj2 (proj1 (upsert_again 2 3 sample_body ["z"] sample_db
                              (proj1 sample_db_schema_ok)) Hfirst))).
Defined.

Lemma getDocumentsByTags_within_getDocuments_witness :
  unique_document_ids sample_db
  ∧ D1._formatDocument sample_row
    ∈ D1.getDocumentsByTags ["x"] first_ten_t1 sample_db
  ∧ D1._formatDocument sample_row ∈ D1.getDocuments first_ten_t1 sample_db.
Proof.
  assert (Hfound : D1._formatDocument sample_row
                   ∈ D1.getDocumentsByTags ["x"] first_ten_t1 sample_db)
    by (vm_compute; by left).
  assert (Hfits : (length (filter (in_scope first_ten_t1)
                             (wt_search_documents sample_db)) ≤ 10)%nat)
    by compute_done.
  split_and!; [exact (proj1 sample_db_schema_ok)|exact Hfound|].
  exact (proj1 (getDocumentsByTags_within_getDocuments ["x"] "t1" None 10 10
                  sample_db _ (proj1 sample_db_schema_ok) Hfits) Hfound).
Defined.

Lemma sample_row_accepted d :
  d ∈ wt_search_documents sample_db → doc_id d = body_id sample_body →
  doc_tenant d = body_tenant sample_body ∧ doc_index d = body_index sample_body.
Proof. by intros ->%list_elem_of_singleton _. Defined.

Lemma upsert_completes_exactly_witness :
  unique_document_ids sample_db
  ∧ resolves (D1.indexDocument 2 sample_body ["z"; "x"; "x"] sample_db)
  ∧ ¬ resolves (D1.indexDocument 2 sample_body ["z"; "z"] sample_db).
Proof.
  split_and!; [exact (proj1 sample_db_schema_ok)|..].
  - apply (proj2 (upsert_completes_exactly 2 sample_body ["z"; "x"; "x"]
                    sample_db (proj1 sample_db_schema_ok))).
    split; [exact sample_row_accepted|compute_done].
  - intros Hresolves.
    apply (proj2 (upsert_completes_exactly 2 sample_body ["z"; "z"]
                    sample_db (proj1 sample_db_schema_ok))) in Hresolves
      as [_ Hnd].
    revert Hnd. compute_done.
Defined.

Lemma upsert_throws_after_writing_row_witness :
  unique_document_ids sample_db
  ∧ ¬ NoDup (filter (λ t, t ∉ storedTagList "d1" sample_db) ["z"; "z"])
  ∧ ∃ docs',
      updated_row 2 sample_body sample_row ∈ docs'
      ∧ Sqlite.upsertDocument 2 sample_body ["z"; "z"] sample_db
        = (Rejected (UniqueConstraintFailed "wt_search_tags_unique_idx"),
           {| wt_search_documents := docs';
              wt_search_tags := wt_search_tags sample_db |}).
Proof.
  assert (Hdup : ¬ NoDup (filter (λ t, t ∉ storedTagList "d1" sample_db)
                            ["z"; "z"])) by compute_done.
  split_and!; [exact (proj1 sample_db_schema_ok)|exact Hdup|].
  destruct (upsert_throws_after_writing_row 2 sample_body ["z"; "z"] sample_db
              (proj1 sample_db_schema_ok) sample_row_accepted Hdup)
    as (docs' & Hdocs & _ & Hsqlite & _).
  exists docs'. split; [|exact Hsqlite].
  injection Hdocs as <-. by left.
Defined.

Lemma upsert_then_getDocumentsByTags_witness :
  schema_ok sample_db
  ∧ resolves (D1.indexDocument 2 fresh_body ["a"; "b"] sample_db)
  ∧ ∃ d', doc_id d' = "d2"
          ∧ D1._formatDocument d'
            ∈ D1.getDocumentsByTags ["a"; "b"] first_ten_t1
                (D1.indexDocument 2 fresh_body ["a"; "b"] sample_db).2.
Proof.
  assert (Hresolves : resolves (D1.indexDocument 2 fresh_body ["a"; "b"]
                                  sample_db)) by exact I.
  split_and!; [exact sample_db_schema_ok|exact Hresolves|].
  assert (Hne : ["a"; "b"] ≠ ([] : list string)) by done.
  assert (Hnd : NoDup ["a"; "b"]) by compute_done.
  assert (Hfits : (length (wt_search_documents sample_db) < 10)%nat)
    by compute_done.
  destruct (proj1 (upsert_then_getDocumentsByTags 2 fresh_body ["a"; "b"] None
                     10 sample_db sample_db_schema_ok Hne Hnd
                     (or_introl eq_refl) Hfits)
              Hresolves) as (d' & _ & Hid & Hfound).
  exists d'. split; [exact Hid|exact Hfound].
Defined.

